(** * UUID_benchmark.py: a shallow embedding and its verified properties

    The script benchmarks four ways of drawing a 14-bit UUID clock
    sequence.  This file embeds it in Rocq: the four generators, the
    [timeit] harness, the metric computation and the final table, in a
    state-and-exception monad over a [world] that holds everything the
    script takes from outside (Mersenne Twister words, OS entropy, the
    performance counter) and everything it leaves behind (standard
    output, invocation counters).

    Python [float]s are IEEE binary64 values and are embedded as Rocq's
    primitive floats; Python [int]s are [Z]; [bytes] are lists of
    [Byte.byte]. *)

From Stdlib Require Import ZArith QArith Qabs Qreduction Qpower Bool String Ascii.
From Stdlib Require Import List Lia Lqa.
From Stdlib Require Import Strings.Byte Floats Permutation Sorted.
Import ListNotations.

Set Warnings "-inexact-float".
Open Scope Z_scope.

(** ** Exceptions and results *)

(** The exception classes the script and the library functions it calls
    can raise.  [OSError] and [NotImplementedError] come from
    [os.urandom]; [UnicodeEncodeError], a subclass of [ValueError], from
    [print]; the others from arithmetic, [statistics] and [timeit]. *)
Inductive exn : Type :=
| OSError
| NotImplementedError
| ValueError
| UnicodeEncodeError
| OverflowError
| ZeroDivisionError
| StatisticsError
| AttributeError
| NameError.

(** What a request to the operating system's entropy source can fail
    with: [OSError] when the source cannot be read, [NotImplementedError]
    when the platform has none. *)
Inductive os_failure : Type :=
| source_unreadable
| source_missing.

Definition exn_of_os_failure (f : os_failure) : exn :=
  match f with
  | source_unreadable => OSError
  | source_missing => NotImplementedError
  end.

Inductive result (A : Type) : Type :=
| Ok (a : A)
| Raise (e : exn).
Arguments Ok {A} a.
Arguments Raise {A} e.

Definition rbind {A B} (r : result A) (k : A -> result B) : result B :=
  match r with
  | Ok a => k a
  | Raise e => Raise e
  end.

Declare Scope result_scope.
Delimit Scope result_scope with res.
Notation "x <~ c1 ; c2" := (rbind c1 (fun x => c2))
  (at level 61, c1 at next level, right associativity) : result_scope.

(** ** Python numbers *)

Module pyfloat.

(** The exact value of a finite binary64 number, [None] for an infinity
    or a NaN ([float.as_integer_ratio] raises on those). *)
Definition Q_of_SF (x : spec_float) : option Q :=
  match x with
  | S754_zero _ => Some (0 # 1)%Q
  | S754_finite s m e =>
      let z := if s then Zneg m else Zpos m in
      Some match e with
           | Z0 => inject_Z z
           | Zpos _ => inject_Z (z * 2 ^ e)
           | Zneg p => Qmake z (2 ^ p)
           end
  | S754_infinity _ | S754_nan => None
  end.

Definition as_integer_ratio (x : float) : option Q := Q_of_SF (Prim2SF x).

(** [n / d] for two integers, rounded once to the nearest binary64
    (ties to even): Python's true division of integers, which is also
    how a [Fraction] becomes a [float]. *)
Definition SF_of_ratio (n : Z) (d : positive) : spec_float :=
  match n with
  | Z0 => S754_zero false
  | Zpos p =>
      let '(mz, ez, lz) := SFdiv_core_binary prec emax (Zpos p) 0 (Zpos d) 0 in
      binary_round_aux prec emax false mz ez lz
  | Zneg p =>
      let '(mz, ez, lz) := SFdiv_core_binary prec emax (Zpos p) 0 (Zpos d) 0 in
      binary_round_aux prec emax true mz ez lz
  end.

Definition int_truediv (n : Z) (d : positive) : result float :=
  let f := SF2Prim (SF_of_ratio n d) in
  if is_infinity f then Raise OverflowError else Ok f.

(** [float(Fraction)]: numerator over denominator, in lowest terms. *)
Definition of_Fraction (q : Q) : result float :=
  let r := Qred q in int_truediv (Qnum r) (Qden r).

(** Conversion of an [int] operand in mixed arithmetic
    ([PyLong_AsDouble]): exact rounding, [OverflowError] beyond the
    binary64 range. *)
Definition of_int (z : Z) : result float := int_truediv z 1.

(** [a / b] on floats: Python checks the divisor before dividing. *)
Definition truediv (a b : float) : result float :=
  if (b =? 0)%float then Raise ZeroDivisionError else Ok (a / b)%float.

(** [a / n] and [n / a] with an [int] operand [n]. *)
Definition truediv_int (a : float) (n : Z) : result float :=
  (b <~ of_int n ; truediv a b)%res.

Definition int_truediv_float (n : Z) (a : float) : result float :=
  (b <~ of_int n ; truediv b a)%res.

End pyfloat.

Module pyint.

(** [int.bit_length]. *)
Definition bit_length (z : Z) : Z :=
  match z with
  | Z0 => 0
  | _ => Z.log2 (Z.abs z) + 1
  end.

(** Whether an [int] fits a C [Py_ssize_t], on a 64-bit platform: the
    condition under which a C function takes it as a count. *)
Definition fits_ssize_t (z : Z) : bool :=
  (- 2 ^ 63 <=? z) && (z <=? 2 ^ 63 - 1).

Inductive byteorder := big | little.

Definition byte_value (b : byte) : Z := Z.of_N (Byte.to_N b).

(** The unsigned value of a byte string, most significant byte first. *)
Fixpoint unsigned_big (acc : Z) (bs : list byte) : Z :=
  match bs with
  | [] => acc
  | b :: bs' => unsigned_big (256 * acc + byte_value b) bs'
  end.

(** [int.from_bytes(bs, byteorder, signed=...)]. *)
Definition from_bytes (bs : list byte) (order : byteorder) (signed : bool) : Z :=
  let u := unsigned_big 0 (match order with big => bs | little => rev bs end) in
  let width := 8 * Z.of_nat (length bs) in
  if signed && (0 <? width) && Z.testbit u (width - 1)
  then u - 2 ^ width
  else u.

End pyint.

(** ** The [statistics] module

    [mean] and [stdev] as CPython 3.11 computes them: the data are summed
    as exact fractions and the result is rounded to a float once, at the
    end.  As soon as one datum is an infinity or a NaN the float sum of
    such data takes the place of the exact sum; [stdev] then fails on the
    missing numerator. *)

Module statistics.
Import pyfloat.

Inductive total : Type :=
| Exact (q : Q)
| NonFinite (f : float).

(** One step of [_sum]: a finite datum is added to the exact partial
    sum; an infinity or a NaN goes to the partial sum kept under the
    key [None], which then decides the total. *)
Definition add_datum (acc : total) (x : float) : total :=
  match as_integer_ratio x, acc with
  | Some q, Exact s => Exact (s + q)
  | Some _, NonFinite f => NonFinite f
  | None, Exact _ => NonFinite x
  | None, NonFinite f => NonFinite (f + x)%float
  end.

Definition _sum (data : list float) : total :=
  fold_left add_datum data (Exact 0).

Definition count (data : list float) : Z := Z.of_nat (List.length data).

Definition mean (data : list float) : result float :=
  let n := count data in
  if n <? 1 then Raise StatisticsError
  else match _sum data with
       | Exact s => of_Fraction (s / inject_Z n)
       | NonFinite f => truediv_int f n
       end.

(** The exact sum of the squares, for finite data. *)
Definition sum_squares (data : list float) : Q :=
  fold_left
    (fun acc x => match as_integer_ratio x with
                  | Some q => acc + q * q
                  | None => acc
                  end)%Q
    data 0%Q.

(** [_ss]: the exact sum of squared deviations from the mean. *)
Definition _ss (data : list float) : total :=
  let n := count data in
  if n =? 0 then Exact 0
  else match _sum data with
       | NonFinite f => NonFinite f
       | Exact sx =>
           Exact ((inject_Z n * sum_squares data - sx * sx) / inject_Z n)
       end.

Definition _integer_sqrt_of_frac_rto (n m : Z) : Z :=
  let a := Z.sqrt (n / m) in
  Z.lor a (if a * a * m =? n then 0 else 1).

Definition _sqrt_bit_width : Z := 2 * 53 + 3.

Definition _float_sqrt_of_frac (n m : Z) : result float :=
  let q := (pyint.bit_length n - pyint.bit_length m - _sqrt_bit_width) / 2 in
  if 0 <=? q
  then int_truediv (Z.shiftl (_integer_sqrt_of_frac_rto n (Z.shiftl m (2 * q))) q) 1
  else int_truediv (_integer_sqrt_of_frac_rto (Z.shiftl n (- 2 * q)) m)
                   (Z.to_pos (Z.shiftl 1 (- q))).

Definition stdev (data : list float) : result float :=
  let n := count data in
  if n <? 2 then Raise StatisticsError
  else match _ss data with
       | NonFinite _ => Raise AttributeError
       | Exact ss =>
           let mss := Qred (ss / inject_Z (n - 1)) in
           _float_sqrt_of_frac (Qnum mss) (Zpos (Qden mss))
       end.

End statistics.

(** ** The world of a run *)

(** The four candidate generators, as identified by the invocation
    counters of the world. *)
Inductive generator : Type :=
| gen_current
| gen_secrets
| gen_urandom
| gen_urandom_optimized.

Definition generator_eqb (a b : generator) : bool :=
  match a, b with
  | gen_current, gen_current
  | gen_secrets, gen_secrets
  | gen_urandom, gen_urandom
  | gen_urandom_optimized, gen_urandom_optimized => true
  | _, _ => false
  end.

(** What the script prints, one constructor per [print] call of the
    source, with the values the format string interpolates. *)
Inductive line : Type :=
| VersionLine (version : string)
| IterationsLine (iterations : Z)
| WarmupLine
| BenchmarkingLine (name : string)
| AverageLine (avg std : float)
| OpsLine (ops : float)
| SummaryTitle
| TableHeader
| TableRule
| TableRow (name : string) (avg std ops : float).

(** - [mt_word k] is the [k]-th word drawn from the Mersenne Twister of
      module [random], [mt_count] the number of words drawn so far;
    - [os_error k] tells whether the [k]-th request to [os.urandom]
      fails, [os_byte k i] is the [i]-th byte it delivers otherwise;
    - [clock k] is the [k]-th reading of [time.perf_counter];
    - [invocations g] counts the calls of generator [g];
    - [stdout] is the text printed so far, oldest line first;
    - [stdout_unicode] tells whether the encoding of [sys.stdout] has
      the characters outside ASCII that the script prints (UTF-8 has
      them, ASCII has not). *)
Record world : Type := mkWorld {
  sys_version : string;
  mt_word : Z -> Z;
  mt_count : Z;
  os_error : Z -> option os_failure;
  os_byte : Z -> nat -> byte;
  os_count : Z;
  clock : Z -> float;
  clock_count : Z;
  invocations : generator -> Z;
  stdout : list line;
  stdout_unicode : bool
}.

Definition set_mt_count (n : Z) (w : world) : world :=
  mkWorld (sys_version w) (mt_word w) n (os_error w) (os_byte w) (os_count w)
          (clock w) (clock_count w) (invocations w) (stdout w)
          (stdout_unicode w).

Definition set_os_count (n : Z) (w : world) : world :=
  mkWorld (sys_version w) (mt_word w) (mt_count w) (os_error w) (os_byte w) n
          (clock w) (clock_count w) (invocations w) (stdout w)
          (stdout_unicode w).

Definition set_clock_count (n : Z) (w : world) : world :=
  mkWorld (sys_version w) (mt_word w) (mt_count w) (os_error w) (os_byte w)
          (os_count w) (clock w) n (invocations w) (stdout w)
          (stdout_unicode w).

Definition set_invocations (f : generator -> Z) (w : world) : world :=
  mkWorld (sys_version w) (mt_word w) (mt_count w) (os_error w) (os_byte w)
          (os_count w) (clock w) (clock_count w) f (stdout w)
          (stdout_unicode w).

Definition set_stdout (out : list line) (w : world) : world :=
  mkWorld (sys_version w) (mt_word w) (mt_count w) (os_error w) (os_byte w)
          (os_count w) (clock w) (clock_count w) (invocations w) out
          (stdout_unicode w).

(** ** The monad of the script: state and exceptions

    An exception leaves the world as it was when it was raised; nothing
    in the script catches one, so the monad has no handler. *)

Definition M (A : Type) : Type := world -> result A * world.

Definition ret {A} (a : A) : M A := fun w => (Ok a, w).

Definition raise {A} (e : exn) : M A := fun w => (Raise e, w).

Definition bind {A B} (m : M A) (k : A -> M B) : M B :=
  fun w =>
    match m w with
    | (Ok a, w') => k a w'
    | (Raise e, w') => (Raise e, w')
    end.

Definition lift {A} (r : result A) : M A := fun w => (r, w).

Declare Scope py_scope.
Delimit Scope py_scope with py.
Notation "x <- c1 ;; c2" := (bind c1 (fun x => c2))
  (at level 61, c1 at next level, right associativity) : py_scope.
Notation "c1 ;; c2" := (bind c1 (fun _ => c2))
  (at level 61, right associativity) : py_scope.
Open Scope py_scope.

(** The lines whose text has a character outside ASCII: line 65 prints
    the sign [±].  Every other line is made of ASCII literals, of
    numbers, and of [sys.version]. *)
Definition non_ascii (l : line) : bool :=
  match l with
  | AverageLine _ _ => true
  | _ => false
  end.

(** [print(...)]: the line is encoded for [sys.stdout] and written.  An
    encoding that lacks a character of the line refuses it with
    [UnicodeEncodeError] before anything is written. *)
Definition print (l : line) : M unit :=
  fun w =>
    if non_ascii l && negb (stdout_unicode w)
    then (Raise UnicodeEncodeError, w)
    else (Ok tt, set_stdout (stdout w ++ [l]) w).

(** [for _ in range(n): body], for [n] already converted to [nat]. *)
Fixpoint for_range (n : nat) (body : M unit) : M unit :=
  match n with
  | O => ret tt
  | S k => body ;; for_range k body
  end.

(** ** Library modules the generators call *)

Module os.

(** [os.urandom(size)]: one request to the operating system's entropy
    source, answered by [size] bytes or by an exception. *)
Definition urandom (size : Z) : M (list byte) :=
  fun w =>
    if size <? 0 then (Raise ValueError, w)
    else
      let k := os_count w in
      match os_error w k with
      | Some f => (Raise (exn_of_os_failure f), set_os_count (k + 1) w)
      | None => (Ok (map (os_byte w k) (seq 0 (Z.to_nat size))),
                 set_os_count (k + 1) w)
      end.

End os.

Module random.

(** The next output of the Mersenne Twister, a C [uint32_t]. *)
Definition genrand_uint32 : M Z :=
  fun w => (Ok (mt_word w (mt_count w) mod 2 ^ 32),
            set_mt_count (mt_count w + 1) w).

(** The slow path of [getrandbits]: [words] 32-bit words, least
    significant first, the last one trimmed to the bits that remain. *)
Fixpoint getrandbits_words (words : nat) (k : Z) : M Z :=
  match words with
  | O => ret 0
  | S n =>
      r <- genrand_uint32 ;;
      let r' := if k <? 32 then Z.shiftr r (32 - k) else r in
      rest <- getrandbits_words n (k - 32) ;;
      ret (r' + Z.shiftl rest 32)
  end.

(** [random.getrandbits(k)] ([_random.Random.getrandbits] in C). *)
Definition getrandbits (k : Z) : M Z :=
  if k <? 0 then raise ValueError
  else if k =? 0 then ret 0
  else if k <=? 32 then
    r <- genrand_uint32 ;; ret (Z.shiftr r (32 - k))
  else getrandbits_words (Z.to_nat ((k - 1) / 32 + 1)) k.

End random.

Module secrets.

(** [secrets.randbits(k)], that is [SystemRandom().getrandbits(k)]. *)
Definition randbits (k : Z) : M Z :=
  if k <? 0 then raise ValueError
  else
    let numbytes := (k + 7) / 8 in
    bs <- os.urandom numbytes ;;
    let x := pyint.from_bytes bs pyint.big false in
    ret (Z.shiftr x (numbytes * 8 - k)).

End secrets.

Module itertools.

(** [itertools.repeat(None, times)], as the number of items it yields:
    the count is taken as a C [Py_ssize_t], with [OverflowError] when it
    does not fit; the iterator yields nothing for a negative count. *)
Definition repeat (times : Z) : M nat :=
  if pyint.fits_ssize_t times then ret (Z.to_nat times)
  else raise OverflowError.

End itertools.

Module timeit.

(** [timeit.default_timer], which is [time.perf_counter]. *)
Definition default_timer : M float :=
  fun w => (Ok (clock w (clock_count w)),
            set_clock_count (clock_count w + 1) w).

(** [Timer.timeit(number)]: the iterator is made first; the statement
    then runs once per item between two readings of the timer. *)
Definition timeit (stmt : M unit) (number : Z) : M float :=
  it <- itertools.repeat number ;;
  _t0 <- default_timer ;;
  for_range it stmt ;;
  _t1 <- default_timer ;;
  ret (_t1 - _t0)%float.

Fixpoint repeat_from (stmt : M unit) (n : nat) (number : Z) (r : list float)
  : M (list float) :=
  match n with
  | O => ret r
  | S k => t <- timeit stmt number ;; repeat_from stmt k number (r ++ [t])
  end.

(** [Timer.repeat(repeat, number)]. *)
Definition repeat (stmt : M unit) (repeat number : Z) : M (list float) :=
  repeat_from stmt (Z.to_nat repeat) number [].

End timeit.

(** ** UUID_benchmark.py *)

(** Entering generator [g]: its invocation counter goes up by one. *)
Definition invoked (g : generator) : M unit :=
  fun w =>
    (Ok tt,
     set_invocations
       (fun g' => if generator_eqb g g' then invocations w g' + 1
                  else invocations w g') w).

(** The default of the keyword argument [signed] of [int.from_bytes]. *)
Definition signed_default : bool := false.

Definition current_clock_sequence : M Z :=
  invoked gen_current ;;
  random.getrandbits 14.

Definition clockseq_secrets : M Z :=
  invoked gen_secrets ;;
  secrets.randbits 14.

Definition clockseq_urandom : M Z :=
  invoked gen_urandom ;;
  bs <- os.urandom 2 ;;
  ret (Z.land (pyint.from_bytes bs pyint.big signed_default) 0x3fff).

Definition clockseq_urandom_optimized : M Z :=
  invoked gen_urandom_optimized ;;
  bs <- os.urandom 2 ;;
  ret (Z.land (pyint.from_bytes bs pyint.big false) 0x3fff).

(** The module globals of the benchmark configuration. *)
Record globals : Type := {
  NUM_ITERATIONS : Z;
  WARMUP_ROUNDS : Z
}.

Definition module_globals : globals :=
  {| NUM_ITERATIONS := 1000000; WARMUP_ROUNDS := 100 |}.

Definition TEST_CASES : list (string * string) :=
  [ ("current (random.getrandbits)", "current_clock_sequence()");
    ("secrets.getrandbits", "clockseq_secrets()");
    ("os.urandom", "clockseq_urandom()");
    ("os.urandom_optimized", "clockseq_urandom_optimized()") ]%string.

(** [timeit.Timer(stmt=stmt, globals=globals())]: the statement is
    compiled against the globals of the script, where the four generators
    live; the value of the call is dropped.  A statement that names none
    of them fails with [NameError] when it runs. *)
Definition Timer (stmt : string) : M unit :=
  if (stmt =? "current_clock_sequence()")%string then
    current_clock_sequence ;; ret tt
  else if (stmt =? "clockseq_secrets()")%string then
    clockseq_secrets ;; ret tt
  else if (stmt =? "clockseq_urandom()")%string then
    clockseq_urandom ;; ret tt
  else if (stmt =? "clockseq_urandom_optimized()")%string then
    clockseq_urandom_optimized ;; ret tt
  else raise NameError.

(** One result record, the value stored under a generator's name. *)
Record metrics : Type := {
  avg_ns : float;
  stddev_ns : float;
  ops_per_sec : float
}.

(** Lines 55 to 63: the metrics of one sample set ([Summarize] in the
    specification), for an iteration count [iterations]. *)
Definition summarize (times : list float) (iterations : Z) : result metrics :=
  (m <~ statistics.mean times ;
   per_call <~ pyfloat.truediv_int m iterations ;
   let avg_time := (per_call * 1e9)%float in
   s <~ statistics.stdev times ;
   s_per_call <~ pyfloat.truediv_int s iterations ;
   let std_dev := (s_per_call * 1e9)%float in
   m' <~ statistics.mean times ;
   ops <~ pyfloat.int_truediv_float iterations m' ;
   Ok {| avg_ns := avg_time; stddev_ns := std_dev; ops_per_sec := ops |})%res.

(** The [results] dictionary: keys in insertion order; assigning to a
    key that is present replaces its value in place. *)
Definition dict : Type := list (string * metrics).

Fixpoint dict_set (d : dict) (k : string) (v : metrics) : dict :=
  match d with
  | [] => [(k, v)]
  | (k', v') :: d' =>
      if (k' =? k)%string then (k', v) :: d'
      else (k', v') :: dict_set d' k v
  end.

(** [sorted(items, key=...)] for keys compared with [<]: a stable sort.
    Every stable sort gives the same list when [<] orders the keys, which
    for floats means that no key is a NaN. *)
Section Sorted.
Variable A : Type.
Variable key : A -> float.

Fixpoint insert_by_key (x : A) (l : list A) : list A :=
  match l with
  | [] => [x]
  | y :: l' =>
      if (key y <? key x)%float then y :: insert_by_key x l'
      else x :: y :: l'
  end.

Fixpoint sorted (l : list A) : list A :=
  match l with
  | [] => []
  | x :: l' => insert_by_key x (sorted l')
  end.
End Sorted.
Arguments insert_by_key {A} key x l.
Arguments sorted {A} key l.

Fixpoint for_each {A : Type} (l : list A) (body : A -> M unit) : M unit :=
  match l with
  | [] => ret tt
  | x :: l' => body x ;; for_each l' body
  end.

(** One round of the warmup loop, lines 40 to 43. *)
Definition warmup_round : M unit :=
  current_clock_sequence ;;
  clockseq_secrets ;;
  clockseq_urandom ;;
  clockseq_urandom_optimized ;;
  ret tt.

(** Lines 37 to 43. *)
Definition warmup (G : globals) : M unit :=
  print WarmupLine ;;
  for_range (Z.to_nat (WARMUP_ROUNDS G)) warmup_round.

(** The body of the loop over [TEST_CASES], lines 48 to 66; it returns
    the updated dictionary. *)
Definition benchmark_case (G : globals) (results : dict) (case : string * string)
  : M dict :=
  let '(name, stmt) := case in
  print (BenchmarkingLine name) ;;
  times <- timeit.repeat (Timer stmt) 5 (NUM_ITERATIONS G) ;;
  r <- lift (summarize times (NUM_ITERATIONS G)) ;;
  let results' := dict_set results name r in
  print (AverageLine (avg_ns r) (stddev_ns r)) ;;
  print (OpsLine (ops_per_sec r)) ;;
  ret results'.

Fixpoint benchmark_cases (G : globals) (cases : list (string * string))
  (results : dict) : M dict :=
  match cases with
  | [] => ret results
  | case :: cases' =>
      results' <- benchmark_case G results case ;;
      benchmark_cases G cases' results'
  end.

(** Lines 34 to 66: banner, warmup and measurements. *)
Definition measure (G : globals) : M dict :=
  version <- (fun w => (Ok (sys_version w), w)) ;;
  print (VersionLine version) ;;
  print (IterationsLine (NUM_ITERATIONS G)) ;;
  warmup G ;;
  benchmark_cases G TEST_CASES [].

Definition table_rows (results : dict) : list (string * metrics) :=
  sorted (fun item => avg_ns (snd item)) results.

Definition print_row (item : string * metrics) : M unit :=
  let '(name, res) := item in
  print (TableRow name (avg_ns res) (stddev_ns res) (ops_per_sec res)).

(** Lines 68 to 73: the comparison table. *)
Definition print_summary (results : dict) : M unit :=
  print SummaryTitle ;;
  print TableHeader ;;
  print TableRule ;;
  for_each (table_rows results) print_row.

Definition run_benchmark (G : globals) : M unit :=
  results <- measure G ;;
  print_summary results.

(** Lines 75 and 76, and the interpreter around them: an exception that
    reaches the top level ends the process with status 1. *)
Definition main : M unit := run_benchmark module_globals.

Definition exit_status (r : result unit) : Z :=
  match r with
  | Ok _ => 0
  | Raise _ => 1
  end.

(** ** Auxiliary definitions for the statements *)

(** The byte whose value is [z], for [z] below 256. *)
Definition byte_of_Z (z : Z) : byte :=
  match Byte.of_N (Z.to_N z) with
  | Some b => b
  | None => x00
  end.

(** The two bytes the next entropy request of [w] delivers. *)
Definition next_pair (w : world) : byte * byte :=
  (os_byte w (os_count w) 0%nat, os_byte w (os_count w) 1%nat).

(** The value [clockseq_urandom] makes of a pair of entropy bytes. *)
Definition masked (p : byte * byte) : Z :=
  (256 * pyint.byte_value (fst p) + pyint.byte_value (snd p)) mod 16384.

(** Two worlds that differ at most in their invocation counters. *)
Definition agree_except_invocations (w1 w2 : world) : Prop :=
  sys_version w1 = sys_version w2 /\
  mt_word w1 = mt_word w2 /\ mt_count w1 = mt_count w2 /\
  os_error w1 = os_error w2 /\ os_byte w1 = os_byte w2 /\
  os_count w1 = os_count w2 /\
  clock w1 = clock w2 /\ clock_count w1 = clock_count w2 /\
  stdout w1 = stdout w2 /\ stdout_unicode w1 = stdout_unicode w2.

(** The pair of bytes that spells the 16-bit number [n], high byte first. *)
Definition pair_of (n : Z) : byte * byte :=
  (byte_of_Z (n / 256), byte_of_Z (n mod 256)).

Definition pair_value (p : byte * byte) : Z :=
  256 * pyint.byte_value (fst p) + pyint.byte_value (snd p).

(** The four byte pairs that [clockseq_urandom] maps to [v]. *)
Definition preimages (v : Z) : list (byte * byte) :=
  map (fun j => pair_of (v + 16384 * j)) [0; 1; 2; 3].

(** The sample of the specification's example. *)
Definition example_totals : list float := [0.10; 0.11; 0.09; 0.10; 0.10]%float.




(** What stays fixed during a run: the interpreter, the sources and the
    encoding of the standard output. *)
Definition same_sources (w w' : world) : Prop :=
  sys_version w' = sys_version w /\
  mt_word w' = mt_word w /\
  os_error w' = os_error w /\
  os_byte w' = os_byte w /\
  clock w' = clock w /\
  stdout_unicode w' = stdout_unicode w.

(** How far a computation moves the counters of the world: words drawn
    from the Mersenne Twister, entropy requests, timer readings, and
    invocations of each generator. *)
Record footprint : Type := mkFootprint {
  f_mt : Z;
  f_os : Z;
  f_clock : Z;
  f_current : Z;
  f_secrets : Z;
  f_urandom : Z;
  f_optimized : Z
}.

Definition f_inv (d : footprint) (g : generator) : Z :=
  match g with
  | gen_current => f_current d
  | gen_secrets => f_secrets d
  | gen_urandom => f_urandom d
  | gen_urandom_optimized => f_optimized d
  end.

Definition fp_zero : footprint := mkFootprint 0 0 0 0 0 0 0.

Definition fp_add (a b : footprint) : footprint :=
  mkFootprint (f_mt a + f_mt b) (f_os a + f_os b) (f_clock a + f_clock b)
              (f_current a + f_current b) (f_secrets a + f_secrets b)
              (f_urandom a + f_urandom b) (f_optimized a + f_optimized b).

Definition fp_scale (n : Z) (a : footprint) : footprint :=
  mkFootprint (n * f_mt a) (n * f_os a) (n * f_clock a)
              (n * f_current a) (n * f_secrets a)
              (n * f_urandom a) (n * f_optimized a).

(** The footprint of one call of generator [g]. *)
Definition fp_call (g : generator) : footprint :=
  match g with
  | gen_current => mkFootprint 1 0 0 1 0 0 0
  | gen_secrets => mkFootprint 0 1 0 0 1 0 0
  | gen_urandom => mkFootprint 0 1 0 0 0 1 0
  | gen_urandom_optimized => mkFootprint 0 1 0 0 0 0 1
  end.

Definition fp_warmup_round : footprint := mkFootprint 1 3 0 1 1 1 1.

Definition fp_clock (n : Z) : footprint := mkFootprint 0 0 n 0 0 0 0.

Definition advanced (d : footprint) (w w' : world) : Prop :=
  same_sources w w' /\
  mt_count w' = mt_count w + f_mt d /\
  os_count w' = os_count w + f_os d /\
  clock_count w' = clock_count w + f_clock d /\
  forall g, invocations w' g = invocations w g + f_inv d g.

(** Partial correctness: whenever [m] returns normally it has moved the
    counters by [d]. *)
Definition on_success {A} (m : M A) (d : footprint) : Prop :=
  forall w a w', m w = (Ok a, w') -> advanced d w w'.

(** The generator a statement of [TEST_CASES] calls. *)
Definition generator_of (stmt : string) : option generator :=
  if (stmt =? "current_clock_sequence()")%string then Some gen_current
  else if (stmt =? "clockseq_secrets()")%string then Some gen_secrets
  else if (stmt =? "clockseq_urandom()")%string then Some gen_urandom
  else if (stmt =? "clockseq_urandom_optimized()")%string
       then Some gen_urandom_optimized
  else None.

(** The [j]-th timing sample taken from timer reading [start] on: the
    difference of two consecutive readings. *)
Definition sample (w : world) (start j : Z) : float :=
  (clock w (start + 2 * j + 1) - clock w (start + 2 * j))%float.

Definition samples (w : world) (start : Z) : list float :=
  map (sample w start) [0; 1; 2; 3; 4].

(** The line [print_row] prints for an item of the dictionary. *)
Definition table_line (item : string * metrics) : line :=
  TableRow (fst item) (avg_ns (snd item)) (stddev_ns (snd item))
           (ops_per_sec (snd item)).

(** The dictionary that holds [r0] to [r3] under the four names of
    [TEST_CASES], in that order. *)
Definition results_of (r0 r1 r2 r3 : metrics) : dict :=
  [ ("current (random.getrandbits)", r0);
    ("secrets.getrandbits", r1);
    ("os.urandom", r2);
    ("os.urandom_optimized", r3) ]%string.

(** The metrics of the sample set read from timer reading [start] on. *)
Definition measured (G : globals) (w : world) (start : Z) (r : metrics) : Prop :=
  summarize (samples w start) (NUM_ITERATIONS G) = Ok r.

(** A small world and a small configuration to run the script on: the
    entropy source never fails and delivers [0xff] bytes, and the [k]-th
    timer reading is [k * k] milliseconds. *)
Definition demo_clock (k : Z) : float :=
  match pyfloat.of_int (k * k) with
  | Ok f => (f * 0.001)%float
  | Raise _ => 0%float
  end.

Definition demo_world : world :=
  mkWorld "3.11.2" (fun k => 1234567 * k + 99999) 0
          (fun _ => None) (fun _ _ => xff) 0
          demo_clock 0 (fun _ => 0) [] true.

Definition demo_globals : globals :=
  {| NUM_ITERATIONS := 3; WARMUP_ROUNDS := 2 |}.

(** Row [a] may stand before row [b]: its average is not above. *)
Definition avg_le (a b : string * metrics) : Prop :=
  (avg_ns (snd a) <=? avg_ns (snd b))%float = true.

(** The averages of a dictionary are numbers. *)
Definition averages_are_numbers (results : dict) : Prop :=
  Forall (fun item => is_nan (avg_ns (snd item)) = false) results.

(** A result record with average [avg], for the ordering example. *)
Definition with_average (avg : float) : metrics :=
  {| avg_ns := avg; stddev_ns := 1; ops_per_sec := (1e9 / avg)%float |}.

Definition example_results : dict :=
  [ ("A", with_average 50); ("B", with_average 20); ("C", with_average 80) ]%string.

(** What holds of every computation of the script, however it ends: the
    entropy source is read forward only, a failed entropy request within
    the computation is its outcome, printed text is never taken back, and
    the outcome is not a [StatisticsError]. *)
Definition sound {A} (m : M A) : Prop :=
  forall w r w',
    m w = (r, w') ->
    os_error w' = os_error w /\
    os_count w <= os_count w' /\
    (forall k f, os_count w <= k < os_count w' -> os_error w k = Some f ->
                 r = Raise (exn_of_os_failure f)) /\
    (exists out, stdout w' = stdout w ++ out) /\
    r <> Raise StatisticsError.

(** The world once the two banner lines are printed, lines 34 and 35. *)
Definition after_banner (G : globals) (w : world) : world :=
  set_stdout (stdout w ++ [VersionLine (sys_version w);
                           IterationsLine (NUM_ITERATIONS G)]) w.

(** A world whose sixth entropy request fails. *)
Definition failing_world : world :=
  mkWorld "3.11.2" (fun k => k) 0
          (fun k => if k =? 5 then Some source_unreadable else None)
          (fun _ _ => x00) 0
          demo_clock 0 (fun _ => 0) [] true.




(** A world whose entropy source never fails. *)
Definition entropy_available (w : world) : Prop :=
  forall k, os_error w k = None.

(** A world in which nothing the script asks of its environment fails:
    the entropy source answers every request and the standard output
    can encode every line. *)
Definition healthy (w : world) : Prop :=
  entropy_available w /\ stdout_unicode w = true.

(** Total correctness where the entropy source never fails: [m] returns
    normally, and the source is as it was. *)
Definition completes {A} (m : M A) : Prop :=
  forall w, entropy_available w ->
            exists a w', m w = (Ok a, w') /\ entropy_available w'.

(** The four sample sets of a run started in [w] have metrics. *)
Definition measurable (G : globals) (w : world) : Prop :=
  forall start, In start [0; 10; 20; 30] ->
    exists r, summarize (samples w (clock_count w + start)) (NUM_ITERATIONS G) = Ok r.

(** The four byte pairs that [clockseq_secrets] maps to [v]: those that
    spell [4 * v] to [4 * v + 3]. *)
Definition preimages_top (v : Z) : list (byte * byte) :=
  map (fun j => pair_of (4 * v + j)) [0; 1; 2; 3].

(** The three generators that read the operating system's entropy. *)
Definition entropy_generators : list (M Z) :=
  [clockseq_secrets; clockseq_urandom; clockseq_urandom_optimized].

(** A computation that prints nothing, however it ends. *)
Definition silent {A} (m : M A) : Prop :=
  forall w r w', m w = (r, w') -> stdout w' = stdout w.

(** The three lines printed for a test case, lines 48, 65 and 66. *)
Definition case_lines (name : string) (r : metrics) : list line :=
  [BenchmarkingLine name;
   AverageLine (avg_ns r) (stddev_ns r);
   OpsLine (ops_per_sec r)].

(** The computations the script is made of: its primitive steps, one
    request of two entropy bytes, the metric computation, and their
    sequential composition. *)
Inductive script : forall A : Type, M A -> Prop :=
| script_ret : forall (A : Type) (a : A), script A (ret a)
| script_print : forall l, script unit (print l)
| script_version : script string (fun w => (Ok (sys_version w), w))
| script_invoked : forall g, script unit (invoked g)
| script_timer : script float timeit.default_timer
| script_iterator : forall times, script nat (itertools.repeat times)
| script_word : script Z random.genrand_uint32
| script_entropy : script (list byte) (os.urandom 2)
| script_metrics : forall times n, script metrics (lift (summarize times n))
| script_bind : forall (A B : Type) (m : M A) (k : A -> M B),
    script A m -> (forall a, script B (k a)) -> script B (bind m k).


(** How a computation of the script deals with the entropy source: it
    reads the source forward, and a failed request is its outcome and
    the last request it makes. *)
Definition orderly {A} (m : M A) : Prop :=
  forall w r w',
    m w = (r, w') ->
    os_error w' = os_error w /\
    os_count w <= os_count w' /\
    (forall k f, os_count w <= k < os_count w' -> os_error w k = Some f ->
                 r = Raise (exn_of_os_failure f) /\ os_count w' = k + 1).







(** The demonstration world with other random words and entropy bytes,
    read from other positions. *)
Definition other_world : world :=
  mkWorld "3.11.2" (fun k => k) 7
          (fun _ => None) (fun _ _ => x00) 3
          demo_clock 0 (fun _ => 0) [] true.

(** Item [a] stands above an occurrence of item [b] in a list. *)
Inductive above {A : Type} (a b : A) : list A -> Prop :=
| above_here : forall l, In b l -> above a b (a :: l)
| above_later : forall y l, above a b l -> above a b (y :: l).




(** ** Binary64 rounding

    The vocabulary of the rounding lemmas: what [binary_round_aux]
    returns on a fraction, and the floats on which [mean], [stdev] and
    the metrics are free of overflow and underflow. *)

(** Where the fraction [a/b] lies between its integer part and the next
    integer: the location that [SFdiv_core_binary] hands to the rounding. *)
Definition loc_of_frac (a b : Z) : location :=
  if a mod b =? 0 then loc_Exact else loc_Inexact (2 * (a mod b) ?= b).

(** What [binary_round_aux] returns on the fraction [a/b] scaled by
    [2^ex]: the sign is kept, a finite result is a valid float within
    half a unit in the last place, and an infinity needs a large
    magnitude. *)
Definition rounds_to (sx : bool) (a b ex : Z) (r : spec_float) : Prop :=
  match r with
  | S754_zero s =>
      s = sx /\
      2 * a <= b * 2 ^ (fexp prec emax (Zdigits2 (a / b) + ex) - ex)
  | S754_finite s m e =>
      s = sx /\ bounded prec emax m e = true /\ ex <= e /\
      fexp prec emax (Zdigits2 (a / b) + ex) <= e /\
      e <= fexp prec emax (Zdigits2 (a / b) + ex + 1) /\
      2 * Z.abs (Z.pos m * (b * 2 ^ (e - ex)) - a) <= b * 2 ^ (e - ex)
  | S754_infinity s => s = sx /\ emax <= Zdigits2 (a / b) + ex
  | S754_nan => False
  end.

(** The exponent and the shift [SFdiv_core_binary] chooses. *)
Definition div_exponent (m1 e1 m2 e2 : Z) : Z :=
  Z.min (fexp prec emax (Zdigits2 m1 + e1 - (Zdigits2 m2 + e2))) (e1 - e2).

Definition div_shift (m1 e1 m2 e2 : Z) : Z :=
  e1 - e2 - div_exponent m1 e1 m2 e2.

(** A finite float below [2^1000] in magnitude, as every difference of
    two readings of the performance counter is. *)
Definition moderate (x : float) : bool :=
  match Prim2SF x with
  | S754_zero _ => true
  | S754_finite _ _ e => e <=? 947
  | S754_infinity _ | S754_nan => false
  end.

(** [x] is finite and its exact value is at most [b] in magnitude. *)
Definition ratio_below (b : Z) (x : float) : Prop :=
  exists q, pyfloat.as_integer_ratio x = Some q /\ (Qabs q <= inject_Z b)%Q.




(** * Properties *)

(** ** Reasoning about the monad *)

Lemma bind_inv {A B} (m : M A) (k : A -> M B) w r w' :
  bind m k w = (r, w') ->
  (exists a w1, m w = (Ok a, w1) /\ k a w1 = (r, w')) \/
  (exists e, m w = (Raise e, w') /\ r = Raise e).
Proof.
  unfold bind. destruct (m w) as [[a | e] w1]; intros H.
  - left. exists a, w1. auto.
  - right. exists e. inversion H; subst. auto.
Qed.

Lemma bind_ok_inv {A B} (m : M A) (k : A -> M B) w b w' :
  bind m k w = (Ok b, w') ->
  exists a w1, m w = (Ok a, w1) /\ k a w1 = (Ok b, w').
Proof.
  intros H. apply bind_inv in H. destruct H as [H | [e [_ H]]]; [exact H | discriminate].
Qed.

Lemma bind_ok {A B} (m : M A) (k : A -> M B) w a w1 :
  m w = (Ok a, w1) -> bind m k w = k a w1.
Proof. unfold bind. intros ->. reflexivity. Qed.

Lemma bind_raise {A B} (m : M A) (k : A -> M B) w e w1 :
  m w = (Raise e, w1) -> bind m k w = (Raise e, w1).
Proof. unfold bind. intros ->. reflexivity. Qed.

(** [print] either appends its line or, for a line outside ASCII on a
    standard output that cannot encode it, raises and writes nothing. *)
Lemma print_inv (l : line) (w : world) (r : result unit) (w' : world) :
  print l w = (r, w') ->
  (r = Ok tt /\ w' = set_stdout (stdout w ++ [l]) w) \/
  (r = Raise UnicodeEncodeError /\ w' = w /\
   non_ascii l = true /\ stdout_unicode w = false).
Proof.
  unfold print. destruct (non_ascii l); cbn [andb].
  - destruct (stdout_unicode w); cbn [negb]; intros H;
      [left | right]; repeat split; congruence.
  - intros H. left. split; congruence.
Qed.

Lemma print_ok_inv (l : line) (w : world) (a : unit) (w' : world) :
  print l w = (Ok a, w') -> w' = set_stdout (stdout w ++ [l]) w.
Proof.
  intros H. apply print_inv in H.
  destruct H as [[_ H] | [H _]]; [exact H | discriminate].
Qed.

Lemma print_ascii (l : line) (w : world) :
  non_ascii l = false -> print l w = (Ok tt, set_stdout (stdout w ++ [l]) w).
Proof. unfold print. intros ->. reflexivity. Qed.

Lemma print_unicode (l : line) (w : world) :
  stdout_unicode w = true ->
  print l w = (Ok tt, set_stdout (stdout w ++ [l]) w).
Proof. unfold print. intros ->. rewrite andb_false_r. reflexivity. Qed.

(** ** The generators *)

Lemma byte_value_range (b : byte) : 0 <= pyint.byte_value b <= 255.
Proof.
  unfold pyint.byte_value. pose proof (Byte.to_N_bounded b). lia.
Qed.

Lemma byte_value_inj (a b : byte) :
  pyint.byte_value a = pyint.byte_value b -> a = b.
Proof.
  unfold pyint.byte_value. intros H. apply N2Z.inj in H.
  pose proof (Byte.of_to_N a) as Ha. rewrite H, Byte.of_to_N in Ha.
  congruence.
Qed.

Lemma byte_value_of_Z (z : Z) :
  0 <= z <= 255 -> pyint.byte_value (byte_of_Z z) = z.
Proof.
  intros Hz. unfold byte_of_Z, pyint.byte_value.
  destruct (Byte.of_N (Z.to_N z)) as [b |] eqn:E.
  - apply Byte.to_of_N in E. rewrite E. lia.
  - apply Byte.of_N_None_iff in E. lia.
Qed.

Lemma from_bytes_two (b0 b1 : byte) :
  pyint.from_bytes [b0; b1] pyint.big false
  = 256 * pyint.byte_value b0 + pyint.byte_value b1.
Proof.
  unfold pyint.from_bytes. cbn [andb pyint.unsigned_big]. lia.
Qed.

Lemma land_3fff (x : Z) : Z.land x 0x3fff = x mod 16384.
Proof. change 0x3fff with (Z.ones 14). rewrite Z.land_ones by lia. reflexivity. Qed.

Lemma current_clock_sequence_run (w : world) :
  exists w',
    current_clock_sequence w
    = (Ok (Z.shiftr (mt_word w (mt_count w) mod 2 ^ 32) 18), w').
Proof. eexists. reflexivity. Qed.

Lemma clockseq_secrets_run (w : world) :
  exists w',
    clockseq_secrets w
    = (match os_error w (os_count w) with
       | Some f => Raise (exn_of_os_failure f)
       | None => Ok (Z.shiftr (256 * pyint.byte_value (fst (next_pair w))
                               + pyint.byte_value (snd (next_pair w))) 2)
       end, w').
Proof.
  unfold clockseq_secrets, secrets.randbits, bind, invoked, os.urandom, ret.
  cbn. destruct (os_error w (os_count w)); eexists; reflexivity.
Qed.

Lemma clockseq_urandom_run (w : world) :
  exists w',
    clockseq_urandom w
    = (match os_error w (os_count w) with
       | Some f => Raise (exn_of_os_failure f)
       | None => Ok (masked (next_pair w))
       end, w').
Proof.
  unfold clockseq_urandom, bind, invoked, os.urandom, ret, signed_default.
  cbn. destruct (os_error w (os_count w)); eexists; try reflexivity.
  unfold masked, next_pair. cbn [fst snd].
  rewrite <- from_bytes_two, <- land_3fff. reflexivity.
Qed.

Lemma clockseq_urandom_optimized_run (w : world) :
  exists w',
    clockseq_urandom_optimized w
    = (match os_error w (os_count w) with
       | Some f => Raise (exn_of_os_failure f)
       | None => Ok (masked (next_pair w))
       end, w').
Proof.
  unfold clockseq_urandom_optimized, bind, invoked, os.urandom, ret.
  cbn. destruct (os_error w (os_count w)); eexists; try reflexivity.
  unfold masked, next_pair. cbn [fst snd].
  rewrite <- from_bytes_two, <- land_3fff. reflexivity.
Qed.

Lemma masked_range (p : byte * byte) : 0 <= masked p <= 16383.
Proof. unfold masked. pose proof (Z.mod_pos_bound (256 * pyint.byte_value (fst p) + pyint.byte_value (snd p)) 16384). lia. Qed.

Lemma div_range (x d q : Z) : 0 < d -> 0 <= x < d * q -> 0 <= x / d < q.
Proof.
  intros Hd Hx. split.
  - apply Z.div_pos; lia.
  - apply Z.div_lt_upper_bound; lia.
Qed.

(** C1. Whatever the randomness sources supply, a value returned by any
    of the four generators lies in the closed range from 0 to 16383. *)
Theorem generators_return_14_bits (w w' : world) (v : Z) :
  current_clock_sequence w = (Ok v, w') \/
  clockseq_secrets w = (Ok v, w') \/
  clockseq_urandom w = (Ok v, w') \/
  clockseq_urandom_optimized w = (Ok v, w') ->
  0 <= v <= 16383.
Proof.
  intros [H | [H | [H | H]]].
  - destruct (current_clock_sequence_run w) as [w1 E].
    assert (v = Z.shiftr (mt_word w (mt_count w) mod 2 ^ 32) 18) as ->
        by congruence.
    rewrite Z.shiftr_div_pow2 by lia.
    pose proof (Z.mod_pos_bound (mt_word w (mt_count w)) (2 ^ 32) eq_refl) as B.
    pose proof (div_range (mt_word w (mt_count w) mod 2 ^ 32) (2 ^ 18) 16384
                  eq_refl) as D.
    change (2 ^ 32) with 4294967296 in *. change (2 ^ 18) with 262144 in *.
    specialize (D ltac:(lia)). lia.
  - destruct (clockseq_secrets_run w) as [w1 E]. rewrite E in H.
    destruct (os_error w (os_count w)); [discriminate |].
    assert (v = Z.shiftr (256 * pyint.byte_value (fst (next_pair w))
                          + pyint.byte_value (snd (next_pair w))) 2) as ->
        by congruence.
    rewrite Z.shiftr_div_pow2 by lia.
    pose proof (byte_value_range (fst (next_pair w))) as B0.
    pose proof (byte_value_range (snd (next_pair w))) as B1.
    pose proof (div_range (256 * pyint.byte_value (fst (next_pair w))
                           + pyint.byte_value (snd (next_pair w))) (2 ^ 2) 16384
                  eq_refl) as D.
    change (2 ^ 2) with 4 in *.
    specialize (D ltac:(lia)). lia.
  - destruct (clockseq_urandom_run w) as [w1 E]. rewrite E in H.
    destruct (os_error w (os_count w)); [discriminate |].
    assert (v = masked (next_pair w)) as -> by congruence.
    apply masked_range.
  - destruct (clockseq_urandom_optimized_run w) as [w1 E]. rewrite E in H.
    destruct (os_error w (os_count w)); [discriminate |].
    assert (v = masked (next_pair w)) as -> by congruence.
    apply masked_range.
Qed.

(** C2. The baseline and the "optimized" OS-entropy generators behave
    alike: from every world they return the same value or raise the same
    exception, and they use up the same entropy; the explicit
    [signed=False] equals the default. *)
Theorem urandom_optimized_same_as_urandom (w : world) :
  fst (clockseq_urandom_optimized w) = fst (clockseq_urandom w) /\
  agree_except_invocations
    (snd (clockseq_urandom_optimized w)) (snd (clockseq_urandom w)) /\
  (forall bs order,
      pyint.from_bytes bs order false = pyint.from_bytes bs order signed_default).
Proof.
  unfold clockseq_urandom_optimized, clockseq_urandom, bind, invoked,
    os.urandom, ret, agree_except_invocations, signed_default.
  cbn. destruct (os_error w (os_count w)); cbn; repeat split; reflexivity.
Qed.

Lemma pair_value_of (n : Z) : 0 <= n < 65536 -> pair_value (pair_of n) = n.
Proof.
  intros Hn. unfold pair_value, pair_of. cbn [fst snd].
  pose proof (Z.mod_pos_bound n 256).
  assert (0 <= n / 256 <= 255).
  { split; [apply Z.div_pos; lia |].
    assert (n / 256 < 256); [apply Z.div_lt_upper_bound; lia | lia]. }
  rewrite !byte_value_of_Z by lia.
  pose proof (Z.div_mod n 256). lia.
Qed.

Lemma pair_value_range (p : byte * byte) : 0 <= pair_value p < 65536.
Proof.
  unfold pair_value.
  pose proof (byte_value_range (fst p)). pose proof (byte_value_range (snd p)).
  lia.
Qed.

Lemma pair_value_inj (p q : byte * byte) : pair_value p = pair_value q -> p = q.
Proof.
  destruct p as [a b], q as [c d]. unfold pair_value. cbn [fst snd].
  pose proof (byte_value_range a). pose proof (byte_value_range b).
  pose proof (byte_value_range c). pose proof (byte_value_range d).
  intros E.
  assert (pyint.byte_value a = pyint.byte_value c) by lia.
  assert (pyint.byte_value b = pyint.byte_value d) by lia.
  f_equal; apply byte_value_inj; assumption.
Qed.

Lemma preimages_spec (v : Z) (p : byte * byte) :
  0 <= v <= 16383 -> (In p (preimages v) <-> masked p = v).
Proof.
  intros Hv. unfold preimages, masked. fold (pair_value p). split.
  - intros H. apply in_map_iff in H. destruct H as [j [<- Hj]].
    assert (0 <= j <= 3) by (cbn in Hj; lia).
    rewrite pair_value_of by lia.
    replace (v + 16384 * j) with (v + j * 16384) by lia.
    rewrite Z.mod_add by lia.
    apply Z.mod_small. lia.
  - intros H. pose proof (pair_value_range p) as R.
    pose proof (Z.div_mod (pair_value p) 16384) as D.
    assert (0 <= pair_value p / 16384 <= 3) as J.
    { split; [apply Z.div_pos; lia |].
      assert (pair_value p / 16384 < 4); [apply Z.div_lt_upper_bound; lia | lia]. }
    apply in_map_iff. exists (pair_value p / 16384). split.
    + apply pair_value_inj. rewrite pair_value_of by lia. lia.
    + cbn. lia.
Qed.

Lemma preimages_NoDup (v : Z) : 0 <= v <= 16383 -> NoDup (preimages v).
Proof.
  intros Hv.
  assert (forall l, NoDup l -> Forall (fun j => 0 <= j <= 3) l ->
                    NoDup (map (fun j => pair_of (v + 16384 * j)) l)) as G.
  { induction 1 as [| j l Hj Hl IH]; intros F; cbn [map]; constructor.
    - inversion F; subst. intros I. apply in_map_iff in I.
      destruct I as [i [E Hi]].
      assert (0 <= i <= 3) by (rewrite Forall_forall in F; apply F; now right).
      apply (f_equal pair_value) in E. rewrite !pair_value_of in E by lia.
      assert (i = j) by lia. subst. contradiction.
    - apply IH. now inversion F. }
  apply G.
  - repeat constructor; cbn; lia.
  - repeat constructor; lia.
Qed.

(** C8. [clockseq_urandom] reads its two entropy bytes as a big-endian
    unsigned number and keeps the low 14 bits, [(256*b0 + b1) mod 16384];
    every value from 0 to 16383 is the image of exactly four byte pairs,
    so uniform bytes give a uniform clock sequence. *)
Theorem urandom_masks_big_endian_uniformly :
  (forall w, os_error w (os_count w) = None ->
     fst (clockseq_urandom w)
     = Ok ((256 * pyint.byte_value (os_byte w (os_count w) 0%nat)
            + pyint.byte_value (os_byte w (os_count w) 1%nat)) mod 16384)) /\
  (forall v, 0 <= v <= 16383 ->
     exists l : list (byte * byte),
       NoDup l /\ List.length l = 4%nat /\
       forall w, os_error w (os_count w) = None ->
         (fst (clockseq_urandom w) = Ok v <-> In (next_pair w) l)).
Proof.
  split.
  - intros w H. destruct (clockseq_urandom_run w) as [w' E].
    rewrite E, H. reflexivity.
  - intros v Hv. exists (preimages v). split; [| split].
    + now apply preimages_NoDup.
    + reflexivity.
    + intros w H. destruct (clockseq_urandom_run w) as [w' E].
      rewrite E, H. cbn [fst]. rewrite preimages_spec by assumption.
      split; [intros X; now inversion X | intros ->; reflexivity].
Qed.

(** ** The metrics *)

Lemma int_truediv_raises (n : Z) (d : positive) (e : exn) :
  pyfloat.int_truediv n d = Raise e -> e = OverflowError.
Proof.
  unfold pyfloat.int_truediv.
  destruct (is_infinity _); intros H; congruence.
Qed.

Lemma truediv_int_raises (a : float) (n : Z) (e : exn) :
  pyfloat.truediv_int a n = Raise e ->
  e = OverflowError \/ e = ZeroDivisionError.
Proof.
  unfold pyfloat.truediv_int, pyfloat.of_int, pyfloat.truediv, rbind.
  destruct (pyfloat.int_truediv n 1) as [b | e'] eqn:E.
  - destruct (b =? 0)%float; intros H; [right | ]; congruence.
  - apply int_truediv_raises in E. intros H. left. congruence.
Qed.

Lemma int_truediv_float_raises (n : Z) (a : float) (e : exn) :
  pyfloat.int_truediv_float n a = Raise e ->
  e = OverflowError \/ e = ZeroDivisionError.
Proof.
  unfold pyfloat.int_truediv_float, pyfloat.of_int, pyfloat.truediv, rbind.
  destruct (pyfloat.int_truediv n 1) as [b | e'] eqn:E.
  - destruct (a =? 0)%float; intros H; [right | ]; congruence.
  - apply int_truediv_raises in E. intros H. left. congruence.
Qed.

(** [mean] raises [StatisticsError] only on an empty sample. *)
Lemma mean_StatisticsError (data : list float) :
  statistics.mean data = Raise StatisticsError -> (List.length data < 1)%nat.
Proof.
  unfold statistics.mean, statistics.count.
  destruct (Z.of_nat (List.length data) <? 1) eqn:E.
  - intros _. apply Z.ltb_lt in E. lia.
  - destruct (statistics._sum data) as [s | f]; intros H.
    + unfold pyfloat.of_Fraction in H. apply int_truediv_raises in H. discriminate.
    + apply truediv_int_raises in H. destruct H; discriminate.
Qed.

(** [stdev] raises [StatisticsError] only on fewer than two data points. *)
Lemma stdev_StatisticsError (data : list float) :
  statistics.stdev data = Raise StatisticsError -> (List.length data < 2)%nat.
Proof.
  unfold statistics.stdev, statistics.count.
  destruct (Z.of_nat (List.length data) <? 2) eqn:E.
  - intros _. apply Z.ltb_lt in E. lia.
  - destruct (statistics._ss data) as [s | f]; intros H.
    + unfold statistics._float_sqrt_of_frac in H.
      destruct (0 <=? _); apply int_truediv_raises in H; discriminate.
    + discriminate.
Qed.

Lemma stdev_guard (data : list float) :
  (List.length data < 2)%nat -> statistics.stdev data = Raise StatisticsError.
Proof.
  intros H. unfold statistics.stdev, statistics.count.
  destruct (Z.of_nat (List.length data) <? 2) eqn:E; [reflexivity |].
  apply Z.ltb_ge in E. lia.
Qed.

Lemma summarize_StatisticsError (times : list float) (iterations : Z) :
  summarize times iterations = Raise StatisticsError ->
  (List.length times < 2)%nat.
Proof.
  unfold summarize, rbind.
  destruct (statistics.mean times) as [m | e] eqn:Em.
  - destruct (pyfloat.truediv_int m iterations) as [a | e] eqn:Ea.
    + destruct (statistics.stdev times) as [s | e] eqn:Es.
      * destruct (pyfloat.truediv_int s iterations) as [b | e] eqn:Eb.
        -- destruct (pyfloat.int_truediv_float iterations m) as [c | e] eqn:Ec.
           ++ discriminate.
           ++ intros H. apply int_truediv_float_raises in Ec.
              destruct Ec; congruence.
        -- intros H. apply truediv_int_raises in Eb. destruct Eb; congruence.
      * intros H. apply stdev_StatisticsError. congruence.
    + intros H. apply truediv_int_raises in Ea. destruct Ea; congruence.
  - intros H. assert (List.length times < 1)%nat; [| lia].
    apply mean_StatisticsError. congruence.
Qed.

Lemma summarize_example :
  summarize example_totals 1000000
  = Ok {| avg_ns := 100.00000000000001;
          stddev_ns := 7.0710678118654755;
          ops_per_sec := 10000000 |}.
Proof. vm_compute. reflexivity. Qed.

Lemma summarize_inv (times : list float) (iterations : Z) (r : metrics) :
  summarize times iterations = Ok r <->
  exists m s n,
    statistics.mean times = Ok m /\
    statistics.stdev times = Ok s /\
    pyfloat.of_int iterations = Ok n /\
    (n =? 0)%float = false /\ (m =? 0)%float = false /\
    r = {| avg_ns := (m / n * 1e9)%float;
           stddev_ns := (s / n * 1e9)%float;
           ops_per_sec := (n / m)%float |}.
Proof.
  unfold summarize, pyfloat.truediv_int, pyfloat.int_truediv_float,
    pyfloat.truediv, rbind.
  split.
  - destruct (statistics.mean times) as [m | e]; [| discriminate].
    destruct (pyfloat.of_int iterations) as [n | e]; [| discriminate].
    destruct (n =? 0)%float eqn:En; [discriminate |].
    destruct (statistics.stdev times) as [s | e]; [| discriminate].
    destruct (m =? 0)%float eqn:Em; [discriminate |].
    intros H. exists m, s, n. repeat split; congruence.
  - intros [m [s [n (Hm & Hs & Hn & Hn0 & Hm0 & ->)]]].
    rewrite Hm, Hn, Hn0, Hs, Hm0. reflexivity.
Qed.

(** C3. The metrics are a function of the sample and the iteration count
    alone: [summarize] returns exactly when [mean], [stdev] and the
    int-to-float conversion return and neither divisor is zero, and then
    the average is [mean/iterations*1e9], the deviation
    [stdev/iterations*1e9] and the throughput [iterations/mean], computed
    in binary64 as the script does.  On the sample 0.10, 0.11, 0.09,
    0.10, 0.10 with a million iterations the throughput is 10,000,000
    calls per second and the average is 100 ns: the float computed is the
    one next to 100, less than 2e-14 ns away from it. *)
Theorem summarize_formulas :
  (forall times iterations r,
      summarize times iterations = Ok r <->
      exists m s n,
        statistics.mean times = Ok m /\
        statistics.stdev times = Ok s /\
        pyfloat.of_int iterations = Ok n /\
        (n =? 0)%float = false /\ (m =? 0)%float = false /\
        r = {| avg_ns := (m / n * 1e9)%float;
               stddev_ns := (s / n * 1e9)%float;
               ops_per_sec := (n / m)%float |}) /\
  (exists r q,
      summarize example_totals 1000000 = Ok r /\
      avg_ns r = next_up 100 /\
      avg_ns r = 100.00000000000001%float /\
      ops_per_sec r = 10000000%float /\
      pyfloat.as_integer_ratio (avg_ns r) = Some q /\
      (Qabs (q - inject_Z 100) <= 2 # 100000000000000)%Q).
Proof.
  split; [exact summarize_inv |].
  eexists. eexists. split; [apply summarize_example |].
  cbn [avg_ns ops_per_sec].
  split; [reflexivity | split; [reflexivity | split; [reflexivity |]]].
  split; [vm_compute; reflexivity |].
  apply Qle_bool_iff. vm_compute. reflexivity.
Qed.


(** ** Binary64 rounding: digits, shifts and the rounded mantissa *)

Lemma fexp_eq (e : Z) : fexp prec emax e = Z.max (e - 53) (-1074).
Proof. reflexivity. Qed.

Lemma digits2_pos_size (p : positive) : digits2_pos p = Pos.size p.
Proof. induction p as [p IH | p IH |]; cbn; congruence. Qed.

Lemma Zdigits2_log2 (m : Z) : 0 < m -> Zdigits2 m = Z.log2 m + 1.
Proof.
  destruct m as [| p | p]; try lia. intros _. cbn [Zdigits2].
  rewrite digits2_pos_size. destruct p as [p | p |]; cbn; lia.
Qed.

Lemma Zdigits2_nonneg (m : Z) : 0 <= Zdigits2 m.
Proof. destruct m; cbn; lia. Qed.

Lemma Zdigits2_pos (m : Z) : 0 < m -> 0 < Zdigits2 m.
Proof. destruct m; cbn; lia. Qed.

Lemma Zdigits2_bounds (m : Z) :
  0 < m -> 2 ^ (Zdigits2 m - 1) <= m < 2 ^ Zdigits2 m.
Proof.
  intros H. rewrite Zdigits2_log2 by exact H.
  pose proof (Z.log2_spec m H) as S.
  replace (Z.log2 m + 1 - 1) with (Z.log2 m) by lia.
  replace (Z.log2 m + 1) with (Z.succ (Z.log2 m)) by lia. exact S.
Qed.


Lemma Zdigits2_le_iff (m d : Z) : 0 <= m -> 0 <= d -> (Zdigits2 m <= d <-> m < 2 ^ d).
Proof.
  intros Hm Hd. destruct (Z.eq_dec m 0) as [-> | N].
  - cbn. pose proof (Z.pow_pos_nonneg 2 d). lia.
  - rewrite Zdigits2_log2 by lia.
    rewrite (Z.log2_lt_pow2 m d) by lia. lia.
Qed.

Lemma Zdigits2_ge_iff (m d : Z) : 0 < m -> (d <= Zdigits2 m <-> 2 ^ (d - 1) <= m).
Proof.
  intros Hm. rewrite Zdigits2_log2 by lia.
  rewrite (Z.log2_le_pow2 m (d - 1)) by lia. lia.
Qed.

Lemma Zdigits2_mono (m m' : Z) : 0 <= m <= m' -> Zdigits2 m <= Zdigits2 m'.
Proof.
  intros H. destruct (Z.eq_dec m 0) as [-> | N].
  - apply Zdigits2_nonneg.
  - rewrite !Zdigits2_log2 by lia.
    pose proof (Z.log2_le_mono m m'). lia.
Qed.

Lemma Zdigits2_div_pow2 (m n : Z) :
  0 <= m -> 0 <= n -> Zdigits2 (m / 2 ^ n) = Z.max 0 (Zdigits2 m - n).
Proof.
  intros Hm Hn. destruct (Z.eq_dec m 0) as [-> | N].
  - rewrite Z.div_0_l by (pose proof (Z.pow_pos_nonneg 2 n); lia). cbn. lia.
  - rewrite <- Z.shiftr_div_pow2 by exact Hn.
    destruct (Z.eq_dec (Z.shiftr m n) 0) as [E | E].
    + rewrite E. cbn [Zdigits2].
      apply Z.shiftr_eq_0_iff in E. rewrite Zdigits2_log2 by lia. lia.
    + assert (0 <= Z.shiftr m n) by (apply Z.shiftr_nonneg; lia).
      rewrite !Zdigits2_log2 by lia. rewrite Z.log2_shiftr by lia.
      assert (Z.log2 m >= n).
      { destruct (Z_lt_le_dec (Z.log2 m) n) as [L | L]; [| lia].
        exfalso. apply E. apply Z.shiftr_eq_0; lia. }
      lia.
Qed.

(** * shr *)

Lemma loc_of_shr_record_of_loc (m : Z) (l : location) :
  loc_of_shr_record (shr_record_of_loc m l) = l /\
  shr_m (shr_record_of_loc m l) = m.
Proof. destruct l as [| []]; split; reflexivity. Qed.

Lemma loc_of_frac_cases (a b : Z) :
  0 < b ->
  (a mod b = 0 /\ loc_of_frac a b = loc_Exact) \/
  (0 < a mod b /\ 2 * (a mod b) < b /\ loc_of_frac a b = loc_Inexact Lt) \/
  (0 < a mod b /\ 2 * (a mod b) = b /\ loc_of_frac a b = loc_Inexact Eq) \/
  (0 < a mod b /\ 2 * (a mod b) > b /\ loc_of_frac a b = loc_Inexact Gt).
Proof.
  intros Hb. unfold loc_of_frac.
  pose proof (Z.mod_pos_bound a b Hb) as B.
  destruct (a mod b =? 0) eqn:E.
  - left. apply Z.eqb_eq in E. tauto.
  - apply Z.eqb_neq in E. right.
    destruct (Z.compare_spec (2 * (a mod b)) b) as [C | C | C].
    + right. left. repeat split; lia.
    + left. repeat split; lia.
    + right. right. repeat split; lia.
Qed.

Ltac loc_solve :=
  match goal with
  | |- _ = (if ?t =? 0 then _ else loc_Inexact (?c1 ?= ?c2)) =>
      destruct (Z.eqb_spec t 0);
      [ first [reflexivity | lia]
      | destruct (Z.compare_spec c1 c2); first [reflexivity | lia] ]
  end.

Lemma shr_1_frac (a b : Z) (mrs : shr_record) :
  0 <= a -> 0 < b ->
  shr_m mrs = a / b -> loc_of_shr_record mrs = loc_of_frac a b ->
  shr_m (shr_1 mrs) = a / (b * 2) /\
  loc_of_shr_record (shr_1 mrs) = loc_of_frac a (b * 2).
Proof.
  intros Ha Hb Hm Hl.
  assert (a / (b * 2) = (a / b) / 2) as Ediv by (rewrite Z.div_div by lia; reflexivity).
  assert (a mod (b * 2) = a mod b + b * ((a / b) mod 2)) as Emod
      by (apply Z.rem_mul_r; lia).
  pose proof (Z.mod_pos_bound a b Hb) as Bm.
  assert (0 <= a / b) as Hq by (apply Z.div_pos; lia).
  pose proof (Z.div_mod (a / b) 2 ltac:(lia)) as D2.
  pose proof (Z.mod_pos_bound (a / b) 2 ltac:(lia)) as B2.
  rewrite Ediv. unfold loc_of_frac. rewrite Emod.
  rewrite <- Hm in *. clear Ediv Emod.
  destruct mrs as [m r s]. cbn [shr_m] in *.
  assert ((r || s = false /\ a mod b = 0) \/ (r || s = true /\ 0 < a mod b)) as Hrs.
  { destruct (loc_of_frac_cases a b Hb) as [[E L] | [[E [_ L]] | [[E [_ L]] | [E [_ L]]]]];
      rewrite L in Hl; destruct r, s; cbn in Hl; try discriminate;
      cbn; [left | right | right | right]; split; (reflexivity || lia). }
  destruct m as [| [p | p |] | p]; try lia; cbn [shr_1 shr_m loc_of_shr_record].
  - (* 0 *) change (0 / 2) with 0. change (0 mod 2) with 0.
    split; [reflexivity |].
    destruct Hrs as [[-> E] | [-> E]]; loc_solve.
  - (* xI *) assert (Z.pos p~1 / 2 = Z.pos p /\ Z.pos p~1 mod 2 = 1) as [E1 E2].
    { rewrite Pos2Z.inj_xI in *. split.
      - symmetry. apply (Z.div_unique _ 2 (Z.pos p) 1); lia.
      - symmetry. apply (Z.mod_unique _ 2 (Z.pos p) 1); lia. }
    rewrite E1, E2. split; [reflexivity |].
    destruct Hrs as [[-> E] | [-> E]]; loc_solve.
  - (* xO *) assert (Z.pos p~0 / 2 = Z.pos p /\ Z.pos p~0 mod 2 = 0) as [E1 E2].
    { rewrite Pos2Z.inj_xO in *. split.
      - symmetry. apply (Z.div_unique _ 2 (Z.pos p) 0); lia.
      - symmetry. apply (Z.mod_unique _ 2 (Z.pos p) 0); lia. }
    rewrite E1, E2. split; [reflexivity |].
    destruct Hrs as [[-> E] | [-> E]]; loc_solve.
  - (* 1 *) change (1 / 2) with 0. change (1 mod 2) with 1.
    split; [reflexivity |].
    destruct Hrs as [[-> E] | [-> E]]; loc_solve.
Qed.

Lemma pow2_xO (p : positive) : 2 ^ Z.pos p~0 = 2 ^ Z.pos p * 2 ^ Z.pos p.
Proof.
  rewrite <- Z.pow_add_r by lia. f_equal. lia.
Qed.

Lemma pow2_xI (p : positive) : 2 ^ Z.pos p~1 = 2 * (2 ^ Z.pos p * 2 ^ Z.pos p).
Proof.
  rewrite <- Z.pow_add_r by lia. rewrite <- Z.pow_succ_r by lia. f_equal. lia.
Qed.

Lemma iter_pos_shr_1_frac (p : positive) :
  forall (a b : Z) (mrs : shr_record),
    0 <= a -> 0 < b ->
    shr_m mrs = a / b -> loc_of_shr_record mrs = loc_of_frac a b ->
    shr_m (iter_pos shr_1 p mrs) = a / (b * 2 ^ Z.pos p) /\
    loc_of_shr_record (iter_pos shr_1 p mrs) = loc_of_frac a (b * 2 ^ Z.pos p).
Proof.
  induction p as [p IH | p IH |]; intros a b mrs Ha Hb Hm Hl; cbn [iter_pos].
  - destruct (shr_1_frac a b mrs Ha Hb Hm Hl) as [M1 L1].
    assert (0 < 2 ^ Z.pos p) as P by (apply Z.pow_pos_nonneg; lia).
    destruct (IH a (b * 2) _ Ha ltac:(lia) M1 L1) as [M2 L2].
    destruct (IH a (b * 2 * 2 ^ Z.pos p) _ Ha ltac:(nia) M2 L2) as [M3 L3].
    replace (b * 2 ^ Z.pos p~1) with (b * 2 * 2 ^ Z.pos p * 2 ^ Z.pos p).
    + split; assumption.
    + rewrite pow2_xI. ring.
  - assert (0 < 2 ^ Z.pos p) as P by (apply Z.pow_pos_nonneg; lia).
    destruct (IH a b _ Ha Hb Hm Hl) as [M2 L2].
    destruct (IH a (b * 2 ^ Z.pos p) _ Ha ltac:(nia) M2 L2) as [M3 L3].
    replace (b * 2 ^ Z.pos p~0) with (b * 2 ^ Z.pos p * 2 ^ Z.pos p).
    + split; assumption.
    + rewrite pow2_xO. ring.
  - change (2 ^ 1) with 2. apply shr_1_frac; assumption.
Qed.

(** [shr] by [n] places on the record of the fraction [a / b]. *)
Lemma shr_frac (a b e n : Z) :
  0 <= a -> 0 < b -> 0 <= n ->
  snd (shr (shr_record_of_loc (a / b) (loc_of_frac a b)) e n) = e + n /\
  shr_m (fst (shr (shr_record_of_loc (a / b) (loc_of_frac a b)) e n))
  = a / (b * 2 ^ n) /\
  loc_of_shr_record (fst (shr (shr_record_of_loc (a / b) (loc_of_frac a b)) e n))
  = loc_of_frac a (b * 2 ^ n).
Proof.
  intros Ha Hb Hn.
  destruct (loc_of_shr_record_of_loc (a / b) (loc_of_frac a b)) as [L M].
  destruct n as [| p | p]; try lia; cbn [shr fst snd].
  - rewrite Z.mul_1_r. repeat split; try assumption. lia.
  - destruct (iter_pos_shr_1_frac p a b _ Ha Hb M L) as [M' L'].
    repeat split; assumption.
Qed.

Lemma shr_nonpos (mrs : shr_record) (e n : Z) : n <= 0 -> shr mrs e n = (mrs, e).
Proof. destruct n; try reflexivity. lia. Qed.

(** Rounding to nearest, ties to even, on the record of [a / b]. *)
Lemma round_nearest_even_frac (a b : Z) :
  0 <= a -> 0 < b ->
  (round_nearest_even (a / b) (loc_of_frac a b) = a / b \/
   round_nearest_even (a / b) (loc_of_frac a b) = a / b + 1) /\
  2 * Z.abs (round_nearest_even (a / b) (loc_of_frac a b) * b - a) <= b.
Proof.
  intros Ha Hb. pose proof (Z.div_mod a b ltac:(lia)) as D.
  pose proof (Z.mod_pos_bound a b Hb) as B.
  destruct (loc_of_frac_cases a b Hb)
    as [[E L] | [[E [C L]] | [[E [C L]] | [E [C L]]]]];
    rewrite L; cbn [round_nearest_even].
  - split; [left; reflexivity | nia].
  - split; [left; reflexivity | nia].
  - destruct (Z.even (a / b)); (split; [tauto | nia]).
  - split; [right; reflexivity | nia].
Qed.

(** * The result of [binary_round_aux] on the record of a fraction *)

Lemma binary_round_aux_frac (sx : bool) (a b ex : Z) :
  0 <= a -> 0 < b ->
  ex <= fexp prec emax (Zdigits2 (a / b) + ex) ->
  match binary_round_aux prec emax sx (a / b) ex (loc_of_frac a b) with
  | S754_zero s =>
      s = sx /\
      2 * a <= b * 2 ^ (fexp prec emax (Zdigits2 (a / b) + ex) - ex)
  | S754_finite s m e =>
      s = sx /\ bounded prec emax m e = true /\ ex <= e /\
      fexp prec emax (Zdigits2 (a / b) + ex) <= e /\
      e <= fexp prec emax (Zdigits2 (a / b) + ex + 1) /\
      2 * Z.abs (Z.pos m * (b * 2 ^ (e - ex)) - a) <= b * 2 ^ (e - ex)
  | S754_infinity s => s = sx /\ emax <= Zdigits2 (a / b) + ex
  | S754_nan => False
  end.
Proof.
  intros Ha Hb Hex.
  set (D := Zdigits2 (a / b) + ex) in *.
  set (e1 := fexp prec emax D) in *.
  set (n1 := e1 - ex).
  assert (0 <= n1) as Hn1 by (subst n1; lia).
  assert (e1 = Z.max (D - 53) (-1074)) as He1 by reflexivity.
  assert (0 < 2 ^ n1) as P1 by (apply Z.pow_pos_nonneg; lia).
  set (B := b * 2 ^ n1). assert (0 < B) as HB by (subst B; nia).
  destruct (shr_frac a b ex n1 Ha Hb Hn1) as (S1 & M1 & L1).
  destruct (shr (shr_record_of_loc (a / b) (loc_of_frac a b)) ex n1)
    as [mrs' e'] eqn:E1.
  cbn [fst snd] in S1, M1, L1. fold B in M1, L1.
  assert (e' = e1) as -> by (subst n1; lia). clear S1.
  assert (shr_fexp prec emax (a / b) ex (loc_of_frac a b) = (mrs', e1)) as E1'
      by exact E1.
  unfold binary_round_aux. rewrite E1'.
  rewrite M1, L1.
  destruct (round_nearest_even_frac a B Ha HB) as [Hr Herr].
  set (mr := round_nearest_even (a / B) (loc_of_frac a B)) in *.
  assert (0 <= a / b) as Hq by (apply Z.div_pos; lia).
  assert (a / B = a / b / 2 ^ n1) as EB
      by (subst B; rewrite Z.div_div by lia; reflexivity).
  assert (Zdigits2 (a / B) = Z.max 0 (D - ex - n1)) as Dm1.
  { rewrite EB, Zdigits2_div_pow2 by lia. subst D. f_equal. lia. }
  assert (0 <= a / B) as Hm1 by (apply Z.div_pos; lia).
  assert (a / B < 2 ^ 53) as Lm1.
  { apply Zdigits2_le_iff; lia. }
  assert (0 <= mr <= 2 ^ 53) as Bmr by lia.
  destruct (Z.eq_dec mr 0) as [Z0 | NZ0].
  - (* rounded to zero *)
    rewrite Z0. unfold shr_fexp. cbn [Zdigits2 shr_record_of_loc].
    rewrite shr_nonpos by (rewrite fexp_eq; lia).
    cbn [shr_m]. split; [reflexivity |].
    rewrite Z0 in Herr. fold e1. fold n1. fold B. lia.
  - destruct (Z.eq_dec mr (2 ^ 53)) as [Zp | NZp].
    + (* the mantissa overflows to 2^53 *)
      assert (a / B = 2 ^ 53 - 1) as Em1 by lia.
      assert (D - ex - n1 = 53) as DD.
      { rewrite Em1 in Dm1. change (Zdigits2 (2 ^ 53 - 1)) with 53 in Dm1. lia. }
      rewrite Zp. unfold shr_fexp.
      change (Zdigits2 (2 ^ 53)) with 54.
      assert (fexp prec emax (54 + e1) - e1 = 1) as -> by (rewrite fexp_eq; lia).
      cbn [shr shr_record_of_loc iter_pos shr_1 shr_m].
      change (2 ^ 53) with 9007199254740992. cbn [shr_1 shr_m].
      destruct (e1 + 1 <=? emax - prec) eqn:Ee.
      * apply Z.leb_le in Ee. change (emax - prec) with 971 in Ee.
        split; [reflexivity |]. split; [| split; [lia | split; [| split]]].
        -- unfold bounded, canonical_mantissa.
           change (Z.pos (digits2_pos 4503599627370496)) with 53.
           rewrite fexp_eq. change (emax - prec) with 971.
           apply andb_true_intro. split; [apply Z.eqb_eq | apply Z.leb_le]; lia.
        -- fold D. fold e1. lia.
        -- fold D. rewrite fexp_eq. lia.
        -- replace (e1 + 1 - ex) with (n1 + 1) by (subst n1; lia).
           rewrite Z.pow_add_r by lia. change (2 ^ 1) with 2.
           fold B in Herr |- *. rewrite Zp in Herr.
           change (2 ^ 53) with 9007199254740992 in Herr. lia.
      * apply Z.leb_gt in Ee. change (emax - prec) with 971 in Ee.
        split; [reflexivity |]. fold D. change emax with 1024. lia.
    + (* the mantissa fits *)
      assert (0 < mr < 2 ^ 53) as Rmr by lia.
      assert (Zdigits2 mr <= 53) as Dmr by (apply Zdigits2_le_iff; lia).
      unfold shr_fexp.
      rewrite shr_nonpos by (rewrite fexp_eq; lia).
      cbn [shr_record_of_loc shr_m].
      destruct mr as [| m | m] eqn:Emr; try lia.
      destruct (e1 <=? emax - prec) eqn:Ee.
      * apply Z.leb_le in Ee. change (emax - prec) with 971 in Ee.
        split; [reflexivity |]. split; [| split; [lia | split; [lia | split]]].
        -- unfold bounded, canonical_mantissa.
           change (Z.pos (digits2_pos m)) with (Zdigits2 (Z.pos m)).
           rewrite fexp_eq. change (emax - prec) with 971.
           apply andb_true_intro. split; [apply Z.eqb_eq | apply Z.leb_le; lia].
           destruct (Z.eq_dec e1 (-1074)) as [Em | Em]; [lia |].
           assert (Zdigits2 (a / B) = 53) as D53 by lia.
           assert (53 <= Zdigits2 (Z.pos m)); [| lia].
           rewrite <- D53. apply Zdigits2_mono. lia.
        -- fold D. rewrite fexp_eq. lia.
        -- fold n1. fold B. exact Herr.
      * apply Z.leb_gt in Ee. change (emax - prec) with 971 in Ee.
        split; [reflexivity |]. fold D. change emax with 1024. lia.
Qed.

(** * Division and multiplication of finite numbers *)

Lemma binary_round_aux_rounds_to (sx : bool) (a b ex : Z) :
  0 <= a -> 0 < b ->
  ex <= fexp prec emax (Zdigits2 (a / b) + ex) ->
  rounds_to sx a b ex
    (binary_round_aux prec emax sx (a / b) ex (loc_of_frac a b)).
Proof. apply binary_round_aux_frac. Qed.

Lemma new_location_frac (a b : Z) :
  0 < b -> new_location b (a mod b) = loc_of_frac a b.
Proof.
  intros Hb. pose proof (Z.mod_pos_bound a b Hb) as Hr.
  unfold new_location, new_location_even, new_location_odd, loc_of_frac.
  destruct (Z.even b) eqn:Eb.
  - reflexivity.
  - destruct (a mod b =? 0); [reflexivity |]. f_equal.
    assert (Z.odd b = true) as Ob by (rewrite <- Z.negb_even, Eb; reflexivity).
    apply Z.odd_spec in Ob. destruct Ob as [c Ec].
    destruct (Z.compare_spec (2 * (a mod b) + 1) b);
      destruct (Z.compare_spec (2 * (a mod b)) b); first [reflexivity | lia].
Qed.

Lemma div_eucl_div_mod (a b : Z) : Z.div_eucl a b = (a / b, a mod b).
Proof.
  unfold Z.div, Z.modulo. destruct (Z.div_eucl a b). reflexivity.
Qed.

Lemma div_shift_nonneg (m1 e1 m2 e2 : Z) : 0 <= div_shift m1 e1 m2 e2.
Proof. unfold div_shift, div_exponent. lia. Qed.

Lemma SFdiv_core_frac (m1 m2 : positive) (e1 e2 : Z) :
  SFdiv_core_binary prec emax (Z.pos m1) e1 (Z.pos m2) e2
  = ((Z.pos m1 * 2 ^ div_shift (Z.pos m1) e1 (Z.pos m2) e2) / Z.pos m2,
     div_exponent (Z.pos m1) e1 (Z.pos m2) e2,
     loc_of_frac (Z.pos m1 * 2 ^ div_shift (Z.pos m1) e1 (Z.pos m2) e2)
       (Z.pos m2)).
Proof.
  unfold SFdiv_core_binary.
  fold (div_exponent (Z.pos m1) e1 (Z.pos m2) e2).
  fold (div_shift (Z.pos m1) e1 (Z.pos m2) e2).
  pose proof (div_shift_nonneg (Z.pos m1) e1 (Z.pos m2) e2) as Hs.
  set (s := div_shift (Z.pos m1) e1 (Z.pos m2) e2) in *.
  assert (match s with
          | 0 => Z.pos m1
          | Z.pos _ => Z.shiftl (Z.pos m1) s
          | Z.neg _ => 0
          end = Z.pos m1 * 2 ^ s) as ->.
  { destruct s as [| p | p]; [cbn; lia | | lia].
    rewrite Z.shiftl_mul_pow2 by lia. reflexivity. }
  rewrite div_eucl_div_mod, new_location_frac by lia. reflexivity.
Qed.

(** The quotient has enough digits for its exponent. *)
Lemma div_exponent_fits (m1 m2 : positive) (e1 e2 : Z) :
  let e' := div_exponent (Z.pos m1) e1 (Z.pos m2) e2 in
  let s := div_shift (Z.pos m1) e1 (Z.pos m2) e2 in
  e' <= fexp prec emax (Zdigits2 (Z.pos m1 * 2 ^ s / Z.pos m2) + e').
Proof.
  intros e' s.
  pose proof (div_shift_nonneg (Z.pos m1) e1 (Z.pos m2) e2) as Hs. fold s in Hs.
  assert (e' = Z.min (fexp prec emax (Zdigits2 (Z.pos m1) + e1
                                       - (Zdigits2 (Z.pos m2) + e2))) (e1 - e2))
    as He' by reflexivity.
  assert (s = e1 - e2 - e') as Es by reflexivity.
  rewrite fexp_eq in He'. rewrite fexp_eq.
  set (q := Z.pos m1 * 2 ^ s / Z.pos m2).
  pose proof (Zdigits2_bounds (Z.pos m1) ltac:(lia)) as [L1 U1].
  pose proof (Zdigits2_bounds (Z.pos m2) ltac:(lia)) as [L2 U2].
  pose proof (Zdigits2_pos (Z.pos m1) ltac:(lia)) as P1.
  pose proof (Zdigits2_pos (Z.pos m2) ltac:(lia)) as P2.
  set (d1 := Zdigits2 (Z.pos m1)) in *. set (d2 := Zdigits2 (Z.pos m2)) in *.
  destruct (Z_le_gt_dec e' (-1074)) as [Le | Gt]; [lia |].
  (* e' = d1 + e1 - d2 - e2 - 53 or e' = e1 - e2; in both cases the
     quotient has at least d1 + s - d2 digits, at least 53 *)
  assert (0 <= d1 + s - d2 - 1) as Hd by lia.
  assert (2 ^ (d1 + s - d2 - 1) <= q) as Lq.
  { subst q. apply Z.div_le_lower_bound; [lia |].
    assert (0 < 2 ^ (d1 + s - d2 - 1)) by (apply Z.pow_pos_nonneg; lia).
    assert (0 < 2 ^ s) by (apply Z.pow_pos_nonneg; lia).
    assert (2 ^ (d1 + s - d2 - 1) * 2 ^ d2 = 2 ^ (d1 - 1) * 2 ^ s) as E.
    { rewrite <- !Z.pow_add_r by lia. f_equal. lia. }
    nia. }
  assert (d1 + s - d2 <= Zdigits2 q).
  { apply Zdigits2_ge_iff; [| exact Lq].
    assert (0 < 2 ^ (d1 + s - d2 - 1)) by (apply Z.pow_pos_nonneg; lia). lia. }
  lia.
Qed.

(** The quotient has at most one digit more than the difference says. *)
Lemma div_quotient_digits (m1 m2 : positive) (e1 e2 : Z) :
  let e' := div_exponent (Z.pos m1) e1 (Z.pos m2) e2 in
  let s := div_shift (Z.pos m1) e1 (Z.pos m2) e2 in
  Zdigits2 (Z.pos m1 * 2 ^ s / Z.pos m2) + e'
  <= Z.max (Zdigits2 (Z.pos m1) + e1 - (Zdigits2 (Z.pos m2) + e2) + 1) (-1074).
Proof.
  intros e' s.
  pose proof (div_shift_nonneg (Z.pos m1) e1 (Z.pos m2) e2) as Hs. fold s in Hs.
  assert (s = e1 - e2 - e') as Es by reflexivity.
  assert (e' = Z.min (fexp prec emax (Zdigits2 (Z.pos m1) + e1
                                       - (Zdigits2 (Z.pos m2) + e2))) (e1 - e2))
    as He' by reflexivity.
  rewrite fexp_eq in He'.
  set (q := Z.pos m1 * 2 ^ s / Z.pos m2).
  pose proof (Zdigits2_bounds (Z.pos m1) ltac:(lia)) as [L1 U1].
  pose proof (Zdigits2_bounds (Z.pos m2) ltac:(lia)) as [L2 U2].
  pose proof (Zdigits2_pos (Z.pos m1) ltac:(lia)) as P1.
  pose proof (Zdigits2_pos (Z.pos m2) ltac:(lia)) as P2.
  set (d1 := Zdigits2 (Z.pos m1)) in *. set (d2 := Zdigits2 (Z.pos m2)) in *.
  assert (0 <= q) as Hq by (apply Z.div_pos; [apply Z.mul_nonneg_nonneg |]; lia).
  destruct (Z_le_gt_dec (d1 + s - d2 + 1) 0) as [Neg | Pos].
  - (* the quotient is zero *)
    assert (q = 0) as ->.
    { subst q. apply Z.div_small. split; [apply Z.mul_nonneg_nonneg; lia |].
      assert (2 ^ (d1 + s) <= 2 ^ (d2 - 1)) by (apply Z.pow_le_mono_r; lia).
      assert (0 < 2 ^ s) by (apply Z.pow_pos_nonneg; lia).
      rewrite (Z.pow_add_r 2 d1 s) in H by lia. nia. }
    cbn [Zdigits2]. lia.
  - assert (Zdigits2 q <= d1 + s - d2 + 1); [| lia].
    apply Zdigits2_le_iff; [exact Hq | lia |].
    subst q. apply Z.div_lt_upper_bound; [lia |].
    assert (0 < 2 ^ s) by (apply Z.pow_pos_nonneg; lia).
    assert (2 ^ (d2 - 1) * 2 ^ (d1 + s - d2 + 1) = 2 ^ d1 * 2 ^ s) as E.
    { rewrite <- !Z.pow_add_r by lia. f_equal. lia. }
    assert (0 < 2 ^ (d1 + s - d2 + 1)) by (apply Z.pow_pos_nonneg; lia).
    nia.
Qed.

Lemma SFdiv_finite (sx sy : bool) (mx my : positive) (ex ey : Z) :
  rounds_to (xorb sx sy)
    (Z.pos mx * 2 ^ div_shift (Z.pos mx) ex (Z.pos my) ey) (Z.pos my)
    (div_exponent (Z.pos mx) ex (Z.pos my) ey)
    (SFdiv prec emax (S754_finite sx mx ex) (S754_finite sy my ey)).
Proof.
  unfold SFdiv. rewrite SFdiv_core_frac.
  pose proof (div_shift_nonneg (Z.pos mx) ex (Z.pos my) ey) as Hs.
  apply binary_round_aux_rounds_to.
  - apply Z.mul_nonneg_nonneg; [lia | apply Z.pow_nonneg; lia].
  - lia.
  - apply div_exponent_fits.
Qed.


(** A canonical mantissa leaves no room below its exponent. *)
Lemma bounded_exponent (m : positive) (e : Z) :
  bounded prec emax m e = true ->
  e = Z.max (Zdigits2 (Z.pos m) + e - 53) (-1074) /\ e <= 971.
Proof.
  unfold bounded, canonical_mantissa. intros H.
  apply andb_prop in H. destruct H as [H1 H2].
  apply Z.eqb_eq in H1. apply Z.leb_le in H2.
  rewrite fexp_eq in H1. change (emax - prec) with 971 in H2.
  change (Z.pos (digits2_pos m)) with (Zdigits2 (Z.pos m)) in H1. lia.
Qed.





(** * Primitive floats and their specification *)

Lemma rounds_to_valid (sx : bool) (a b ex : Z) (r : spec_float) :
  rounds_to sx a b ex r -> valid_binary r = true.
Proof.
  destruct r as [s | s | | s m e]; cbn; intros H; try reflexivity.
  destruct H as (_ & B & _). exact B.
Qed.

Lemma is_infinity_SF2Prim (r : spec_float) :
  valid_binary r = true ->
  is_infinity (SF2Prim r)
  = match r with S754_infinity _ => true | _ => false end.
Proof.
  intros V. unfold is_infinity.
  rewrite eqb_spec, abs_spec, (Prim2SF_SF2Prim r V).
  change (Prim2SF infinity) with (S754_infinity false).
  destruct r as [s | s | | s m e]; reflexivity.
Qed.

Lemma SF_of_ratio_SFdiv (n : Z) (d : positive) :
  n <> 0 ->
  pyfloat.SF_of_ratio n d
  = SFdiv prec emax (S754_finite (n <? 0) (Z.to_pos (Z.abs n)) 0)
      (S754_finite false d 0).
Proof.
  intros Hn. destruct n as [| p | p]; [contradiction | |]; reflexivity.
Qed.

Lemma SF_of_ratio_rounds (n : Z) (d : positive) :
  n <> 0 ->
  rounds_to (n <? 0)
    (Z.abs n * 2 ^ div_shift (Z.abs n) 0 (Z.pos d) 0) (Z.pos d)
    (div_exponent (Z.abs n) 0 (Z.pos d) 0)
    (pyfloat.SF_of_ratio n d).
Proof.
  intros Hn. rewrite SF_of_ratio_SFdiv by exact Hn.
  pose proof (SFdiv_finite (n <? 0) false (Z.to_pos (Z.abs n)) d 0 0) as R.
  rewrite Z2Pos.id in R by lia. rewrite xorb_false_r in R. exact R.
Qed.

Lemma SF_of_ratio_valid (n : Z) (d : positive) :
  valid_binary (pyfloat.SF_of_ratio n d) = true.
Proof.
  destruct (Z.eq_dec n 0) as [-> | Hn]; [reflexivity |].
  exact (rounds_to_valid _ _ _ _ _ (SF_of_ratio_rounds n d Hn)).
Qed.

(** Python's [n / d] on integers returns unless the quotient is out of
    the binary64 range. *)
Lemma int_truediv_total (n : Z) (d : positive) :
  Z.abs n < 2 ^ 1022 * Z.pos d ->
  pyfloat.int_truediv n d = Ok (SF2Prim (pyfloat.SF_of_ratio n d)) /\
  Prim2SF (SF2Prim (pyfloat.SF_of_ratio n d)) = pyfloat.SF_of_ratio n d.
Proof.
  intros Hn. pose proof (SF_of_ratio_valid n d) as V.
  split; [| exact (Prim2SF_SF2Prim _ V)].
  unfold pyfloat.int_truediv. rewrite (is_infinity_SF2Prim _ V).
  destruct (Z.eq_dec n 0) as [-> | N0]; [reflexivity |].
  pose proof (SF_of_ratio_rounds n d N0) as R.
  destruct (pyfloat.SF_of_ratio n d) as [s | s | | s m e]; try reflexivity.
  exfalso. destruct R as [_ R].
  assert (Z.abs n = Z.pos (Z.to_pos (Z.abs n))) as En by (rewrite Z2Pos.id; lia).
  rewrite En in R.
  pose proof (div_quotient_digits (Z.to_pos (Z.abs n)) d 0 0) as Q.
  cbv zeta in Q. rewrite <- En in Q, R.
  change emax with 1024 in R.
  pose proof (Zdigits2_bounds (Z.abs n) ltac:(lia)) as [L1 U1].
  pose proof (Zdigits2_bounds (Z.pos d) ltac:(lia)) as [L2 U2].
  pose proof (Zdigits2_pos (Z.abs n) ltac:(lia)) as P1.
  pose proof (Zdigits2_pos (Z.pos d) ltac:(lia)) as P2.
  set (d1 := Zdigits2 (Z.abs n)) in *. set (d2 := Zdigits2 (Z.pos d)) in *.
  assert (d2 + 1022 <= d1 - 1) as Hd by lia.
  assert (2 ^ (d2 + 1022) <= 2 ^ (d1 - 1)) as Hp by (apply Z.pow_le_mono_r; lia).
  rewrite Z.pow_add_r in Hp by lia.
  assert (0 < 2 ^ 1022) by (apply Z.pow_pos_nonneg; lia).
  nia.
Qed.

(** * [mean] and [stdev] return on finite data of moderate size *)

Lemma bounded_mantissa (m : positive) (e : Z) :
  bounded prec emax m e = true -> Z.pos m < 2 ^ 53.
Proof.
  intros B. apply bounded_exponent in B.
  apply Zdigits2_le_iff; lia.
Qed.

Lemma moderate_ratio_below (x : float) :
  moderate x = true -> ratio_below (2 ^ 1000) x.
Proof.
  unfold moderate, ratio_below, pyfloat.as_integer_ratio.
  pose proof (Prim2SF_valid x) as V.
  destruct (Prim2SF x) as [s | s | | s m e]; try discriminate; intros H.
  - exists 0%Q. split; [reflexivity |]. unfold Qle. cbn [Qabs Qnum Qden inject_Z].
    assert (0 < 2 ^ 1000) by (apply Z.pow_pos_nonneg; lia). lia.
  - apply Z.leb_le in H. cbn [valid_binary] in V.
    apply bounded_mantissa in V.
    assert (2 ^ 53 * 2 ^ 947 = 2 ^ 1000) as E
        by (rewrite <- Z.pow_add_r by lia; reflexivity).
    assert (0 < 2 ^ 53) by (apply Z.pow_pos_nonneg; lia).
    assert (0 < 2 ^ 947) by (apply Z.pow_pos_nonneg; lia).
    cbn [pyfloat.Q_of_SF]. eexists. split; [reflexivity |].
    set (z := if s then Z.neg m else Z.pos m).
    assert (Z.abs z = Z.pos m) as Ez by (subst z; destruct s; reflexivity).
    destruct e as [| p | p]; unfold Qle, Qabs, inject_Z; cbn [Qnum Qden].
    + rewrite Ez. nia.
    + rewrite Z.abs_mul, Ez, (Z.abs_eq (2 ^ Z.pos p))
        by (apply Z.pow_nonneg; lia).
      assert (2 ^ Z.pos p <= 2 ^ 947) by (apply Z.pow_le_mono_r; lia).
      assert (0 < 2 ^ Z.pos p) by (apply Z.pow_pos_nonneg; lia).
      nia.
    + rewrite Ez. nia.
Qed.

Lemma inject_Z_of_nat_succ (n : nat) :
  (inject_Z (Z.of_nat (S n)) == inject_Z (Z.of_nat n) + 1)%Q.
Proof. rewrite Nat2Z.inj_succ. unfold Z.succ. rewrite inject_Z_plus. reflexivity. Qed.

Lemma sum_exact (b : Z) (data : list float) (s0 : Q) :
  Forall (ratio_below b) data ->
  exists s,
    fold_left statistics.add_datum data (statistics.Exact s0) = statistics.Exact s /\
    (Qabs s <= Qabs s0 + inject_Z (Z.of_nat (length data)) * inject_Z b)%Q.
Proof.
  intros H. revert s0. induction H as [| x data [q [Hq Bq]] _ IH]; intros s0.
  - exists s0. split; [reflexivity |]. cbn [length Z.of_nat].
    change (inject_Z 0) with 0%Q. lra.
  - cbn [fold_left]. unfold statistics.add_datum at 2. rewrite Hq.
    destruct (IH (s0 + q)%Q) as [s [E Bs]]. exists s. split; [exact E |].
    pose proof (Qabs_triangle s0 q) as T.
    cbn [length]. rewrite inject_Z_of_nat_succ. lra.
Qed.

Lemma square_below (q B : Q) : (Qabs q <= B)%Q -> (q * q <= B * B)%Q.
Proof.
  intros H. apply Qabs_Qle_condition in H. destruct H as [L U].
  assert (0 <= (B - q) * (B + q))%Q as P by (apply Qmult_le_0_compat; lra).
  lra.
Qed.

Lemma sum_squares_fold (b : Z) (data : list float) (a0 : Q) :
  Forall (ratio_below b) data ->
  (0 <= a0)%Q ->
  let r := fold_left
             (fun acc x => match pyfloat.as_integer_ratio x with
                           | Some q => acc + q * q
                           | None => acc
                           end)%Q data a0 in
  (0 <= r)%Q /\
  (r <= a0 + inject_Z (Z.of_nat (length data)) * (inject_Z b * inject_Z b))%Q.
Proof.
  intros H. revert a0.
  induction H as [| x data [q [Hq Bq]] _ IH]; intros a0 Ha; cbn [fold_left].
  - cbn [length Z.of_nat]. change (inject_Z 0) with 0%Q. split; lra.
  - rewrite Hq.
    pose proof (square_below q _ Bq) as S.
    assert (0 <= q * q)%Q as P.
    { destruct (Qlt_le_dec q 0) as [N | N].
      - setoid_replace (q * q)%Q with ((- q) * (- q))%Q by ring.
        apply Qmult_le_0_compat; lra.
      - apply Qmult_le_0_compat; lra. }
    destruct (IH (a0 + q * q)%Q ltac:(lra)) as [L U].
    split; [exact L |].
    cbn [length]. rewrite inject_Z_of_nat_succ. lra.
Qed.

Lemma Qabs_below_Z (q : Q) (b : Z) :
  (Qabs q <= inject_Z b)%Q -> Z.abs (Qnum q) <= b * Z.pos (Qden q).
Proof.
  destruct q as [n d]. unfold Qle, Qabs, inject_Z. cbn [Qnum Qden]. lia.
Qed.

Lemma inject_Z_pos (n : Z) : 0 < n -> (0 < inject_Z n)%Q.
Proof. intros H. unfold Qlt, inject_Z. cbn [Qnum Qden]. lia. Qed.

Lemma sum_moderate (data : list float) :
  Forall (fun x => moderate x = true) data ->
  exists s,
    statistics._sum data = statistics.Exact s /\
    (- (inject_Z (statistics.count data) * inject_Z (2 ^ 1000)) <= s)%Q /\
    (s <= inject_Z (statistics.count data) * inject_Z (2 ^ 1000))%Q.
Proof.
  intros H.
  assert (Forall (ratio_below (2 ^ 1000)) data) as H'.
  { eapply Forall_impl; [| exact H]. exact moderate_ratio_below. }
  destruct (sum_exact _ data 0%Q H') as [s [E B]].
  exists s. split; [exact E |].
  change (Qabs 0) with 0%Q in B. rewrite Qplus_0_l in B.
  apply Qabs_Qle_condition in B. exact B.
Qed.

(** [mean] returns on at least one finite datum of moderate size. *)
Lemma mean_total (data : list float) :
  (1 <= length data)%nat ->
  Forall (fun x => moderate x = true) data ->
  exists m, statistics.mean data = Ok m.
Proof.
  intros L H. unfold statistics.mean.
  assert (1 <= statistics.count data) as Hn by (unfold statistics.count; lia).
  destruct (Z.ltb_spec (statistics.count data) 1) as [C | _]; [lia |].
  destruct (sum_moderate data H) as [s [-> [Lo Hi]]].
  unfold pyfloat.of_Fraction.
  set (r := Qred (s / inject_Z (statistics.count data))).
  assert (Qabs r <= inject_Z (2 ^ 1000))%Q as Br.
  { subst r. rewrite Qred_correct.
    pose proof (inject_Z_pos (statistics.count data) ltac:(lia)) as P.
    apply Qabs_Qle_condition. split.
    - apply Qle_shift_div_l; [exact P |]. lra.
    - apply Qle_shift_div_r; [exact P |]. lra. }
  apply Qabs_below_Z in Br.
  destruct (int_truediv_total (Qnum r) (Qden r)) as [E _].
  - assert (2 ^ 1000 < 2 ^ 1022) by (apply Z.pow_lt_mono_r; lia). nia.
  - eexists. exact E.
Qed.

Lemma mss_bound (N B s q : Q) :
  (2 <= N)%Q -> (0 <= B)%Q ->
  (- (N * B) <= s)%Q -> (s <= N * B)%Q ->
  (0 <= q)%Q -> (q <= N * (B * B))%Q ->
  (Qabs ((N * q - s * s) / N / (N - 1)) <= 2 * (B * B))%Q.
Proof.
  intros HN HB Ls Us Lq Uq.
  assert (0 <= (N * B - s) * (N * B + s))%Q as P1
      by (apply Qmult_le_0_compat; lra).
  assert (0 <= s * s)%Q as P2.
  { destruct (Qlt_le_dec s 0) as [Ng | Ng].
    - setoid_replace (s * s)%Q with ((- s) * (- s))%Q by ring.
      apply Qmult_le_0_compat; lra.
    - apply Qmult_le_0_compat; lra. }
  assert (0 <= N * q)%Q as P3 by (apply Qmult_le_0_compat; lra).
  assert (0 <= N * (N * (B * B) - q))%Q as P4
      by (apply Qmult_le_0_compat; lra).
  assert (0 <= B * B)%Q as P5 by (apply Qmult_le_0_compat; lra).
  assert (0 <= B * B * N)%Q as P6 by (apply Qmult_le_0_compat; lra).
  assert (0 <= B * B * N * (N - 2))%Q as P7
      by (apply Qmult_le_0_compat; lra).
  apply Qabs_Qle_condition. split.
  - apply Qle_shift_div_l; [lra |]. apply Qle_shift_div_l; [lra |]. lra.
  - apply Qle_shift_div_r; [lra |]. apply Qle_shift_div_r; [lra |]. lra.
Qed.

Lemma bit_length_digits (z : Z) : pyint.bit_length z = Zdigits2 (Z.abs z).
Proof.
  unfold pyint.bit_length. destruct z as [| p | p].
  - reflexivity.
  - rewrite Zdigits2_log2 by (cbn; lia). reflexivity.
  - rewrite Zdigits2_log2 by (cbn; lia). reflexivity.
Qed.

Lemma abs_below_pow_digits (n : Z) : Z.abs n < 2 ^ Zdigits2 (Z.abs n).
Proof.
  destruct (Z.eq_dec n 0) as [-> | N]; [reflexivity |].
  apply Zdigits2_bounds. lia.
Qed.

Lemma rto_bound (n m : Z) :
  0 < m -> n < 2 ^ 112 * m ->
  0 <= statistics._integer_sqrt_of_frac_rto n m <= 2 ^ 56.
Proof.
  intros Hm Hn. unfold statistics._integer_sqrt_of_frac_rto.
  set (a := Z.sqrt (n / m)).
  assert (n / m < 2 ^ 112) as Hq by (apply Z.div_lt_upper_bound; lia).
  assert (0 <= a) as A0 by apply Z.sqrt_nonneg.
  assert (a < 2 ^ 56) as A1.
  { subst a. destruct (Z_lt_le_dec (n / m) 0) as [Ng | Ps].
    - rewrite Z.sqrt_neg by exact Ng. reflexivity.
    - apply Z.sqrt_lt_square; [exact Ps | discriminate |].
      exact Hq. }
  set (c := if a * a * m =? n then 0 else 1).
  assert (0 <= c <= 1) as Hc by (subst c; destruct (a * a * m =? n); lia).
  pose proof (Z.add_lor_land a c) as E.
  assert (0 <= Z.land a c) by (apply Z.land_nonneg; lia).
  assert (0 <= Z.lor a c) by (apply Z.lor_nonneg; lia).
  lia.
Qed.

Lemma float_sqrt_of_frac_total (n : Z) (m : positive) :
  Z.abs n <= 2 ^ 2002 * Z.pos m ->
  exists f, statistics._float_sqrt_of_frac n (Z.pos m) = Ok f.
Proof.
  intros Hn. unfold statistics._float_sqrt_of_frac, statistics._sqrt_bit_width.
  rewrite !bit_length_digits. change (Z.abs (Z.pos m)) with (Z.pos m).
  pose proof (abs_below_pow_digits n) as Un.
  pose proof (Zdigits2_bounds (Z.pos m) ltac:(lia)) as [Lm Um].
  pose proof (Zdigits2_pos (Z.pos m) ltac:(lia)) as Pm.
  pose proof (Zdigits2_nonneg (Z.abs n)) as Pn.
  set (bn := Zdigits2 (Z.abs n)) in *. set (bm := Zdigits2 (Z.pos m)) in *.
  change (2 * 53 + 3) with 109.
  set (q := (bn - bm - 109) / 2).
  assert (2 * q <= bn - bm - 109 < 2 * q + 2) as Hq.
  { pose proof (Z.mul_div_le (bn - bm - 109) 2 ltac:(lia)).
    pose proof (Z.mul_succ_div_gt (bn - bm - 109) 2 ltac:(lia)).
    fold q in H, H0. clearbody q. clear - H H0. lia. }
  assert (bn <= 2002 + bm) as Hb.
  { destruct (Z.eq_dec bn 0) as [-> | NZ]; [lia |].
    assert (n <> 0) as N0 by (intros ->; apply NZ; reflexivity).
    pose proof (Zdigits2_bounds (Z.abs n) ltac:(lia)) as [Ln _]. fold bn in Ln.
    assert (2 ^ (bn - 1) < 2 ^ (2002 + bm)) as Hp.
    { rewrite Z.pow_add_r by lia.
      assert (0 < 2 ^ 2002) by (apply Z.pow_pos_nonneg; lia). nia. }
    apply Z.pow_lt_mono_r_iff in Hp; lia. }
  assert (2 ^ 56 < 2 ^ 1022) as K by (apply Z.pow_lt_mono_r; lia).
  assert (0 < 2 ^ 112) as K112 by (apply Z.pow_pos_nonneg; lia).
  destruct (Z.leb_spec 0 q) as [Q0 | Q0].
  - (* the root is scaled up *)
    rewrite !Z.shiftl_mul_pow2 by lia.
    assert (0 < 2 ^ (2 * q)) as P2q by (apply Z.pow_pos_nonneg; lia).
    assert (0 < 2 ^ q) as Pq by (apply Z.pow_pos_nonneg; lia).
    destruct (rto_bound n (Z.pos m * 2 ^ (2 * q))) as [R0 R1]; [nia | |].
    { assert (2 ^ bn <= 2 ^ (112 + (bm - 1) + 2 * q)) as Hp
          by (apply Z.pow_le_mono_r; lia).
      rewrite !Z.pow_add_r in Hp by lia. nia. }
    set (a := statistics._integer_sqrt_of_frac_rto n (Z.pos m * 2 ^ (2 * q))) in *.
    destruct (int_truediv_total (a * 2 ^ q) 1) as [E _].
    + assert (2 ^ 56 * 2 ^ q <= 2 ^ 1021) as Hp.
      { rewrite <- Z.pow_add_r by lia. apply Z.pow_le_mono_r; lia. }
      assert (2 ^ 1021 < 2 ^ 1022) by (apply Z.pow_lt_mono_r; lia).
      rewrite Z.abs_eq by nia. nia.
    + eexists. exact E.
  - (* the radicand is scaled up *)
    rewrite !Z.shiftl_mul_pow2 by lia.
    assert (0 < 2 ^ (- 2 * q)) as P2q by (apply Z.pow_pos_nonneg; lia).
    assert (0 < 2 ^ (- q)) as Pq by (apply Z.pow_pos_nonneg; lia).
    destruct (rto_bound (n * 2 ^ (- 2 * q)) (Z.pos m)) as [R0 R1]; [lia | |].
    { assert (2 ^ bn * 2 ^ (- 2 * q) <= 2 ^ (112 + (bm - 1))) as Hp.
      { rewrite <- Z.pow_add_r by lia. apply Z.pow_le_mono_r; lia. }
      rewrite Z.pow_add_r in Hp by lia. nia. }
    set (a := statistics._integer_sqrt_of_frac_rto (n * 2 ^ (- 2 * q)) (Z.pos m)) in *.
    destruct (int_truediv_total a (Z.to_pos (1 * 2 ^ (- q)))) as [E _].
    + rewrite Z2Pos.id by lia. rewrite Z.abs_eq by lia. nia.
    + eexists. exact E.
Qed.

(** [stdev] returns on at least two finite data of moderate size. *)
Lemma stdev_total (data : list float) :
  (2 <= length data)%nat ->
  Forall (fun x => moderate x = true) data ->
  exists s, statistics.stdev data = Ok s.
Proof.
  intros L H. unfold statistics.stdev, statistics._ss.
  assert (2 <= statistics.count data) as Hn by (unfold statistics.count; lia).
  destruct (Z.ltb_spec (statistics.count data) 2) as [C | _]; [lia |].
  destruct (Z.eqb_spec (statistics.count data) 0) as [C | _]; [lia |].
  destruct (sum_moderate data H) as [s [-> [Lo Hi]]].
  assert (Forall (ratio_below (2 ^ 1000)) data) as H'.
  { eapply Forall_impl; [| exact H]. exact moderate_ratio_below. }
  destruct (sum_squares_fold _ data 0%Q H' ltac:(lra)) as [Lq Uq].
  fold (statistics.sum_squares data) in Lq, Uq. rewrite Qplus_0_l in Uq.
  fold (statistics.count data) in Uq.
  cbv zeta.
  set (mss := Qred _).
  assert (Qabs mss <= inject_Z (2 * (2 ^ 1000 * 2 ^ 1000)))%Q as Bm.
  { subst mss. rewrite Qred_correct.
    rewrite !inject_Z_mult.
    replace (inject_Z (statistics.count data - 1))
      with (inject_Z (statistics.count data) - 1)%Q
      by (unfold Z.sub; rewrite inject_Z_plus; reflexivity).
    apply mss_bound; try assumption.
    - rewrite Zle_Qle in Hn. exact Hn.
    - change 0%Q with (inject_Z 0). rewrite <- Zle_Qle.
      apply Z.pow_nonneg. lia. }
  apply Qabs_below_Z in Bm.
  apply float_sqrt_of_frac_total.
  eapply Z.le_trans; [exact Bm |].
  apply Z.mul_le_mono_nonneg_r; [lia |].
  replace (2 * (2 ^ 1000 * 2 ^ 1000)) with (2 ^ 2001)
    by (vm_compute; reflexivity).
  apply Z.pow_le_mono_r; lia.
Qed.

(** * The relative error of one division or multiplication *)













(** * The reported average and throughput *)








(** * The mean of a sample *)






(** The floats the script reports satisfy the identity only up to
    rounding: on the example their product is one unit above 1e9. *)
Remark float_average_times_throughput_example :
  exists r, summarize example_totals 1000000 = Ok r /\
            (avg_ns r * ops_per_sec r)%float = 1000000000.0000001%float /\
            (avg_ns r * ops_per_sec r =? 1e9)%float = false.
Proof.
  eexists. split; [apply summarize_example |]. split; reflexivity.
Qed.

(** ** Footprints: what a successful computation does to the counters *)

Lemma same_sources_refl (w : world) : same_sources w w.
Proof. unfold same_sources. repeat split; reflexivity. Qed.

Lemma same_sources_trans (w1 w2 w3 : world) :
  same_sources w1 w2 -> same_sources w2 w3 -> same_sources w1 w3.
Proof.
  unfold same_sources.
  intros (A1 & A2 & A3 & A4 & A5 & A6) (B1 & B2 & B3 & B4 & B5 & B6).
  repeat split; congruence.
Qed.

Lemma f_inv_add (a b : footprint) (g : generator) :
  f_inv (fp_add a b) g = f_inv a g + f_inv b g.
Proof. destruct g; reflexivity. Qed.

Lemma f_inv_scale (n : Z) (a : footprint) (g : generator) :
  f_inv (fp_scale n a) g = n * f_inv a g.
Proof. destruct g; reflexivity. Qed.

Lemma advanced_zero (w : world) : advanced fp_zero w w.
Proof.
  unfold advanced. split; [apply same_sources_refl |].
  cbn. repeat split; try lia. intros g. destruct g; cbn; lia.
Qed.

Lemma advanced_trans (d1 d2 : footprint) (w w1 w2 : world) :
  advanced d1 w w1 -> advanced d2 w1 w2 -> advanced (fp_add d1 d2) w w2.
Proof.
  unfold advanced. intros (S1 & A1 & A2 & A3 & A4) (S2 & B1 & B2 & B3 & B4).
  split; [eapply same_sources_trans; eassumption |].
  cbn [fp_add f_mt f_os f_clock]. repeat split; try lia.
  intros g. rewrite f_inv_add, B4, A4. lia.
Qed.

Lemma fp_eq (a b : footprint) :
  f_mt a = f_mt b -> f_os a = f_os b -> f_clock a = f_clock b ->
  f_current a = f_current b -> f_secrets a = f_secrets b ->
  f_urandom a = f_urandom b -> f_optimized a = f_optimized b ->
  a = b.
Proof. destruct a, b. cbn. intros; subst; reflexivity. Qed.

Ltac fp_solve :=
  apply fp_eq; cbn [fp_add fp_scale fp_zero fp_clock fp_call fp_warmup_round
                    f_mt f_os f_clock f_current f_secrets f_urandom f_optimized];
  lia.

Lemma on_success_eq {A} (m : M A) (d d' : footprint) :
  on_success m d -> d = d' -> on_success m d'.
Proof. intros H <-. exact H. Qed.

Lemma on_success_ret {A} (a : A) : on_success (ret a) fp_zero.
Proof.
  intros w b w' H. unfold ret in H. injection H as _ <-. apply advanced_zero.
Qed.

Lemma on_success_raise {A} (e : exn) (d : footprint) : on_success (@raise A e) d.
Proof. intros w b w' H. discriminate. Qed.

Lemma on_success_bind {A B} (m : M A) (k : A -> M B) (d1 d2 : footprint) :
  on_success m d1 -> (forall a, on_success (k a) d2) ->
  on_success (bind m k) (fp_add d1 d2).
Proof.
  intros Hm Hk w b w' H. apply bind_ok_inv in H.
  destruct H as [a [w1 [H1 H2]]].
  eapply advanced_trans; [eapply Hm | eapply Hk]; eassumption.
Qed.

Lemma on_success_for_range (n : nat) (body : M unit) (d : footprint) :
  on_success body d -> on_success (for_range n body) (fp_scale (Z.of_nat n) d).
Proof.
  intros Hb. induction n as [| n IH].
  - eapply on_success_eq; [apply on_success_ret | fp_solve].
  - cbn [for_range]. eapply on_success_eq.
    + apply on_success_bind; [exact Hb | intros _; exact IH].
    + fp_solve.
Qed.

Lemma advanced_stdout (d : footprint) (w w' : world) (out : list line) :
  advanced d w w' -> advanced d w (set_stdout out w').
Proof. unfold advanced, same_sources. cbn. tauto. Qed.

Lemma on_success_print (l : line) : on_success (print l) fp_zero.
Proof.
  intros w a w' H. apply print_ok_inv in H. subst w'.
  apply advanced_stdout. apply advanced_zero.
Qed.

Lemma on_success_default_timer : on_success timeit.default_timer (fp_clock 1).
Proof.
  intros w a w' H. unfold timeit.default_timer in H. injection H as _ <-.
  unfold advanced, same_sources. cbn. repeat split; try lia.
  intros g. destruct g; cbn; lia.
Qed.

Lemma on_success_generators :
  on_success current_clock_sequence (fp_call gen_current) /\
  on_success clockseq_secrets (fp_call gen_secrets) /\
  on_success clockseq_urandom (fp_call gen_urandom) /\
  on_success clockseq_urandom_optimized (fp_call gen_urandom_optimized).
Proof.
  unfold on_success, current_clock_sequence, clockseq_secrets, clockseq_urandom,
    clockseq_urandom_optimized, secrets.randbits, bind, invoked, os.urandom,
    random.getrandbits, random.genrand_uint32, ret.
  cbn. split; [| split; [| split]]; intros w a w' H;
    try (destruct (os_error w (os_count w)); [discriminate |]);
    injection H as _ <-; unfold advanced, same_sources; cbn;
    repeat split; try lia; intros g; destruct g; cbn; lia.
Qed.

Lemma on_success_warmup_round : on_success warmup_round fp_warmup_round.
Proof.
  destruct on_success_generators as (H1 & H2 & H3 & H4).
  unfold warmup_round. eapply on_success_eq.
  - apply on_success_bind; [exact H1 | intros _].
    apply on_success_bind; [exact H2 | intros _].
    apply on_success_bind; [exact H3 | intros _].
    apply on_success_bind; [exact H4 | intros _].
    apply on_success_ret.
  - fp_solve.
Qed.

Lemma on_success_warmup (G : globals) :
  on_success (warmup G) (fp_scale (Z.max 0 (WARMUP_ROUNDS G)) fp_warmup_round).
Proof.
  unfold warmup. eapply on_success_eq.
  - apply on_success_bind; [apply on_success_print | intros _].
    apply on_success_for_range, on_success_warmup_round.
  - fp_solve.
Qed.

Lemma generator_of_cases (stmt : string) :
  (generator_of stmt = Some gen_current /\
   Timer stmt = (current_clock_sequence ;; ret tt)) \/
  (generator_of stmt = Some gen_secrets /\
   Timer stmt = (clockseq_secrets ;; ret tt)) \/
  (generator_of stmt = Some gen_urandom /\
   Timer stmt = (clockseq_urandom ;; ret tt)) \/
  (generator_of stmt = Some gen_urandom_optimized /\
   Timer stmt = (clockseq_urandom_optimized ;; ret tt)) \/
  (generator_of stmt = None /\ Timer stmt = raise NameError).
Proof.
  unfold generator_of, Timer.
  destruct (stmt =? "current_clock_sequence()")%string; [tauto |].
  destruct (stmt =? "clockseq_secrets()")%string; [tauto |].
  destruct (stmt =? "clockseq_urandom()")%string; [tauto |].
  destruct (stmt =? "clockseq_urandom_optimized()")%string; tauto.
Qed.

Lemma on_success_Timer (stmt : string) (g : generator) :
  generator_of stmt = Some g -> on_success (Timer stmt) (fp_call g).
Proof.
  intros Hg. destruct on_success_generators as (H1 & H2 & H3 & H4).
  destruct (generator_of_cases stmt)
    as [[E ->] | [[E ->] | [[E ->] | [[E ->] | [E _]]]]];
    rewrite E in Hg; try discriminate; injection Hg as <-;
    (eapply on_success_eq;
     [apply on_success_bind; [eassumption | intros _; apply on_success_ret]
     | fp_solve]).
Qed.

(** ** The timing harness *)

Lemma itertools_repeat_inv (times : Z) (w : world) (r : result nat) (w' : world) :
  itertools.repeat times w = (r, w') ->
  w' = w /\
  ((pyint.fits_ssize_t times = true /\ r = Ok (Z.to_nat times)) \/
   (pyint.fits_ssize_t times = false /\ r = Raise OverflowError)).
Proof.
  unfold itertools.repeat, ret, raise.
  destruct (pyint.fits_ssize_t times); intros H;
    (split; [congruence |]); [left | right]; split; congruence.
Qed.

Lemma itertools_repeat_ok (times : Z) (w : world) :
  pyint.fits_ssize_t times = true ->
  itertools.repeat times w = (Ok (Z.to_nat times), w).
Proof. unfold itertools.repeat. intros ->. reflexivity. Qed.

Lemma timeit_fits (stmt : M unit) (number : Z) w t w' :
  timeit.timeit stmt number w = (Ok t, w') ->
  pyint.fits_ssize_t number = true.
Proof.
  intros H. unfold timeit.timeit in H.
  apply bind_ok_inv in H. destruct H as [it [w0 [Hit _]]].
  apply itertools_repeat_inv in Hit.
  destruct Hit as [_ [[F _] | [_ X]]]; [exact F | discriminate].
Qed.

Lemma timeit_ok (stmt : M unit) (number : Z) (d : footprint) w t w' :
  on_success stmt d -> f_clock d = 0 ->
  timeit.timeit stmt number w = (Ok t, w') ->
  t = sample w (clock_count w) 0 /\
  advanced (fp_add (fp_clock 2) (fp_scale (Z.max 0 number) d)) w w'.
Proof.
  intros Hs Hc H. unfold timeit.timeit in H.
  apply bind_ok_inv in H. destruct H as [it [w0 [Hit H]]].
  apply itertools_repeat_inv in Hit.
  destruct Hit as [-> [[_ Hit] | [_ Hit]]]; [| discriminate].
  assert (it = Z.to_nat number) as -> by congruence. clear Hit.
  apply bind_ok_inv in H. destruct H as [t0 [w1 [H0 H]]].
  apply bind_ok_inv in H. destruct H as [[] [w2 [Hloop H]]].
  apply bind_ok_inv in H. destruct H as [t1 [w3 [H1 H]]].
  unfold ret in H. assert (t = (t1 - t0)%float /\ w' = w3) as [-> ->]
      by (split; congruence).
  pose proof (on_success_default_timer _ _ _ H0) as A0.
  pose proof (on_success_for_range (Z.to_nat number) stmt d Hs _ _ _ Hloop) as A1.
  pose proof (on_success_default_timer _ _ _ H1) as A2.
  unfold timeit.default_timer in H0, H1.
  assert (t0 = clock w (clock_count w)) as -> by congruence.
  assert (t1 = clock w2 (clock_count w2)) as -> by congruence.
  split.
  - destruct A0 as ((_ & _ & _ & _ & S0 & _) & _ & _ & C0 & _).
    destruct A1 as ((_ & _ & _ & _ & S1 & _) & _ & _ & C1 & _).
    cbn [fp_clock fp_scale f_clock] in C0, C1.
    unfold sample. rewrite S1, S0, C1, C0, Hc. f_equal; f_equal; lia.
  - pose proof (advanced_trans _ _ _ _ _ (advanced_trans _ _ _ _ _ A0 A1) A2) as A.
    replace (fp_add (fp_clock 2) (fp_scale (Z.max 0 number) d))
      with (fp_add (fp_add (fp_clock 1) (fp_scale (Z.of_nat (Z.to_nat number)) d))
                   (fp_clock 1)) by fp_solve.
    exact A.
Qed.

Lemma sample_shift (w w1 : world) (c j : Z) :
  clock w1 = clock w -> sample w1 (c + 2) j = sample w c (j + 1).
Proof.
  intros E. unfold sample. rewrite E. f_equal; f_equal; lia.
Qed.

Lemma repeat_from_ok (stmt : M unit) (number : Z) (d : footprint) (n : nat) :
  on_success stmt d -> f_clock d = 0 ->
  forall r w ts w',
    timeit.repeat_from stmt n number r w = (Ok ts, w') ->
    ts = r ++ map (fun j => sample w (clock_count w) (Z.of_nat j)) (seq 0 n) /\
    advanced (fp_scale (Z.of_nat n)
                (fp_add (fp_clock 2) (fp_scale (Z.max 0 number) d))) w w'.
Proof.
  intros Hs Hc. induction n as [| n IH]; intros r w ts w' H.
  - cbn in H. unfold ret in H. assert (ts = r /\ w' = w) as [-> ->]
        by (split; congruence).
    cbn [seq map]. rewrite app_nil_r. split; [reflexivity |].
    replace (fp_scale _ _) with fp_zero by fp_solve. apply advanced_zero.
  - cbn [timeit.repeat_from] in H.
    apply bind_ok_inv in H. destruct H as [t [w1 [Ht H]]].
    destruct (timeit_ok stmt number d _ _ _ Hs Hc Ht) as [-> A1].
    destruct (IH _ _ _ _ H) as [-> A2].
    split.
    + rewrite <- app_assoc. f_equal. cbn [seq map app]. f_equal.
      rewrite <- seq_shift, map_map.
      apply map_ext. intros j.
      destruct A1 as ((_ & _ & _ & _ & S1 & _) & _ & _ & C1 & _).
      cbn [fp_add fp_clock fp_scale f_clock] in C1.
      replace (clock_count w1) with (clock_count w + 2) by lia.
      rewrite (sample_shift _ _ _ _ S1). f_equal. lia.
    + pose proof (advanced_trans _ _ _ _ _ A1 A2) as A.
      match goal with
      | |- advanced ?x _ _ =>
          match type of A with
          | advanced ?y _ _ => replace x with y by fp_solve
          end
      end.
      exact A.
Qed.

Lemma repeat_ok (stmt : M unit) (number : Z) (d : footprint) w ts w' :
  on_success stmt d -> f_clock d = 0 ->
  timeit.repeat stmt 5 number w = (Ok ts, w') ->
  ts = samples w (clock_count w) /\
  advanced (fp_scale 5 (fp_add (fp_clock 2) (fp_scale (Z.max 0 number) d))) w w'.
Proof.
  intros Hs Hc H. unfold timeit.repeat in H.
  destruct (repeat_from_ok stmt number d (Z.to_nat 5) Hs Hc _ _ _ _ H) as [-> A].
  split; [reflexivity | exact A].
Qed.

(** The length of what [Timer.repeat] returns is the repeat count. *)
Lemma repeat_from_length (stmt : M unit) (number : Z) (n : nat) :
  forall r w ts w',
    timeit.repeat_from stmt n number r w = (Ok ts, w') ->
    List.length ts = (List.length r + n)%nat.
Proof.
  induction n as [| n IH]; intros r w ts w' H.
  - cbn in H. unfold ret in H. assert (ts = r) as -> by congruence. lia.
  - cbn [timeit.repeat_from] in H.
    apply bind_ok_inv in H. destruct H as [t [w1 [_ H]]].
    apply IH in H. rewrite length_app in H. cbn in H. lia.
Qed.

Lemma repeat_length (stmt : M unit) (repeat number : Z) w ts w' :
  timeit.repeat stmt repeat number w = (Ok ts, w') ->
  List.length ts = Z.to_nat repeat.
Proof.
  unfold timeit.repeat. intros H. apply repeat_from_length in H. exact H.
Qed.

(** The footprint of the measurement of one test case that calls [g]. *)
Lemma benchmark_case_ok (G : globals) (results : dict) (name stmt : string)
  (g : generator) w results' w' :
  generator_of stmt = Some g ->
  benchmark_case G results (name, stmt) w = (Ok results', w') ->
  (exists r,
      summarize (samples w (clock_count w)) (NUM_ITERATIONS G) = Ok r /\
      results' = dict_set results name r) /\
  advanced (fp_scale 5 (fp_add (fp_clock 2)
                          (fp_scale (Z.max 0 (NUM_ITERATIONS G)) (fp_call g))))
           w w'.
Proof.
  intros Hg H. unfold benchmark_case in H.
  apply bind_ok_inv in H. destruct H as [[] [w1 [Hp H]]].
  apply bind_ok_inv in H. destruct H as [times [w2 [Hr H]]].
  apply bind_ok_inv in H. destruct H as [r [w3 [Hs H]]].
  apply bind_ok_inv in H. destruct H as [[] [w4 [Hp1 H]]].
  apply bind_ok_inv in H. destruct H as [[] [w5 [Hp2 H]]].
  unfold ret in H. assert (results' = dict_set results name r /\ w' = w5)
    as [-> ->] by (split; congruence).
  unfold lift in Hs.
  assert (summarize times (NUM_ITERATIONS G) = Ok r /\ w3 = w2) as [Hsum ->]
      by (split; congruence).
  pose proof (on_success_print _ _ _ _ Hp) as A0.
  assert (f_clock (fp_call g) = 0) as Hc by (destruct g; reflexivity).
  destruct (repeat_ok (Timer stmt) (NUM_ITERATIONS G) (fp_call g) _ _ _
              (on_success_Timer stmt g Hg) Hc Hr) as [-> A1].
  pose proof (on_success_print _ _ _ _ Hp1) as A2.
  pose proof (on_success_print _ _ _ _ Hp2) as A3.
  assert (clock w1 = clock w /\ clock_count w1 = clock_count w) as [E1 E2].
  { destruct A0 as ((_ & _ & _ & _ & S & _) & _ & _ & C & _). cbn in C. split; [exact S | lia]. }
  split.
  - exists r. split; [| reflexivity].
    rewrite <- Hsum. f_equal. unfold samples, sample. rewrite E1, E2. reflexivity.
  - pose proof (advanced_trans _ _ _ _ _
                (advanced_trans _ _ _ _ _ (advanced_trans _ _ _ _ _ A0 A1) A2) A3) as A.
    match goal with
    | |- advanced ?x _ _ =>
        match type of A with
        | advanced ?y _ _ => replace x with y by fp_solve
        end
    end.
    exact A.
Qed.

(** ** The whole run *)

Lemma for_each_print_row (l : list (string * metrics)) (w : world) :
  for_each l print_row w
  = (Ok tt, set_stdout (stdout w ++ map table_line l) w).
Proof.
  revert w. induction l as [| [name res] l IH]; intros w.
  - cbn. unfold ret, set_stdout. rewrite app_nil_r. destruct w; reflexivity.
  - cbn [for_each map]. unfold print_row at 1.
    rewrite (bind_ok _ _ _ _ _
               (print_ascii (TableRow name (avg_ns res) (stddev_ns res)
                               (ops_per_sec res)) w eq_refl)), IH.
    unfold set_stdout. cbn. rewrite <- app_assoc. reflexivity.
Qed.

Lemma print_summary_run (results : dict) (w : world) :
  print_summary results w
  = (Ok tt,
     set_stdout (stdout w ++ [SummaryTitle; TableHeader; TableRule]
                          ++ map table_line (table_rows results)) w).
Proof.
  unfold print_summary.
  rewrite (bind_ok _ _ _ _ _ (print_ascii SummaryTitle w eq_refl)).
  rewrite (bind_ok _ _ _ _ _ (print_ascii TableHeader _ eq_refl)).
  rewrite (bind_ok _ _ _ _ _ (print_ascii TableRule _ eq_refl)).
  rewrite for_each_print_row.
  unfold set_stdout. cbn. rewrite <- !app_assoc. reflexivity.
Qed.

Lemma run_benchmark_inv (G : globals) (w : world) (r : result unit) (w' : world) :
  run_benchmark G w = (r, w') ->
  (exists results wm,
      measure G w = (Ok results, wm) /\ r = Ok tt /\
      w' = set_stdout (stdout wm ++ [SummaryTitle; TableHeader; TableRule]
                                 ++ map table_line (table_rows results)) wm) \/
  (exists e, measure G w = (Raise e, w') /\ r = Raise e).
Proof.
  unfold run_benchmark. intros H. apply bind_inv in H.
  destruct H as [[results [wm [Hm H]]] | H]; [left | right; exact H].
  rewrite print_summary_run in H. exists results, wm.
  repeat split; congruence.
Qed.

Lemma samples_same_clock (w w1 : world) (c : Z) :
  clock w1 = clock w -> samples w1 c = samples w c.
Proof. intros E. unfold samples, sample. rewrite E. reflexivity. Qed.

(** A normal end of the measurements: the warmup has made its calls
    without a timer reading, each test case has taken its five samples
    from ten fresh readings, and the dictionary holds their metrics. *)
Lemma measure_ok (G : globals) (w : world) (results : dict) (w' : world) :
  measure G w = (Ok results, w') ->
  let W := Z.max 0 (WARMUP_ROUNDS G) in
  let N := Z.max 0 (NUM_ITERATIONS G) in
  (exists w0 w1,
      warmup G w0 = (Ok tt, w1) /\
      advanced fp_zero w w0 /\
      advanced (fp_scale W fp_warmup_round) w w1 /\
      benchmark_cases G TEST_CASES [] w1 = (Ok results, w')) /\
  (exists r0 r1 r2 r3,
      measured G w (clock_count w) r0 /\
      measured G w (clock_count w + 10) r1 /\
      measured G w (clock_count w + 20) r2 /\
      measured G w (clock_count w + 30) r3 /\
      results = results_of r0 r1 r2 r3) /\
  advanced (mkFootprint (W + 5 * N) (3 * W + 15 * N) 40
                        (W + 5 * N) (W + 5 * N) (W + 5 * N) (W + 5 * N)) w w'.
Proof.
  intros H W N. unfold measure in H.
  apply bind_ok_inv in H. destruct H as [v [wa [Hv H]]].
  assert (wa = w) as -> by congruence. clear Hv.
  apply bind_ok_inv in H. destruct H as [[] [wb [Hp1 H]]].
  apply bind_ok_inv in H. destruct H as [[] [w0 [Hp2 H]]].
  apply bind_ok_inv in H. destruct H as [[] [w1 [Hw Hc]]].
  pose proof (advanced_trans _ _ _ _ _ (on_success_print _ _ _ _ Hp1)
                (on_success_print _ _ _ _ Hp2)) as A0.
  replace (fp_add fp_zero fp_zero) with fp_zero in A0 by fp_solve.
  pose proof (advanced_trans _ _ _ _ _ A0 (on_success_warmup G _ _ _ Hw)) as A1.
  replace (fp_add fp_zero (fp_scale (Z.max 0 (WARMUP_ROUNDS G)) fp_warmup_round))
    with (fp_scale W fp_warmup_round) in A1 by fp_solve.
  split; [exists w0, w1; auto |].
  unfold TEST_CASES in Hc. cbn [benchmark_cases] in Hc.
  apply bind_ok_inv in Hc. destruct Hc as [d0 [w2 [H0 Hc]]].
  apply bind_ok_inv in Hc. destruct Hc as [d1 [w3 [H1 Hc]]].
  apply bind_ok_inv in Hc. destruct Hc as [d2 [w4 [H2 Hc]]].
  apply bind_ok_inv in Hc. destruct Hc as [d3 [w5 [H3 Hc]]].
  unfold ret in Hc.
  assert (results = d3 /\ w' = w5) as [-> ->] by (split; congruence).
  destruct (benchmark_case_ok G _ _ "current_clock_sequence()"%string gen_current _ _ _ eq_refl H0)
    as [[r0 [M0 ->]] B0].
  destruct (benchmark_case_ok G _ _ "clockseq_secrets()"%string gen_secrets _ _ _ eq_refl H1)
    as [[r1 [M1 ->]] B1].
  destruct (benchmark_case_ok G _ _ "clockseq_urandom()"%string gen_urandom _ _ _ eq_refl H2)
    as [[r2 [M2 ->]] B2].
  destruct (benchmark_case_ok G _ _ "clockseq_urandom_optimized()"%string gen_urandom_optimized _ _ _ eq_refl H3)
    as [[r3 [M3 ->]] B3].
  pose proof (advanced_trans _ _ _ _ _ A1 B0) as A2.
  pose proof (advanced_trans _ _ _ _ _ A2 B1) as A3.
  pose proof (advanced_trans _ _ _ _ _ A3 B2) as A4.
  pose proof (advanced_trans _ _ _ _ _ A4 B3) as A5.
  split.
  - exists r0, r1, r2, r3. unfold measured.
    destruct A1 as ((_ & _ & _ & _ & S1 & _) & _ & _ & C1 & _).
    destruct A2 as ((_ & _ & _ & _ & S2 & _) & _ & _ & C2 & _).
    destruct A3 as ((_ & _ & _ & _ & S3 & _) & _ & _ & C3 & _).
    destruct A4 as ((_ & _ & _ & _ & S4 & _) & _ & _ & C4 & _).
    cbn [fp_add fp_scale fp_clock fp_call fp_warmup_round f_clock] in C1, C2, C3, C4.
    rewrite (samples_same_clock _ _ _ S1) in M0.
    rewrite (samples_same_clock _ _ _ S2) in M1.
    rewrite (samples_same_clock _ _ _ S3) in M2.
    rewrite (samples_same_clock _ _ _ S4) in M3.
    replace (clock_count w1) with (clock_count w) in M0 by lia.
    replace (clock_count w2) with (clock_count w + 10) in M1 by lia.
    replace (clock_count w3) with (clock_count w + 20) in M2 by lia.
    replace (clock_count w4) with (clock_count w + 30) in M3 by lia.
    repeat split; assumption.
  - match goal with
    | |- advanced ?x _ _ =>
        match type of A5 with
        | advanced ?y _ _ => replace x with y by (subst W N; fp_solve)
        end
    end.
    exact A5.
Qed.

(** C5. In a complete run every generator is called once per warmup round
    and five times the iteration count during the measurements, 100 +
    5 * 1,000,000 times with the constants of the script, which makes
    100 * 4 + 5 * 1,000,000 * 4 requests to the randomness sources.  The
    warmup takes no timer reading; the statistics are computed from the
    forty readings that bracket the twenty measured batches. *)
Theorem warmup_calls_are_not_measured (G : globals) (w w' : world) :
  run_benchmark G w = (Ok tt, w') ->
  let W := Z.max 0 (WARMUP_ROUNDS G) in
  let N := Z.max 0 (NUM_ITERATIONS G) in
  (forall g, invocations w' g = invocations w g + W + 5 * N) /\
  (mt_count w' - mt_count w) + (os_count w' - os_count w) = W * 4 + 5 * N * 4 /\
  (G = module_globals ->
   (forall g, invocations w' g = invocations w g + 100 + 5 * 1000000) /\
   (mt_count w' - mt_count w) + (os_count w' - os_count w)
   = 100 * 4 + 5 * 1000000 * 4) /\
  (exists w0 w1,
      warmup G w0 = (Ok tt, w1) /\
      clock_count w0 = clock_count w /\
      clock_count w1 = clock_count w /\
      forall g, invocations w0 g = invocations w g /\
                invocations w1 g = invocations w g + W) /\
  clock_count w' = clock_count w + 40 /\
  (exists r0 r1 r2 r3 out,
      measured G w (clock_count w) r0 /\
      measured G w (clock_count w + 10) r1 /\
      measured G w (clock_count w + 20) r2 /\
      measured G w (clock_count w + 30) r3 /\
      stdout w' = out ++ map table_line (table_rows (results_of r0 r1 r2 r3))).
Proof.
  intros H W N. apply run_benchmark_inv in H.
  destruct H as [[results [wm [Hm [_ ->]]]] | [e [_ H]]]; [| discriminate].
  destruct (measure_ok G w results wm Hm)
    as [[w0 [w1 [Hw [A0 [A1 _]]]]] [[r0 [r1 [r2 [r3 (M0 & M1 & M2 & M3 & ->)]]]] A]].
  fold W N in A1, A.
  destruct A as (_ & Cmt & Cos & Cclock & Cinv).
  cbn [f_mt f_os f_clock] in Cmt, Cos, Cclock.
  assert (forall g, invocations wm g = invocations w g + W + 5 * N) as Hinv.
  { intros g. rewrite Cinv. destruct g; cbn [f_inv f_current f_secrets
      f_urandom f_optimized]; lia. }
  cbn [invocations mt_count os_count clock_count stdout set_stdout].
  split; [| split; [| split; [| split; [| split]]]].
  - exact Hinv.
  - lia.
  - intros ->. subst W N. cbn [module_globals NUM_ITERATIONS WARMUP_ROUNDS] in *.
    split; [| lia].
    intros g. rewrite Hinv. lia.
  - exists w0, w1. split; [exact Hw |].
    destruct A0 as (_ & _ & _ & C0 & I0).
    destruct A1 as (_ & _ & _ & C1 & I1).
    cbn [fp_zero fp_scale fp_warmup_round f_clock] in C0, C1.
    split; [lia | split; [lia |]].
    intros g. rewrite I0, I1. destruct g; cbn [f_inv fp_zero fp_scale
      fp_warmup_round f_current f_secrets f_urandom f_optimized]; lia.
  - lia.
  - exists r0, r1, r2, r3.
    exists (stdout wm ++ [SummaryTitle; TableHeader; TableRule]).
    repeat split; try assumption.
    rewrite <- app_assoc. reflexivity.
Qed.

(** ** The order of binary64 numbers *)

Ltac order_cases :=
  repeat match goal with
    | H : context [Z.compare ?a ?b] |- _ => destruct (Z.compare_spec a b)
    | |- context [Z.compare ?a ?b] => destruct (Z.compare_spec a b)
    | H : context [Pos.compare ?a ?b] |- _ => destruct (Pos.compare_spec a b)
    | |- context [Pos.compare ?a ?b] => destruct (Pos.compare_spec a b)
    end.

Lemma SFcompare_antisym (x y : spec_float) :
  SFcompare y x = option_map CompOpp (SFcompare x y).
Proof.
  destruct x as [[] | [] | | [] mx ex], y as [[] | [] | | [] my ey];
    cbn; try reflexivity;
    change (Pos.compare_cont Eq) with Pos.compare;
    order_cases; subst; cbn; try reflexivity; lia.
Qed.

Lemma SFleb_trans (x y z : spec_float) :
  SFleb x y = true -> SFleb y z = true -> SFleb x z = true.
Proof.
  unfold SFleb.
  destruct x as [[] | [] | | [] mx ex], y as [[] | [] | | [] my ey],
           z as [[] | [] | | [] mz ez];
    cbn; try reflexivity; try discriminate;
    change (Pos.compare_cont Eq) with Pos.compare;
    intros H1 H2; order_cases; subst;
    cbn in *; try reflexivity; try discriminate; lia.
Qed.

Lemma is_nan_false (x : float) : is_nan x = false -> Prim2SF x <> S754_nan.
Proof.
  unfold is_nan. rewrite eqb_spec. intros H E. rewrite E in H. discriminate.
Qed.

Lemma float_ltb_leb (x y : float) : (x <? y)%float = true -> (x <=? y)%float = true.
Proof.
  rewrite ltb_spec, leb_spec. unfold SFltb, SFleb.
  destruct (SFcompare (Prim2SF x) (Prim2SF y)) as [[] |]; congruence.
Qed.

Lemma float_not_ltb_leb (x y : float) :
  is_nan x = false -> is_nan y = false ->
  (y <? x)%float = false -> (x <=? y)%float = true.
Proof.
  intros Hx Hy. apply is_nan_false in Hx, Hy.
  rewrite ltb_spec, leb_spec. unfold SFltb, SFleb.
  rewrite (SFcompare_antisym (Prim2SF x) (Prim2SF y)).
  destruct (SFcompare (Prim2SF x) (Prim2SF y)) as [[] |] eqn:E; cbn;
    try congruence.
  destruct (Prim2SF x) as [[] | [] | | [] ? ?], (Prim2SF y) as [[] | [] | | [] ? ?];
    cbn in E; congruence.
Qed.

Lemma float_leb_trans (x y z : float) :
  (x <=? y)%float = true -> (y <=? z)%float = true -> (x <=? z)%float = true.
Proof. rewrite !leb_spec. apply SFleb_trans. Qed.

(** ** Rounding never makes a NaN *)

Lemma shr_1_nonneg (mrs : shr_record) : 0 <= shr_m mrs -> 0 <= shr_m (shr_1 mrs).
Proof.
  destruct mrs as [m r s]. cbn [shr_m]. intros H.
  destruct m as [| [p | p |] | p]; cbn; lia.
Qed.

Lemma iter_pos_shr_1_nonneg (p : positive) :
  forall mrs, 0 <= shr_m mrs -> 0 <= shr_m (iter_pos shr_1 p mrs).
Proof.
  induction p as [p IH | p IH |]; intros mrs H; cbn [iter_pos].
  - apply IH, IH, shr_1_nonneg, H.
  - apply IH, IH, H.
  - apply shr_1_nonneg, H.
Qed.

Lemma shr_fexp_nonneg (m e : Z) (l : location) :
  0 <= m -> 0 <= shr_m (fst (shr_fexp prec emax m e l)).
Proof.
  intros H. unfold shr_fexp, shr.
  assert (0 <= shr_m (shr_record_of_loc m l)) as H0
      by (destruct l as [| []]; exact H).
  destruct (fexp prec emax (Zdigits2 m + e) - e); cbn [fst]; try exact H0.
  apply iter_pos_shr_1_nonneg, H0.
Qed.

Lemma round_nearest_even_nonneg (m : Z) (l : location) :
  0 <= m -> 0 <= round_nearest_even m l.
Proof.
  intros H. unfold round_nearest_even.
  destruct l as [| []]; try destruct (Z.even m); lia.
Qed.

Lemma binary_round_aux_not_nan (sx : bool) (mx ex : Z) (lx : location) :
  0 <= mx -> binary_round_aux prec emax sx mx ex lx <> S754_nan.
Proof.
  intros H. unfold binary_round_aux.
  pose proof (shr_fexp_nonneg mx ex lx H) as H1.
  destruct (shr_fexp prec emax mx ex lx) as [mrs' e']. cbn [fst] in H1.
  pose proof (shr_fexp_nonneg
                (round_nearest_even (shr_m mrs') (loc_of_shr_record mrs')) e'
                loc_Exact (round_nearest_even_nonneg _ _ H1)) as H2.
  destruct (shr_fexp prec emax _ e' loc_Exact) as [mrs'' e'']. cbn [fst] in H2.
  destruct (shr_m mrs'') as [| p | p]; try discriminate; [| lia].
  destruct (e'' <=? emax - prec); discriminate.
Qed.

Lemma binary_round_not_nan (sx : bool) (mx : positive) (ex : Z) :
  binary_round prec emax sx mx ex <> S754_nan.
Proof.
  unfold binary_round. destruct (shl_align _ _ _) as [mz ez].
  apply binary_round_aux_not_nan. lia.
Qed.

Lemma binary_normalize_not_nan (m e : Z) (szero : bool) :
  binary_normalize prec emax m e szero <> S754_nan.
Proof.
  unfold binary_normalize.
  destruct m; try apply binary_round_not_nan. discriminate.
Qed.

Lemma SFdiv_core_nonneg (m1 : positive) (e1 : Z) (m2 : positive) (e2 : Z) :
  0 <= fst (fst (SFdiv_core_binary prec emax (Zpos m1) e1 (Zpos m2) e2)).
Proof.
  unfold SFdiv_core_binary.
  set (s := _ - _ - _).
  set (m' := match s with Z.pos _ => Z.shiftl (Z.pos m1) s | Z0 => Z.pos m1 | Z.neg _ => 0 end).
  assert (0 <= m') as H.
  { subst m'. destruct s; try lia. apply Z.shiftl_nonneg. lia. }
  pose proof (Z_div_mod m' (Zpos m2) eq_refl) as D.
  destruct (Z.div_eucl m' (Z.pos m2)) as [q r]. cbn [fst]. nia.
Qed.

Lemma SF_of_ratio_not_nan (n : Z) (d : positive) :
  pyfloat.SF_of_ratio n d <> S754_nan.
Proof.
  unfold pyfloat.SF_of_ratio.
  destruct n as [| p | p]; [discriminate | |];
    pose proof (SFdiv_core_nonneg p 0 d 0) as H;
    destruct (SFdiv_core_binary prec emax (Z.pos p) 0 (Z.pos d) 0) as [[mz ez] lz];
    apply binary_round_aux_not_nan; exact H.
Qed.

Lemma Prim2SF_nan (f : float) : Prim2SF f = S754_nan <-> is_nan f = true.
Proof.
  unfold Prim2SF. destruct (is_nan f); [tauto |].
  split; [| discriminate].
  destruct (is_zero f); [discriminate |].
  destruct (is_infinity f); [discriminate |].
  destruct (Z.frexp f) as [r ex].
  destruct (shr_fexp _ _ _ _ _) as [sh e'].
  destruct (shr_m sh); discriminate.
Qed.

Lemma is_nan_SF2Prim (s : spec_float) :
  s <> S754_nan -> is_nan (SF2Prim s) = false.
Proof.
  intros H. destruct (is_nan (SF2Prim s)) eqn:E; [| reflexivity].
  apply Prim2SF_nan in E. exfalso.
  destruct s as [[] | [] | | sg m e];
    [vm_compute in E; discriminate .. | congruence |].
  unfold SF2Prim in E.
  assert (Prim2SF (Z.ldexp (of_uint63 (Uint63.of_Z (Z.pos m))) e) <> S754_nan) as N.
  { rewrite Z_ldexp_spec, of_uint63_spec. unfold SFldexp.
    destruct (binary_normalize prec emax _ 0 false) eqn:B;
      try discriminate; [| apply binary_round_not_nan].
    exfalso. exact (binary_normalize_not_nan _ _ _ B). }
  destruct sg; [| exact (N E)].
  rewrite opp_spec in E.
  destruct (Prim2SF (Z.ldexp _ e)); try discriminate. exact (N eq_refl).
Qed.

Lemma SFdiv_finite_not_nan (x : spec_float) (s : bool) (m : positive) (e : Z) :
  x <> S754_nan -> SFdiv prec emax x (S754_finite s m e) <> S754_nan.
Proof.
  intros H. destruct x as [sx | sx | | sx mx ex]; cbn [SFdiv];
    try discriminate; [congruence |].
  pose proof (SFdiv_core_nonneg mx ex m e) as Q.
  destruct (SFdiv_core_binary prec emax (Z.pos mx) ex (Z.pos m) e) as [[mz ez] lz].
  apply binary_round_aux_not_nan. exact Q.
Qed.

Lemma SFmul_finite_not_nan (x : spec_float) (s : bool) (m : positive) (e : Z) :
  x <> S754_nan -> SFmul prec emax x (S754_finite s m e) <> S754_nan.
Proof.
  intros H. destruct x as [sx | sx | | sx mx ex]; cbn [SFmul];
    try discriminate; [congruence |].
  apply binary_round_aux_not_nan. lia.
Qed.

(** A float that is neither a NaN, nor an infinity, nor a zero. *)
Lemma Prim2SF_finite (f : float) :
  is_nan f = false -> is_infinity f = false -> (f =? 0)%float = false ->
  exists s m e, Prim2SF f = S754_finite s m e.
Proof.
  intros Hn Hi Hz.
  assert (Prim2SF f <> S754_nan) as N
      by (intros E; apply Prim2SF_nan in E; congruence).
  unfold is_infinity in Hi. rewrite eqb_spec, abs_spec in Hi.
  rewrite eqb_spec in Hz.
  destruct (Prim2SF f) as [[] | [] | | s m e];
    try (vm_compute in Hz; discriminate);
    try (vm_compute in Hi; discriminate);
    [congruence | eauto].
Qed.

Lemma int_truediv_ok (n : Z) (d : positive) (f : float) :
  pyfloat.int_truediv n d = Ok f -> is_nan f = false /\ is_infinity f = false.
Proof.
  unfold pyfloat.int_truediv.
  destruct (is_infinity (SF2Prim (pyfloat.SF_of_ratio n d))) eqn:E;
    [discriminate |].
  intros H. assert (f = SF2Prim (pyfloat.SF_of_ratio n d)) as -> by congruence.
  split; [| exact E]. apply is_nan_SF2Prim, SF_of_ratio_not_nan.
Qed.

Lemma truediv_mul_not_nan (m n : float) :
  is_nan m = false ->
  is_nan n = false -> is_infinity n = false -> (n =? 0)%float = false ->
  is_nan (m / n * 1e9)%float = false.
Proof.
  intros Hm Hn Hi Hz.
  destruct (Prim2SF_finite n Hn Hi Hz) as [s [mn [e En]]].
  destruct (is_nan (m / n * 1e9)%float) eqn:E; [| reflexivity].
  apply Prim2SF_nan in E. rewrite mul_spec, div_spec, En in E.
  exfalso. revert E.
  change (Prim2SF 1e9) with (S754_finite false 8388608000000000 (-23)).
  apply SFmul_finite_not_nan, SFdiv_finite_not_nan.
  intros X. apply Prim2SF_nan in X. congruence.
Qed.

(** The mean of a sample on which [stdev] succeeds is a number. *)
Lemma mean_is_number (times : list float) (m s : float) :
  statistics.mean times = Ok m -> statistics.stdev times = Ok s ->
  is_nan m = false.
Proof.
  unfold statistics.mean, statistics.stdev, statistics._ss.
  destruct (statistics.count times <? 1); [discriminate |].
  destruct (statistics.count times <? 2) eqn:E2; [discriminate |].
  assert ((statistics.count times =? 0) = false) as ->
      by (apply Z.ltb_ge in E2; apply Z.eqb_neq; lia).
  destruct (statistics._sum times) as [q | f].
  - intros H _. unfold pyfloat.of_Fraction in H.
    apply int_truediv_ok in H. tauto.
  - discriminate.
Qed.

(** An average latency that [summarize] returns is a number. *)
Lemma summarize_average_is_number (times : list float) (iterations : Z)
  (r : metrics) :
  summarize times iterations = Ok r -> is_nan (avg_ns r) = false.
Proof.
  intros H. apply summarize_inv in H.
  destruct H as [m [s [n (Hm & Hs & Hn & Hn0 & _ & ->)]]].
  cbn [avg_ns]. unfold pyfloat.of_int in Hn.
  apply int_truediv_ok in Hn. destruct Hn as [Nn In].
  apply truediv_mul_not_nan; try assumption.
  exact (mean_is_number times m s Hm Hs).
Qed.

Lemma measure_averages_are_numbers (G : globals) (w : world) (results : dict)
  (w' : world) :
  measure G w = (Ok results, w') -> averages_are_numbers results.
Proof.
  intros H. destruct (measure_ok G w results w' H)
    as [_ [[r0 [r1 [r2 [r3 (M0 & M1 & M2 & M3 & ->)]]]] _]].
  unfold measured in *.
  repeat constructor; cbn [snd];
    eapply summarize_average_is_number; eassumption.
Qed.

(** ** The comparison table *)

Section SortedFacts.
Variable A : Type.
Variable key : A -> float.

Let key_le (a b : A) : Prop := (key a <=? key b)%float = true.

Lemma insert_by_key_perm (x : A) (l : list A) :
  Permutation (x :: l) (insert_by_key key x l).
Proof.
  induction l as [| y l IH]; cbn [insert_by_key].
  - apply Permutation_refl.
  - destruct (key y <? key x)%float.
    + eapply perm_trans; [apply perm_swap |]. apply perm_skip, IH.
    + apply Permutation_refl.
Qed.

Lemma sorted_perm (l : list A) : Permutation l (sorted key l).
Proof.
  induction l as [| x l IH]; cbn [sorted].
  - apply perm_nil.
  - eapply perm_trans; [apply perm_skip, IH | apply insert_by_key_perm].
Qed.

Lemma insert_by_key_sorted (x : A) (l : list A) :
  is_nan (key x) = false ->
  Forall (fun a => is_nan (key a) = false) l ->
  StronglySorted key_le l ->
  StronglySorted key_le (insert_by_key key x l).
Proof.
  intros Hx Hl Hs. induction Hs as [| y l Hs IH Hy]; cbn [insert_by_key].
  - repeat constructor.
  - inversion Hl as [| ? ? Ny Nl]; subst.
    destruct (key y <? key x)%float eqn:E.
    + constructor; [apply IH, Nl |].
      apply (Permutation_Forall (insert_by_key_perm x l)).
      constructor; [apply float_ltb_leb, E | exact Hy].
    + assert (key_le x y) as Hxy by (apply float_not_ltb_leb; assumption).
      constructor; [constructor; assumption |].
      constructor; [exact Hxy |].
      eapply Forall_impl; [| exact Hy].
      intros a Ha. eapply float_leb_trans; eassumption.
Qed.

Lemma sorted_sorted (l : list A) :
  Forall (fun a => is_nan (key a) = false) l ->
  StronglySorted key_le (sorted key l).
Proof.
  induction 1 as [| x l Hx Hl IH]; cbn [sorted].
  - constructor.
  - apply insert_by_key_sorted; [exact Hx | | exact IH].
    apply (Permutation_Forall (sorted_perm l)), Hl.
Qed.

End SortedFacts.

(** C4. The comparison table lists the results in ascending order of
    average latency: its rows are a permutation of the dictionary's items,
    each average is at most the averages of the rows below it, and these
    rows are what is printed under the table's heading.  The averages a
    run computes are numbers, which is what the order needs.  Averages of
    50, 20 and 80 are listed as 20, 50, 80. *)
Theorem table_is_sorted_by_average :
  (forall results : dict,
      Permutation results (table_rows results) /\
      (averages_are_numbers results ->
       StronglySorted avg_le (table_rows results)) /\
      forall w,
        stdout (snd (print_summary results w))
        = stdout w ++ [SummaryTitle; TableHeader; TableRule]
                   ++ map table_line (table_rows results)) /\
  (forall G w results w',
      measure G w = (Ok results, w') ->
      averages_are_numbers results /\
      StronglySorted avg_le (table_rows results)) /\
  map (fun item => avg_ns (snd item)) (table_rows example_results)
  = [20; 50; 80]%float.
Proof.
  assert (forall results, averages_are_numbers results ->
                          StronglySorted avg_le (table_rows results)) as S.
  { intros results H. unfold table_rows.
    apply (sorted_sorted _ (fun item => avg_ns (snd item)) results H). }
  split; [| split; [| reflexivity]].
  - intros results. split; [| split].
    + apply sorted_perm.
    + apply S.
    + intros w. rewrite print_summary_run. reflexivity.
  - intros G w results w' H.
    pose proof (measure_averages_are_numbers G w results w' H) as N.
    split; [exact N | exact (S results N)].
Qed.

(** ** What every computation of the script respects *)

Lemma sound_neutral {A} (m : M A) :
  (forall w, os_error (snd (m w)) = os_error w /\
             os_count (snd (m w)) = os_count w /\
             (exists out, stdout (snd (m w)) = stdout w ++ out) /\
             fst (m w) <> Raise StatisticsError) ->
  sound m.
Proof.
  intros Hm w r w' H. destruct (Hm w) as (E & C & O & R).
  rewrite H in E, C, O, R. cbn [fst snd] in E, C, O, R.
  repeat split; try assumption; try lia.
Qed.

Ltac neutral :=
  apply sound_neutral; intros w; cbn;
  repeat split; try reflexivity; try discriminate;
  try (exists []; rewrite app_nil_r; reflexivity).

Lemma sound_ret {A} (a : A) : sound (ret a).
Proof. neutral. Qed.

Lemma sound_raise {A} (e : exn) : e <> StatisticsError -> sound (@raise A e).
Proof.
  intros He. apply sound_neutral. intros w. cbn.
  repeat split; try congruence. exists []. now rewrite app_nil_r.
Qed.

Lemma sound_print (l : line) : sound (print l).
Proof.
  intros w r w' H. apply print_inv in H.
  destruct H as [[-> ->] | (-> & -> & _)]; cbn [os_error os_count stdout set_stdout];
    (split; [reflexivity | split; [lia | split; [| split]]]);
    try discriminate; try (intros k f Hk; lia).
  - exists [l]. reflexivity.
  - exists []. now rewrite app_nil_r.
Qed.

Lemma sound_invoked (g : generator) : sound (invoked g).
Proof. neutral. Qed.

Lemma sound_default_timer : sound timeit.default_timer.
Proof. neutral. Qed.

Lemma sound_genrand_uint32 : sound random.genrand_uint32.
Proof. neutral. Qed.

Lemma sound_urandom (size : Z) : sound (os.urandom size).
Proof.
  intros w r w' H. unfold os.urandom in H.
  destruct (size <? 0).
  - assert (r = Raise ValueError /\ w' = w) as [-> ->] by (split; congruence).
    repeat split; try lia; try discriminate.
    exists []. now rewrite app_nil_r.
  - assert (w' = set_os_count (os_count w + 1) w /\
            match os_error w (os_count w) with
            | Some f => r = Raise (exn_of_os_failure f)
            | None => r <> Raise StatisticsError
            end) as [-> Hr].
    { destruct (os_error w (os_count w)); split; congruence. }
    cbn [os_error os_count stdout set_os_count].
    split; [reflexivity | split; [lia | split; [| split]]].
    + intros k f Hk Hf. assert (k = os_count w) as -> by lia.
      rewrite Hf in Hr. exact Hr.
    + exists []. now rewrite app_nil_r.
    + destruct (os_error w (os_count w)) as [[] |]; subst; try assumption;
        discriminate.
Qed.

Lemma sound_bind_result {A B} (m : M A) (k : A -> M B) :
  sound m ->
  (forall a w w1, m w = (Ok a, w1) -> sound (k a)) ->
  sound (bind m k).
Proof.
  intros Hm Hk w r w' H. apply bind_inv in H.
  destruct H as [[a [w1 [H1 H2]]] | [e [H1 ->]]].
  - destruct (Hm _ _ _ H1) as (E1 & C1 & F1 & [out1 O1] & _).
    destruct (Hk a _ _ H1 _ _ _ H2) as (E2 & C2 & F2 & [out2 O2] & R2).
    repeat split; try congruence; try lia.
    + intros j f Hj Hf. destruct (Z_lt_le_dec j (os_count w1)) as [L | L].
      * specialize (F1 j f ltac:(lia) Hf). discriminate.
      * apply (F2 j f); [lia | congruence].
    + exists (out1 ++ out2). rewrite O2, O1, app_assoc. reflexivity.
  - destruct (Hm _ _ _ H1) as (E1 & C1 & F1 & O1 & R1).
    repeat split; try assumption.
    + intros j f Hj Hf. specialize (F1 j f Hj Hf). congruence.
    + congruence.
Qed.

Lemma sound_bind {A B} (m : M A) (k : A -> M B) :
  sound m -> (forall a, sound (k a)) -> sound (bind m k).
Proof. intros Hm Hk. apply sound_bind_result; auto. Qed.

Lemma sound_for_range (n : nat) (body : M unit) :
  sound body -> sound (for_range n body).
Proof.
  intros Hb. induction n as [| n IH]; cbn [for_range].
  - apply sound_ret.
  - apply sound_bind; [exact Hb | intros _; exact IH].
Qed.

Lemma sound_generators :
  sound current_clock_sequence /\ sound clockseq_secrets /\
  sound clockseq_urandom /\ sound clockseq_urandom_optimized.
Proof.
  unfold current_clock_sequence, clockseq_secrets, clockseq_urandom,
    clockseq_urandom_optimized.
  change (random.getrandbits 14)
    with (bind random.genrand_uint32 (fun r => ret (Z.shiftr r (32 - 14)))).
  change (secrets.randbits 14)
    with (bind (os.urandom 2)
            (fun bs => ret (Z.shiftr (pyint.from_bytes bs pyint.big false)
                                     (2 * 8 - 14)))).
  split; [| split; [| split]];
    (apply sound_bind; [apply sound_invoked | intros _]);
    (apply sound_bind;
     [first [apply sound_genrand_uint32 | apply sound_urandom]
     | intros ?; apply sound_ret]).
Qed.

Lemma sound_warmup_round : sound warmup_round.
Proof.
  destruct sound_generators as (H1 & H2 & H3 & H4). unfold warmup_round.
  repeat (apply sound_bind; [assumption | intros _]). apply sound_ret.
Qed.

Lemma sound_warmup (G : globals) : sound (warmup G).
Proof.
  unfold warmup. apply sound_bind; [apply sound_print | intros _].
  apply sound_for_range, sound_warmup_round.
Qed.

Lemma sound_Timer (stmt : string) : sound (Timer stmt).
Proof.
  destruct sound_generators as (H1 & H2 & H3 & H4).
  destruct (generator_of_cases stmt)
    as [[_ ->] | [[_ ->] | [[_ ->] | [[_ ->] | [_ ->]]]]];
    try (apply sound_bind; [assumption | intros _; apply sound_ret]).
  apply sound_raise. discriminate.
Qed.

Lemma sound_itertools_repeat (times : Z) : sound (itertools.repeat times).
Proof.
  unfold itertools.repeat. destruct (pyint.fits_ssize_t times).
  - apply sound_ret.
  - apply sound_raise. discriminate.
Qed.

Lemma sound_timeit (stmt : M unit) (number : Z) :
  sound stmt -> sound (timeit.timeit stmt number).
Proof.
  intros Hs. unfold timeit.timeit.
  apply sound_bind; [apply sound_itertools_repeat | intros it].
  apply sound_bind; [apply sound_default_timer | intros t0].
  apply sound_bind; [apply sound_for_range, Hs | intros _].
  apply sound_bind; [apply sound_default_timer | intros t1].
  apply sound_ret.
Qed.

Lemma sound_repeat (stmt : M unit) (repeat number : Z) :
  sound stmt -> sound (timeit.repeat stmt repeat number).
Proof.
  intros Hs. unfold timeit.repeat. generalize (@nil float).
  induction (Z.to_nat repeat) as [| n IH]; intros r; cbn [timeit.repeat_from].
  - apply sound_ret.
  - apply sound_bind; [apply sound_timeit, Hs | intros t; apply IH].
Qed.

(** The metrics of a five-sample set never fail with [StatisticsError]. *)
Lemma sound_summarize_five (times : list float) (iterations : Z) :
  List.length times = 5%nat -> sound (lift (summarize times iterations)).
Proof.
  intros L. apply sound_neutral. intros w. cbn.
  repeat split; try (exists []; now rewrite app_nil_r).
  intros H. apply summarize_StatisticsError in H. lia.
Qed.

Lemma sound_benchmark_case (G : globals) (results : dict) (case : string * string) :
  sound (benchmark_case G results case).
Proof.
  destruct case as [name stmt]. unfold benchmark_case.
  apply sound_bind; [apply sound_print | intros _].
  apply sound_bind_result; [apply sound_repeat, sound_Timer |].
  intros times w w1 Hr. apply repeat_length in Hr.
  apply sound_bind; [apply sound_summarize_five, Hr | intros r].
  apply sound_bind; [apply sound_print | intros _].
  apply sound_bind; [apply sound_print | intros _].
  apply sound_ret.
Qed.

Lemma sound_benchmark_cases (G : globals) (cases : list (string * string)) :
  forall results, sound (benchmark_cases G cases results).
Proof.
  induction cases as [| case cases IH]; intros results; cbn [benchmark_cases].
  - apply sound_ret.
  - apply sound_bind; [apply sound_benchmark_case | intros d; apply IH].
Qed.

Lemma sound_measure (G : globals) : sound (measure G).
Proof.
  unfold measure.
  apply sound_bind; [neutral | intros v].
  apply sound_bind; [apply sound_print | intros _].
  apply sound_bind; [apply sound_print | intros _].
  apply sound_bind; [apply sound_warmup | intros _].
  apply sound_benchmark_cases.
Qed.

Lemma sound_print_summary (results : dict) : sound (print_summary results).
Proof.
  apply sound_neutral. intros w. rewrite print_summary_run. cbn.
  repeat split; try discriminate. eexists. reflexivity.
Qed.

Lemma sound_run_benchmark (G : globals) : sound (run_benchmark G).
Proof.
  unfold run_benchmark.
  apply sound_bind; [apply sound_measure | apply sound_print_summary].
Qed.

(** ** Exceptions *)

Lemma for_range_raise (body : M unit) (i : nat) :
  forall n w w1 e w',
    (i < n)%nat ->
    for_range i body w = (Ok tt, w1) ->
    body w1 = (Raise e, w') ->
    for_range n body w = (Raise e, w').
Proof.
  induction i as [| i IH]; intros n w w1 e w' Hn Hi Hb.
  - cbn in Hi. unfold ret in Hi. assert (w1 = w) as -> by congruence.
    destruct n as [| n]; [lia |]. cbn [for_range].
    apply bind_raise. exact Hb.
  - destruct n as [| n]; [lia |]. cbn [for_range] in *.
    apply bind_ok_inv in Hi. destruct Hi as [[] [w2 [H1 H2]]].
    rewrite (bind_ok _ _ _ _ _ H1). apply (IH n w2 w1); [lia | assumption..].
Qed.

Lemma timeit_raise (stmt : M unit) (number : Z) (w : world) (e : exn) (w' : world) :
  pyint.fits_ssize_t number = true ->
  for_range (Z.to_nat number) stmt (set_clock_count (clock_count w + 1) w)
  = (Raise e, w') ->
  timeit.timeit stmt number w = (Raise e, w').
Proof.
  intros F H. unfold timeit.timeit.
  rewrite (bind_ok _ _ _ _ _ (itertools_repeat_ok number w F)).
  unfold bind at 1, timeit.default_timer.
  apply bind_raise. exact H.
Qed.

(** A count that does not fit a [Py_ssize_t] stops [Timer.timeit] before
    the first reading of the timer. *)
Lemma timeit_overflow (stmt : M unit) (number : Z) (w : world) :
  pyint.fits_ssize_t number = false ->
  timeit.timeit stmt number w = (Raise OverflowError, w).
Proof.
  intros F. unfold timeit.timeit. apply bind_raise.
  unfold itertools.repeat. rewrite F. reflexivity.
Qed.

Lemma measure_unfold (G : globals) (w : world) :
  measure G w
  = bind (warmup G) (fun _ => benchmark_cases G TEST_CASES []) (after_banner G w).
Proof.
  unfold measure, after_banner, bind at 1.
  rewrite (bind_ok _ _ _ _ _ (print_ascii (VersionLine (sys_version w)) w eq_refl)).
  rewrite (bind_ok _ _ _ _ _
             (print_ascii (IterationsLine (NUM_ITERATIONS G)) _ eq_refl)).
  unfold set_stdout. cbn. rewrite <- app_assoc. reflexivity.
Qed.

Lemma warmup_raise (G : globals) (w : world) (e : exn) (w' : world) :
  warmup G (after_banner G w) = (Raise e, w') ->
  run_benchmark G w = (Raise e, w').
Proof.
  intros H. unfold run_benchmark. apply bind_raise.
  rewrite measure_unfold. apply bind_raise. exact H.
Qed.

Lemma benchmark_cases_raise (G : globals) (pre : list (string * string)) :
  forall case post results w results1 w1 e w',
    benchmark_cases G pre results w = (Ok results1, w1) ->
    benchmark_case G results1 case w1 = (Raise e, w') ->
    benchmark_cases G (pre ++ case :: post) results w = (Raise e, w').
Proof.
  induction pre as [| c pre IH]; intros case post results w results1 w1 e w' Hp Hc.
  - cbn in Hp. unfold ret in Hp.
    assert (results1 = results /\ w1 = w) as [-> ->] by (split; congruence).
    cbn [app benchmark_cases]. apply bind_raise. exact Hc.
  - cbn [app benchmark_cases] in *.
    apply bind_ok_inv in Hp. destruct Hp as [d [w2 [H1 H2]]].
    rewrite (bind_ok _ _ _ _ _ H1). eapply IH; eassumption.
Qed.

Lemma test_case_raise (G : globals) (w w1 : world)
  (pre : list (string * string)) (case : string * string)
  (post : list (string * string)) (results : dict) (w2 : world)
  (e : exn) (w' : world) :
  TEST_CASES = pre ++ case :: post ->
  warmup G (after_banner G w) = (Ok tt, w1) ->
  benchmark_cases G pre [] w1 = (Ok results, w2) ->
  benchmark_case G results case w2 = (Raise e, w') ->
  run_benchmark G w = (Raise e, w').
Proof.
  intros Ht Hw Hp Hc. unfold run_benchmark. apply bind_raise.
  rewrite measure_unfold, (bind_ok _ _ _ _ _ Hw), Ht.
  eapply benchmark_cases_raise; eassumption.
Qed.

Lemma repeat_raise (G : globals) (results : dict) (name stmt : string)
  (w : world) (e : exn) (w' : world) :
  timeit.repeat (Timer stmt) 5 (NUM_ITERATIONS G)
    (set_stdout (stdout w ++ [BenchmarkingLine name]) w) = (Raise e, w') ->
  benchmark_case G results (name, stmt) w = (Raise e, w').
Proof.
  intros H. unfold benchmark_case.
  rewrite (bind_ok _ _ _ _ _ (print_ascii (BenchmarkingLine name) w eq_refl)).
  apply bind_raise. exact H.
Qed.

Lemma summarize_raise (G : globals) (results : dict) (name stmt : string)
  (w : world) (times : list float) (e : exn) (w' : world) :
  timeit.repeat (Timer stmt) 5 (NUM_ITERATIONS G)
    (set_stdout (stdout w ++ [BenchmarkingLine name]) w) = (Ok times, w') ->
  summarize times (NUM_ITERATIONS G) = Raise e ->
  benchmark_case G results (name, stmt) w = (Raise e, w').
Proof.
  intros H Hs. unfold benchmark_case.
  rewrite (bind_ok _ _ _ _ _ (print_ascii (BenchmarkingLine name) w eq_refl)).
  rewrite (bind_ok _ _ _ _ _ H). apply bind_raise. unfold lift. rewrite Hs.
  reflexivity.
Qed.

Lemma average_line_raise (G : globals) (results : dict) (name stmt : string)
  (w : world) (times : list float) (r : metrics) (w' : world) :
  timeit.repeat (Timer stmt) 5 (NUM_ITERATIONS G)
    (set_stdout (stdout w ++ [BenchmarkingLine name]) w) = (Ok times, w') ->
  summarize times (NUM_ITERATIONS G) = Ok r ->
  stdout_unicode w' = false ->
  benchmark_case G results (name, stmt) w = (Raise UnicodeEncodeError, w').
Proof.
  intros H Hs Hu. unfold benchmark_case.
  rewrite (bind_ok _ _ _ _ _ (print_ascii (BenchmarkingLine name) w eq_refl)).
  rewrite (bind_ok _ _ _ _ _ H). unfold lift, bind at 1. rewrite Hs.
  apply bind_raise. unfold print. rewrite Hu. reflexivity.
Qed.

(** C7. Nothing in the benchmark catches an exception.  The exit status
    is zero exactly when the run completes; a failed entropy request of a
    generator is the outcome of the run; an exception in a warmup round,
    in a timed loop, in [Timer.repeat] or in the metrics of any test case
    ends the run with that exception, in the world where it was raised.
    So do the two exceptions of the harness itself: the [OverflowError]
    of [Timer.timeit] for a count that does not fit, and the
    [UnicodeEncodeError] of line 65 on a standard output that cannot
    encode it. *)
Theorem exceptions_propagate :
  (forall G w, exit_status (fst (run_benchmark G w)) = 0 <->
               fst (run_benchmark G w) = Ok tt) /\
  (forall G w e, fst (run_benchmark G w) = Raise e ->
                 exit_status (fst (run_benchmark G w)) = 1) /\
  (forall G w k f,
      os_count w <= k < os_count (snd (run_benchmark G w)) ->
      os_error w k = Some f ->
      fst (run_benchmark G w) = Raise (exn_of_os_failure f)) /\
  (forall body i n w w1 e w',
      (i < n)%nat -> for_range i body w = (Ok tt, w1) ->
      body w1 = (Raise e, w') -> for_range n body w = (Raise e, w')) /\
  (forall stmt number w e w',
      pyint.fits_ssize_t number = true ->
      for_range (Z.to_nat number) stmt (set_clock_count (clock_count w + 1) w)
      = (Raise e, w') ->
      timeit.timeit stmt number w = (Raise e, w')) /\
  (forall G w e w',
      warmup G (after_banner G w) = (Raise e, w') ->
      run_benchmark G w = (Raise e, w')) /\
  (forall G w w1 pre case post results w2 e w',
      TEST_CASES = pre ++ case :: post ->
      warmup G (after_banner G w) = (Ok tt, w1) ->
      benchmark_cases G pre [] w1 = (Ok results, w2) ->
      benchmark_case G results case w2 = (Raise e, w') ->
      run_benchmark G w = (Raise e, w')) /\
  (forall G results name stmt w e w',
      timeit.repeat (Timer stmt) 5 (NUM_ITERATIONS G)
        (set_stdout (stdout w ++ [BenchmarkingLine name]) w) = (Raise e, w') ->
      benchmark_case G results (name, stmt) w = (Raise e, w')) /\
  (forall G results name stmt w times e w',
      timeit.repeat (Timer stmt) 5 (NUM_ITERATIONS G)
        (set_stdout (stdout w ++ [BenchmarkingLine name]) w) = (Ok times, w') ->
      summarize times (NUM_ITERATIONS G) = Raise e ->
      benchmark_case G results (name, stmt) w = (Raise e, w')) /\
  (forall stmt number w,
      pyint.fits_ssize_t number = false ->
      timeit.timeit stmt number w = (Raise OverflowError, w)) /\
  (forall G results name stmt w times r w',
      timeit.repeat (Timer stmt) 5 (NUM_ITERATIONS G)
        (set_stdout (stdout w ++ [BenchmarkingLine name]) w) = (Ok times, w') ->
      summarize times (NUM_ITERATIONS G) = Ok r ->
      stdout_unicode w' = false ->
      benchmark_case G results (name, stmt) w = (Raise UnicodeEncodeError, w')).
Proof.
  split; [| split; [| split; [| split; [| split; [| split; [| split; [| split;
    [| split; [| split]]]]]]]]].
  - intros G w. destruct (fst (run_benchmark G w)) as [[] | e]; cbn;
      split; intros H; try reflexivity; discriminate.
  - intros G w e ->. reflexivity.
  - intros G w k f Hk Hf.
    destruct (run_benchmark G w) as [r w'] eqn:E. cbn [fst snd] in *.
    destruct (sound_run_benchmark G _ _ _ E) as (_ & _ & F & _).
    exact (F k f Hk Hf).
  - intros body i n w w1 e w'. apply for_range_raise.
  - apply timeit_raise.
  - apply warmup_raise.
  - apply test_case_raise.
  - apply repeat_raise.
  - apply summarize_raise.
  - apply timeit_overflow.
  - apply average_line_raise.
Qed.

Lemma stdev_failures (ts : list float) (e : exn) :
  (2 <= List.length ts)%nat ->
  statistics.stdev ts = Raise e ->
  e = AttributeError \/ e = OverflowError.
Proof.
  intros L. unfold statistics.stdev, statistics.count.
  destruct (Z.ltb_spec (Z.of_nat (List.length ts)) 2) as [C | _]; [lia |].
  destruct (statistics._ss ts) as [s | f]; intros H.
  - unfold statistics._float_sqrt_of_frac in H.
    destruct (0 <=? _); apply int_truediv_raises in H; right; exact H.
  - left. congruence.
Qed.

(** C9. [stdev] is never short of data, and it returns on the samples of
    a run.  [Timer.repeat] is asked for five repeats and returns five
    samples, on which neither [mean] nor [stdev] takes its error branch
    for too few data points, so that no run ends with a
    [StatisticsError].  On two or more finite samples below [2^1000] in
    magnitude, which differences of readings of the performance counter
    are, [mean] and [stdev] return a float; so does [stdev] on such
    samples returned by [Timer.repeat].  Finiteness is what the result
    rests on: on five samples the only failures of [stdev] are
    [AttributeError], for a sample that is an infinity or a NaN, and
    [OverflowError], for a deviation beyond the binary64 range. *)
Theorem stdev_gets_five_samples :
  (forall stmt number w ts w',
      timeit.repeat stmt 5 number w = (Ok ts, w') -> List.length ts = 5%nat) /\
  (forall ts, List.length ts = 5%nat ->
              statistics.stdev ts <> Raise StatisticsError /\
              statistics.mean ts <> Raise StatisticsError) /\
  (forall ts, (List.length ts < 2)%nat ->
              statistics.stdev ts = Raise StatisticsError) /\
  (forall G w, fst (run_benchmark G w) <> Raise StatisticsError) /\
  (forall ts, (2 <= List.length ts)%nat ->
              Forall (fun x => moderate x = true) ts ->
              (exists s, statistics.stdev ts = Ok s) /\
              (exists m, statistics.mean ts = Ok m)) /\
  (forall stmt number w ts w',
      timeit.repeat stmt 5 number w = (Ok ts, w') ->
      Forall (fun x => moderate x = true) ts ->
      exists s, statistics.stdev ts = Ok s) /\
  (forall ts e, List.length ts = 5%nat ->
                statistics.stdev ts = Raise e ->
                e = AttributeError \/ e = OverflowError).
Proof.
  split; [| split; [| split; [| split; [| split; [| split]]]]].
  - intros stmt number w ts w' H. apply repeat_length in H. exact H.
  - intros ts L. split; intros H.
    + apply stdev_StatisticsError in H. lia.
    + apply mean_StatisticsError in H. lia.
  - apply stdev_guard.
  - intros G w. destruct (run_benchmark G w) as [r w'] eqn:E.
    destruct (sound_run_benchmark G _ _ _ E) as (_ & _ & _ & _ & R). exact R.
  - intros ts L F. split.
    + apply stdev_total; assumption.
    + apply mean_total; [lia | assumption].
  - intros stmt number w ts w' H F. apply repeat_length in H.
    apply stdev_total; [lia | assumption].
  - intros ts e L. apply stdev_failures. lia.
Qed.

(** A sample that is not finite is enough for [stdev] to fail. *)
Remark stdev_of_infinite_sample :
  statistics.stdev [infinity; 0; 0; 0; 0]%float = Raise AttributeError.
Proof. reflexivity. Qed.

(** ** Runs that complete *)

Lemma completes_ret {A} (a : A) : completes (ret a).
Proof. intros w H. exists a, w. split; [reflexivity | exact H]. Qed.

Lemma completes_bind {A B} (m : M A) (k : A -> M B) :
  completes m -> (forall a, completes (k a)) -> completes (bind m k).
Proof.
  intros Hm Hk w H. destruct (Hm w H) as [a [w1 [E1 H1]]].
  destruct (Hk a w1 H1) as [b [w2 [E2 H2]]].
  exists b, w2. split; [| exact H2]. rewrite (bind_ok _ _ _ _ _ E1). exact E2.
Qed.

Lemma completes_for_range (n : nat) (body : M unit) :
  completes body -> completes (for_range n body).
Proof.
  intros Hb. induction n as [| n IH]; cbn [for_range].
  - apply completes_ret.
  - apply completes_bind; [exact Hb | intros _; exact IH].
Qed.

Lemma completes_print (l : line) : non_ascii l = false -> completes (print l).
Proof.
  intros Hl w H. eexists. eexists.
  split; [apply print_ascii, Hl | exact H].
Qed.

Lemma completes_invoked (g : generator) : completes (invoked g).
Proof. intros w H. eexists. eexists. split; [reflexivity | exact H]. Qed.

Lemma completes_default_timer : completes timeit.default_timer.
Proof. intros w H. eexists. eexists. split; [reflexivity | exact H]. Qed.

Lemma completes_genrand_uint32 : completes random.genrand_uint32.
Proof. intros w H. eexists. eexists. split; [reflexivity | exact H]. Qed.

Lemma completes_urandom_2 : completes (os.urandom 2).
Proof.
  intros w H. unfold os.urandom. cbn [Z.ltb Z.compare].
  rewrite (H (os_count w)).
  eexists. eexists. split; [reflexivity | exact H].
Qed.

Lemma completes_generators :
  completes current_clock_sequence /\ completes clockseq_secrets /\
  completes clockseq_urandom /\ completes clockseq_urandom_optimized.
Proof.
  unfold current_clock_sequence, clockseq_secrets, clockseq_urandom,
    clockseq_urandom_optimized.
  change (random.getrandbits 14)
    with (bind random.genrand_uint32 (fun r => ret (Z.shiftr r (32 - 14)))).
  change (secrets.randbits 14)
    with (bind (os.urandom 2)
            (fun bs => ret (Z.shiftr (pyint.from_bytes bs pyint.big false)
                                     (2 * 8 - 14)))).
  split; [| split; [| split]];
    (apply completes_bind; [apply completes_invoked | intros _]);
    (apply completes_bind;
     [first [apply completes_genrand_uint32 | apply completes_urandom_2]
     | intros ?; apply completes_ret]).
Qed.

Lemma completes_warmup (G : globals) : completes (warmup G).
Proof.
  destruct completes_generators as (H1 & H2 & H3 & H4).
  unfold warmup.
  apply completes_bind; [apply completes_print; reflexivity | intros _].
  apply completes_for_range. unfold warmup_round.
  repeat (apply completes_bind; [assumption | intros _]). apply completes_ret.
Qed.

Lemma completes_Timer (stmt : string) (g : generator) :
  generator_of stmt = Some g -> completes (Timer stmt).
Proof.
  intros Hg. destruct completes_generators as (H1 & H2 & H3 & H4).
  destruct (generator_of_cases stmt)
    as [[_ ->] | [[_ ->] | [[_ ->] | [[_ ->] | [E _]]]]];
    try (apply completes_bind; [assumption | intros _; apply completes_ret]).
  congruence.
Qed.

Lemma completes_repeat (stmt : M unit) (repeat number : Z) :
  pyint.fits_ssize_t number = true ->
  completes stmt -> completes (timeit.repeat stmt repeat number).
Proof.
  intros F Hs. unfold timeit.repeat. generalize (@nil float).
  induction (Z.to_nat repeat) as [| n IH]; intros r; cbn [timeit.repeat_from].
  - apply completes_ret.
  - apply completes_bind; [| intros t; apply IH].
    unfold timeit.timeit, itertools.repeat. rewrite F.
    apply completes_bind; [apply completes_ret | intros it].
    apply completes_bind; [apply completes_default_timer | intros t0].
    apply completes_bind; [apply completes_for_range, Hs | intros _].
    apply completes_bind; [apply completes_default_timer | intros t1].
    apply completes_ret.
Qed.

Lemma benchmark_case_completes (G : globals) (results : dict)
  (name stmt : string) (g : generator) (w : world) :
  generator_of stmt = Some g -> healthy w ->
  pyint.fits_ssize_t (NUM_ITERATIONS G) = true ->
  (exists r, summarize (samples w (clock_count w)) (NUM_ITERATIONS G) = Ok r) ->
  exists results' w',
    benchmark_case G results (name, stmt) w = (Ok results', w') /\ healthy w'.
Proof.
  intros Hg [H U] F [r Hr]. unfold benchmark_case.
  rewrite (bind_ok _ _ _ _ _ (print_ascii (BenchmarkingLine name) w eq_refl)).
  set (w1 := set_stdout (stdout w ++ [BenchmarkingLine name]) w).
  assert (entropy_available w1) as H1 by exact H.
  destruct (completes_repeat (Timer stmt) 5 (NUM_ITERATIONS G) F
              (completes_Timer stmt g Hg) w1 H1) as [times [w2 [E2 H2]]].
  assert (f_clock (fp_call g) = 0) as Hc by (destruct g; reflexivity).
  destruct (repeat_ok (Timer stmt) (NUM_ITERATIONS G) (fp_call g) _ _ _
              (on_success_Timer stmt g Hg) Hc E2)
    as [-> ((_ & _ & _ & _ & _ & U2) & _)].
  change (stdout_unicode w1) with (stdout_unicode w) in U2.
  change (samples w1 (clock_count w1)) with (samples w (clock_count w)) in E2.
  rewrite (bind_ok _ _ _ _ _ E2). unfold lift, bind at 1. rewrite Hr.
  rewrite (bind_ok _ _ _ _ _ (print_unicode _ w2 ltac:(congruence))).
  rewrite (bind_ok _ _ _ _ _ (print_ascii (OpsLine (ops_per_sec r)) _ eq_refl)).
  eexists. eexists. split; [reflexivity |].
  split; [exact H2 | cbn [stdout_unicode set_stdout]; congruence].
Qed.

Lemma measure_completes (G : globals) (w : world) :
  healthy w -> pyint.fits_ssize_t (NUM_ITERATIONS G) = true ->
  measurable G w ->
  exists results w', measure G w = (Ok results, w').
Proof.
  intros [H U] F Hm. rewrite measure_unfold.
  assert (entropy_available (after_banner G w)) as Hb by exact H.
  destruct (completes_warmup G _ Hb) as [[] [w1 [Ew Hw1]]].
  rewrite (bind_ok _ _ _ _ _ Ew).
  pose proof (on_success_warmup G _ _ _ Ew) as A1.
  assert (clock w1 = clock w /\ clock_count w1 = clock_count w /\
          stdout_unicode w1 = true) as (S1 & C1 & U1).
  { destruct A1 as ((_ & _ & _ & _ & S & V) & _ & _ & C & _).
    cbn [fp_scale fp_warmup_round f_clock] in C. split; [exact S | ].
    cbn [after_banner clock_count stdout_unicode set_stdout] in C, V.
    split; [lia | congruence]. }
  assert (healthy w1) as H1 by (split; assumption).
  unfold TEST_CASES. cbn [benchmark_cases].
  destruct (benchmark_case_completes G [] "current (random.getrandbits)"
              "current_clock_sequence()" gen_current w1 eq_refl H1 F)
    as [d0 [w2 [E0 H2]]].
  { rewrite (samples_same_clock _ _ _ S1), C1.
    replace (clock_count w) with (clock_count w + 0) by lia.
    apply Hm. cbn. tauto. }
  rewrite (bind_ok _ _ _ _ _ E0).
  destruct (benchmark_case_ok G _ _ "current_clock_sequence()"%string gen_current _ _ _ eq_refl E0) as [_ B0].
  destruct B0 as ((_ & _ & _ & _ & S2 & _) & _ & _ & C2 & _).
  cbn [fp_add fp_scale fp_clock fp_call f_clock] in C2.
  destruct (benchmark_case_completes G d0 "secrets.getrandbits"
              "clockseq_secrets()" gen_secrets w2 eq_refl H2 F)
    as [d1 [w3 [E1 H3]]].
  { rewrite (samples_same_clock w w2) by congruence.
    replace (clock_count w2) with (clock_count w + 10) by lia.
    apply Hm. cbn. tauto. }
  rewrite (bind_ok _ _ _ _ _ E1).
  destruct (benchmark_case_ok G _ _ "clockseq_secrets()"%string gen_secrets _ _ _ eq_refl E1) as [_ B1].
  destruct B1 as ((_ & _ & _ & _ & S3 & _) & _ & _ & C3 & _).
  cbn [fp_add fp_scale fp_clock fp_call f_clock] in C3.
  destruct (benchmark_case_completes G d1 "os.urandom"
              "clockseq_urandom()" gen_urandom w3 eq_refl H3 F)
    as [d2 [w4 [E2 H4]]].
  { rewrite (samples_same_clock w w3) by congruence.
    replace (clock_count w3) with (clock_count w + 20) by lia.
    apply Hm. cbn. tauto. }
  rewrite (bind_ok _ _ _ _ _ E2).
  destruct (benchmark_case_ok G _ _ "clockseq_urandom()"%string gen_urandom _ _ _ eq_refl E2) as [_ B2].
  destruct B2 as ((_ & _ & _ & _ & S4 & _) & _ & _ & C4 & _).
  cbn [fp_add fp_scale fp_clock fp_call f_clock] in C4.
  destruct (benchmark_case_completes G d2 "os.urandom_optimized"
              "clockseq_urandom_optimized()" gen_urandom_optimized w4 eq_refl H4 F)
    as [d3 [w5 [E3 H5]]].
  { rewrite (samples_same_clock w w4) by congruence.
    replace (clock_count w4) with (clock_count w + 30) by lia.
    apply Hm. cbn. tauto. }
  rewrite (bind_ok _ _ _ _ _ E3).
  exists d3, w5. reflexivity.
Qed.

(** A run completes when the environment never fails, the iteration
    count fits the harness and the four sample sets have metrics. *)
Lemma run_benchmark_completes (G : globals) (w : world) :
  healthy w -> pyint.fits_ssize_t (NUM_ITERATIONS G) = true ->
  measurable G w ->
  exists w', run_benchmark G w = (Ok tt, w').
Proof.
  intros H F Hm. destruct (measure_completes G w H F Hm) as [results [wm E]].
  unfold run_benchmark. rewrite (bind_ok _ _ _ _ _ E), print_summary_run.
  eexists. reflexivity.
Qed.

(** The script's own configuration completes on the demonstration world. *)
Lemma main_completes :
  exists w', run_benchmark module_globals demo_world = (Ok tt, w').
Proof.
  apply run_benchmark_completes.
  - split; [intros k |]; reflexivity.
  - reflexivity.
  - intros start Hs. cbn in Hs.
    destruct Hs as [<- | [<- | [<- | [<- | []]]]];
      eexists; vm_compute; reflexivity.
Qed.

(** ** The configuration *)



(** ** The theorems at concrete inputs *)

Lemma generators_return_14_bits_witness :
  clockseq_urandom demo_world = (Ok 16383, snd (clockseq_urandom demo_world)) /\
  0 <= 16383 <= 16383.
Proof.
  assert (clockseq_urandom demo_world
          = (Ok 16383, snd (clockseq_urandom demo_world))) as H by reflexivity.
  split; [exact H |].
  exact (generators_return_14_bits demo_world _ 16383
           (or_intror (or_intror (or_introl H)))).
Defined.

Lemma urandom_masks_big_endian_uniformly_witness :
  exists l : list (byte * byte),
    NoDup l /\ List.length l = 4%nat /\
    forall w, os_error w (os_count w) = None ->
      (fst (clockseq_urandom w) = Ok 5 <-> In (next_pair w) l).
Proof.
  apply (proj2 urandom_masks_big_endian_uniformly 5). lia.
Defined.

Lemma summarize_formulas_witness :
  exists m s n,
    statistics.mean example_totals = Ok m /\
    statistics.stdev example_totals = Ok s /\
    pyfloat.of_int 1000000 = Ok n /\
    (n =? 0)%float = false /\ (m =? 0)%float = false /\
    {| avg_ns := 100.00000000000001;
       stddev_ns := 7.0710678118654755;
       ops_per_sec := 10000000 |}
    = {| avg_ns := (m / n * 1e9)%float;
         stddev_ns := (s / n * 1e9)%float;
         ops_per_sec := (n / m)%float |}.
Proof.
  exact (proj1 (proj1 summarize_formulas example_totals 1000000 _)
           summarize_example).
Defined.

Lemma table_is_sorted_by_average_witness :
  StronglySorted avg_le (table_rows example_results).
Proof.
  apply (proj1 (proj2 (proj1 table_is_sorted_by_average example_results))).
  repeat constructor.
Defined.

Lemma warmup_calls_are_not_measured_witness :
  exists w',
    run_benchmark module_globals demo_world = (Ok tt, w') /\
    invocations w' gen_urandom
    = invocations demo_world gen_urandom + 100 + 5 * 1000000.
Proof.
  destruct main_completes as [w' H]. exists w'. split; [exact H |].
  exact (proj1 (proj1 (proj2 (proj2
           (warmup_calls_are_not_measured module_globals demo_world w' H)))
           eq_refl) gen_urandom).
Defined.

Lemma exceptions_propagate_witness :
  fst (run_benchmark demo_globals failing_world) = Raise OSError.
Proof.
  assert (os_count (snd (run_benchmark demo_globals failing_world)) = 6) as E
      by (vm_compute; reflexivity).
  apply (proj1 (proj2 (proj2 exceptions_propagate))
           demo_globals failing_world 5 source_unreadable).
  - rewrite E. cbn. lia.
  - reflexivity.
Defined.

Lemma stdev_gets_five_samples_witness :
  (statistics.stdev example_totals <> Raise StatisticsError /\
   statistics.mean example_totals <> Raise StatisticsError) /\
  (exists s, statistics.stdev example_totals = Ok s) /\
  (exists m, statistics.mean example_totals = Ok m).
Proof.
  split.
  - apply (proj1 (proj2 stdev_gets_five_samples) example_totals). reflexivity.
  - apply (proj1 (proj2 (proj2 (proj2 (proj2 stdev_gets_five_samples))))
             example_totals).
    + cbn. lia.
    + repeat constructor.
Defined.


(** * Further properties of the script *)

(** ** The generators, one by one *)

Lemma preimages_top_spec (v : Z) (p : byte * byte) :
  0 <= v <= 16383 -> (In p (preimages_top v) <-> pair_value p / 4 = v).
Proof.
  intros Hv. unfold preimages_top. split.
  - intros H. apply in_map_iff in H. destruct H as [j [<- Hj]].
    assert (0 <= j <= 3) by (cbn in Hj; lia).
    rewrite pair_value_of by lia.
    symmetry. apply (Z.div_unique (4 * v + j) 4 v j); lia.
  - intros H. pose proof (pair_value_range p) as R.
    pose proof (Z.div_mod (pair_value p) 4 ltac:(lia)) as D.
    pose proof (Z.mod_pos_bound (pair_value p) 4 ltac:(lia)) as B.
    apply in_map_iff. exists (pair_value p mod 4). split.
    + apply pair_value_inj. rewrite pair_value_of by lia. lia.
    + cbn. lia.
Qed.

Lemma preimages_top_NoDup (v : Z) : 0 <= v <= 16383 -> NoDup (preimages_top v).
Proof.
  intros Hv.
  assert (forall l, NoDup l -> Forall (fun j => 0 <= j <= 3) l ->
                    NoDup (map (fun j => pair_of (4 * v + j)) l)) as G.
  { induction 1 as [| j l Hj Hl IH]; intros F; cbn [map]; constructor.
    - inversion F; subst. intros I. apply in_map_iff in I.
      destruct I as [i [E Hi]].
      assert (0 <= i <= 3) by (rewrite Forall_forall in F; apply F; now right).
      apply (f_equal pair_value) in E. rewrite !pair_value_of in E by lia.
      assert (i = j) by lia. subst. contradiction.
    - apply IH. now inversion F. }
  apply G.
  - repeat constructor; cbn; lia.
  - repeat constructor; lia.
Qed.

(** X1. [clockseq_secrets] keeps the high 14 bits of its two entropy
    bytes, [(256*b0 + b1) / 4] rounded down, where [clockseq_urandom]
    keeps the low 14; every value from 0 to 16383 is the image of exactly
    four byte pairs, so it is uniform on uniform bytes as well. *)
Theorem secrets_keeps_high_bits_uniformly :
  (forall w, os_error w (os_count w) = None ->
     fst (clockseq_secrets w)
     = Ok ((256 * pyint.byte_value (os_byte w (os_count w) 0%nat)
            + pyint.byte_value (os_byte w (os_count w) 1%nat)) / 4)) /\
  (forall v, 0 <= v <= 16383 ->
     exists l : list (byte * byte),
       NoDup l /\ List.length l = 4%nat /\
       forall w, os_error w (os_count w) = None ->
         (fst (clockseq_secrets w) = Ok v <-> In (next_pair w) l)).
Proof.
  assert (forall w, os_error w (os_count w) = None ->
            fst (clockseq_secrets w) = Ok (pair_value (next_pair w) / 4)) as R.
  { intros w H. destruct (clockseq_secrets_run w) as [w' E].
    rewrite E, H. cbn [fst]. rewrite Z.shiftr_div_pow2 by lia. reflexivity. }
  split.
  - intros w H. rewrite (R w H). reflexivity.
  - intros v Hv. exists (preimages_top v). split; [| split].
    + now apply preimages_top_NoDup.
    + reflexivity.
    + intros w H. rewrite (R w H), preimages_top_spec by assumption.
      split; [intros X; congruence | intros ->; reflexivity].
Qed.

(** X2. [current_clock_sequence] never fails and returns the high 14 bits
    of the 32-bit word it draws from the Mersenne Twister: it returns [v]
    exactly when the word lies in the block of [2^18] words that starts at
    [v * 2^18]. *)
Theorem current_clock_sequence_keeps_high_bits (w : world) (v : Z) :
  (exists v0, fst (current_clock_sequence w) = Ok v0) /\
  (fst (current_clock_sequence w) = Ok v <->
   v * 262144 <= mt_word w (mt_count w) mod 2 ^ 32 < (v + 1) * 262144).
Proof.
  destruct (current_clock_sequence_run w) as [w' E]. rewrite E. cbn [fst].
  split; [eexists; reflexivity |].
  rewrite Z.shiftr_div_pow2 by lia. change (2 ^ 18) with 262144.
  set (x := mt_word w (mt_count w) mod 2 ^ 32).
  pose proof (Z.div_mod x 262144 ltac:(lia)) as D.
  pose proof (Z.mod_pos_bound x 262144 ltac:(lia)) as B.
  split.
  - intros H. assert (x / 262144 = v) by congruence. lia.
  - intros H. f_equal. symmetry.
    apply (Z.div_unique x 262144 v (x - v * 262144)); lia.
Qed.

(** X3. What a call costs and how it fails.  [current_clock_sequence]
    draws one word and makes no entropy request.  Each of the three other
    generators makes exactly one entropy request, also when it fails,
    draws no word, returns normally exactly when the request is answered
    and otherwise raises the failure of the request.  No generator reads
    the timer or prints. *)
Theorem generator_calls (w : world) :
  (mt_count (snd (current_clock_sequence w)) = mt_count w + 1 /\
   os_count (snd (current_clock_sequence w)) = os_count w /\
   clock_count (snd (current_clock_sequence w)) = clock_count w /\
   stdout (snd (current_clock_sequence w)) = stdout w) /\
  (forall g, In g entropy_generators ->
     os_count (snd (g w)) = os_count w + 1 /\
     mt_count (snd (g w)) = mt_count w /\
     clock_count (snd (g w)) = clock_count w /\
     stdout (snd (g w)) = stdout w /\
     ((exists v, fst (g w) = Ok v) <-> os_error w (os_count w) = None) /\
     (forall f, os_error w (os_count w) = Some f ->
                fst (g w) = Raise (exn_of_os_failure f))).
Proof.
  split.
  - repeat split; reflexivity.
  - intros g Hg. cbn in Hg.
    destruct Hg as [<- | [<- | [<- | []]]];
      unfold clockseq_secrets, clockseq_urandom, clockseq_urandom_optimized,
        secrets.randbits, bind, invoked, os.urandom, ret; cbn;
      destruct (os_error w (os_count w)) as [f0 |]; cbn;
      (split; [reflexivity |]); (split; [reflexivity |]);
      (split; [reflexivity |]); (split; [reflexivity |]);
      (split;
       [ first [ split; [intros [v X]; discriminate | discriminate]
               | split; [reflexivity | intros _; eexists; reflexivity] ]
       | intros f X; congruence ]).
Qed.

(** ** What [summarize] needs and what it gives *)

Lemma as_integer_ratio_finite (x : float) :
  pyfloat.as_integer_ratio x <> None -> is_finite x = true.
Proof.
  unfold pyfloat.as_integer_ratio, is_finite. intros H.
  assert (is_nan x = false) as N.
  { destruct (is_nan x) eqn:E; [| reflexivity].
    apply Prim2SF_nan in E. rewrite E in H. now contradiction H. }
  rewrite N. cbn [orb].
  destruct (is_infinity x) eqn:I; [| reflexivity].
  unfold is_infinity in I. rewrite eqb_spec, abs_spec in I.
  destruct (Prim2SF x) as [[] | [] | | [] m e];
    try (now contradiction H); vm_compute in I; discriminate.
Qed.

Lemma fold_add_datum_exact (data : list float) :
  forall acc q,
    fold_left statistics.add_datum data acc = statistics.Exact q ->
    (exists s, acc = statistics.Exact s) /\
    Forall (fun x => is_finite x = true) data.
Proof.
  induction data as [| x data IH]; intros acc q H.
  - cbn in H. split; [eauto | constructor].
  - cbn [fold_left] in H. destruct (IH _ _ H) as [[s Hs] F].
    unfold statistics.add_datum in Hs.
    destruct (pyfloat.as_integer_ratio x) as [qx |] eqn:Ex.
    + destruct acc as [s0 | f]; [| discriminate].
      split; [eauto |]. constructor; [| exact F].
      apply as_integer_ratio_finite. congruence.
    + destruct acc; discriminate.
Qed.

Lemma stdev_ok (times : list float) (s : float) :
  statistics.stdev times = Ok s ->
  (2 <= List.length times)%nat /\
  Forall (fun x => is_finite x = true) times /\
  is_nan s = false /\ is_infinity s = false.
Proof.
  unfold statistics.stdev, statistics._ss, statistics.count.
  destruct (Z.of_nat (List.length times) <? 2) eqn:E2; [discriminate |].
  apply Z.ltb_ge in E2.
  assert ((Z.of_nat (List.length times) =? 0) = false) as ->
      by (apply Z.eqb_neq; lia).
  destruct (statistics._sum times) as [q | f] eqn:Es; [| discriminate].
  intros H. split; [lia | split].
  - unfold statistics._sum in Es. apply fold_add_datum_exact in Es. tauto.
  - unfold statistics._float_sqrt_of_frac in H.
    destruct (0 <=? _); apply int_truediv_ok in H; exact H.
Qed.

Lemma mean_ok_exact (times : list float) (m s : float) :
  statistics.mean times = Ok m -> statistics.stdev times = Ok s ->
  is_nan m = false /\ is_infinity m = false.
Proof.
  unfold statistics.mean, statistics.stdev, statistics._ss.
  destruct (statistics.count times <? 1); [discriminate |].
  destruct (statistics.count times <? 2) eqn:E2; [discriminate |].
  assert ((statistics.count times =? 0) = false) as ->
      by (apply Z.ltb_ge in E2; apply Z.eqb_neq; lia).
  destruct (statistics._sum times) as [q | f]; [| discriminate].
  intros H _. unfold pyfloat.of_Fraction in H.
  apply int_truediv_ok in H. exact H.
Qed.

(** X4. [summarize] returns metrics only for a sample of at least two
    finite floats, and the three metrics it returns are numbers: none is
    a NaN. *)
Theorem summarize_returns_numbers
  (times : list float) (iterations : Z) (r : metrics) :
  summarize times iterations = Ok r ->
  (2 <= List.length times)%nat /\
  Forall (fun x => is_finite x = true) times /\
  is_nan (avg_ns r) = false /\
  is_nan (stddev_ns r) = false /\
  is_nan (ops_per_sec r) = false.
Proof.
  intros H. apply summarize_inv in H.
  destruct H as [m [s [n (Hm & Hs & Hn & Hn0 & Hm0 & ->)]]].
  cbn [avg_ns stddev_ns ops_per_sec].
  destruct (stdev_ok times s Hs) as (L & F & Ns & Is).
  destruct (mean_ok_exact times m s Hm Hs) as [Nm Im].
  unfold pyfloat.of_int in Hn. apply int_truediv_ok in Hn.
  destruct Hn as [Nn In].
  split; [exact L | split; [exact F | split; [| split]]].
  - apply truediv_mul_not_nan; assumption.
  - apply truediv_mul_not_nan; assumption.
  - destruct (Prim2SF_finite m Nm Im Hm0) as [sg [mm [e Em]]].
    destruct (is_nan (n / m)%float) eqn:E; [| reflexivity].
    apply Prim2SF_nan in E. rewrite div_spec, Em in E.
    exfalso. revert E. apply SFdiv_finite_not_nan.
    intros X. apply Prim2SF_nan in X. congruence.
Qed.

Lemma summarize_returns_numbers_witness :
  is_nan 100.00000000000001%float = false /\
  is_nan 10000000%float = false.
Proof.
  pose proof (summarize_returns_numbers example_totals 1000000 _
                summarize_example) as H.
  cbn [avg_ns stddev_ns ops_per_sec] in H. tauto.
Defined.

(** ** What a complete run prints and consumes *)

Lemma silent_state {A} (m : M A) :
  (forall w, stdout (snd (m w)) = stdout w) -> silent m.
Proof. intros H w r w' E. specialize (H w). rewrite E in H. exact H. Qed.

Lemma silent_bind {A B} (m : M A) (k : A -> M B) :
  silent m -> (forall a, silent (k a)) -> silent (bind m k).
Proof.
  intros Hm Hk w r w' H. apply bind_inv in H.
  destruct H as [[a [w1 [H1 H2]]] | [e [H1 _]]].
  - rewrite (Hk a _ _ _ H2). exact (Hm _ _ _ H1).
  - exact (Hm _ _ _ H1).
Qed.

Lemma silent_for_range (n : nat) (body : M unit) :
  silent body -> silent (for_range n body).
Proof.
  intros Hb. induction n as [| n IH]; cbn [for_range].
  - apply silent_state. reflexivity.
  - apply silent_bind; [exact Hb | intros _; exact IH].
Qed.

Lemma silent_urandom (size : Z) : silent (os.urandom size).
Proof.
  apply silent_state. intros w. unfold os.urandom.
  destruct (size <? 0); [reflexivity |].
  destruct (os_error w (os_count w)); reflexivity.
Qed.

Lemma silent_generators :
  silent current_clock_sequence /\ silent clockseq_secrets /\
  silent clockseq_urandom /\ silent clockseq_urandom_optimized.
Proof.
  unfold current_clock_sequence, clockseq_secrets, clockseq_urandom,
    clockseq_urandom_optimized.
  change (random.getrandbits 14)
    with (bind random.genrand_uint32 (fun r => ret (Z.shiftr r (32 - 14)))).
  change (secrets.randbits 14)
    with (bind (os.urandom 2)
            (fun bs => ret (Z.shiftr (pyint.from_bytes bs pyint.big false)
                                     (2 * 8 - 14)))).
  split; [| split; [| split]];
    (apply silent_bind; [apply silent_state; reflexivity | intros _]);
    (apply silent_bind;
     [first [apply silent_urandom | apply silent_state; reflexivity]
     | intros ?; apply silent_state; reflexivity]).
Qed.

Lemma silent_warmup_loop (n : nat) : silent (for_range n warmup_round).
Proof.
  destruct silent_generators as (H1 & H2 & H3 & H4).
  apply silent_for_range. unfold warmup_round.
  repeat (apply silent_bind; [assumption | intros _]).
  apply silent_state. reflexivity.
Qed.

Lemma silent_Timer (stmt : string) : silent (Timer stmt).
Proof.
  destruct silent_generators as (H1 & H2 & H3 & H4).
  destruct (generator_of_cases stmt)
    as [[_ ->] | [[_ ->] | [[_ ->] | [[_ ->] | [_ ->]]]]];
    try (apply silent_bind; [assumption | intros _]);
    apply silent_state; reflexivity.
Qed.

Lemma silent_repeat (stmt : M unit) (repeat number : Z) :
  silent stmt -> silent (timeit.repeat stmt repeat number).
Proof.
  intros Hs. unfold timeit.repeat. generalize (@nil float).
  induction (Z.to_nat repeat) as [| n IH]; intros r; cbn [timeit.repeat_from].
  - apply silent_state. reflexivity.
  - apply silent_bind; [| intros t; apply IH].
    unfold timeit.timeit.
    apply silent_bind;
      [apply silent_state; intros w0; unfold itertools.repeat;
       destruct (pyint.fits_ssize_t number); reflexivity | intros it].
    apply silent_bind; [apply silent_state; reflexivity | intros t0].
    apply silent_bind; [apply silent_for_range, Hs | intros _].
    apply silent_bind; [apply silent_state; reflexivity | intros t1].
    apply silent_state. reflexivity.
Qed.

Lemma benchmark_case_stdout (G : globals) (results : dict) (name stmt : string)
  (w : world) (results' : dict) (w' : world) :
  benchmark_case G results (name, stmt) w = (Ok results', w') ->
  exists r, results' = dict_set results name r /\
            stdout w' = stdout w ++ case_lines name r.
Proof.
  intros H. unfold benchmark_case in H.
  apply bind_ok_inv in H. destruct H as [[] [w1 [Hp H]]].
  apply bind_ok_inv in H. destruct H as [times [w2 [Hr H]]].
  apply bind_ok_inv in H. destruct H as [r [w3 [Hs H]]].
  apply bind_ok_inv in H. destruct H as [[] [w4 [Hp1 H]]].
  apply bind_ok_inv in H. destruct H as [[] [w5 [Hp2 H]]].
  unfold ret in H. assert (results' = dict_set results name r /\ w' = w5)
    as [-> ->] by (split; congruence).
  unfold lift in Hs. assert (w3 = w2) as -> by congruence.
  pose proof (silent_repeat _ 5 (NUM_ITERATIONS G) (silent_Timer stmt) _ _ _ Hr)
    as S2.
  apply print_ok_inv in Hp, Hp1, Hp2.
  assert (stdout w1 = stdout w ++ [BenchmarkingLine name]) as S1
      by (rewrite Hp; reflexivity).
  assert (stdout w4 = stdout w2 ++ [AverageLine (avg_ns r) (stddev_ns r)]) as S4
      by (rewrite Hp1; reflexivity).
  assert (stdout w5 = stdout w4 ++ [OpsLine (ops_per_sec r)]) as S5
      by (rewrite Hp2; reflexivity).
  exists r. split; [reflexivity |].
  rewrite S5, S4, S2, S1. unfold case_lines. rewrite <- !app_assoc. reflexivity.
Qed.

Lemma measure_stdout (G : globals) (w : world) (results : dict) (w' : world) :
  measure G w = (Ok results, w') ->
  exists r0 r1 r2 r3,
    results = results_of r0 r1 r2 r3 /\
    stdout w'
    = stdout w ++ [VersionLine (sys_version w);
                   IterationsLine (NUM_ITERATIONS G); WarmupLine]
        ++ case_lines "current (random.getrandbits)" r0
        ++ case_lines "secrets.getrandbits" r1
        ++ case_lines "os.urandom" r2
        ++ case_lines "os.urandom_optimized" r3.
Proof.
  intros H. rewrite measure_unfold in H.
  apply bind_ok_inv in H. destruct H as [[] [w1 [Hw Hc]]].
  unfold warmup in Hw. apply bind_ok_inv in Hw. destruct Hw as [[] [w0 [Hp Hl]]].
  apply print_ok_inv in Hp.
  assert (stdout w0 = stdout (after_banner G w) ++ [WarmupLine]) as S0
      by (rewrite Hp; reflexivity).
  pose proof (silent_warmup_loop _ _ _ _ Hl) as S1.
  unfold TEST_CASES in Hc. cbn [benchmark_cases] in Hc.
  apply bind_ok_inv in Hc. destruct Hc as [d0 [w2 [H0 Hc]]].
  apply bind_ok_inv in Hc. destruct Hc as [d1 [w3 [H1 Hc]]].
  apply bind_ok_inv in Hc. destruct Hc as [d2 [w4 [H2 Hc]]].
  apply bind_ok_inv in Hc. destruct Hc as [d3 [w5 [H3 Hc]]].
  unfold ret in Hc.
  assert (results = d3 /\ w' = w5) as [-> ->] by (split; congruence).
  destruct (benchmark_case_stdout _ _ _ _ _ _ _ H0) as [r0 [-> O0]].
  destruct (benchmark_case_stdout _ _ _ _ _ _ _ H1) as [r1 [-> O1]].
  destruct (benchmark_case_stdout _ _ _ _ _ _ _ H2) as [r2 [-> O2]].
  destruct (benchmark_case_stdout _ _ _ _ _ _ _ H3) as [r3 [-> O3]].
  exists r0, r1, r2, r3. split; [reflexivity |].
  rewrite O3, O2, O1, O0, S1, S0. unfold after_banner. cbn [stdout set_stdout].
  rewrite <- !app_assoc. reflexivity.
Qed.

(** X5. The output of a complete run, line by line: the two banner lines
    and the warmup announcement; for each test case, in the order of
    [TEST_CASES], its name and the two metric lines of its record; the
    three heading lines of the table; and one row per test case, the
    names of the rows being those of [TEST_CASES] in some order.  The
    records are the metrics of the four sample sets. *)
Theorem complete_run_output (G : globals) (w w' : world) :
  run_benchmark G w = (Ok tt, w') ->
  exists r0 r1 r2 r3,
    measured G w (clock_count w) r0 /\
    measured G w (clock_count w + 10) r1 /\
    measured G w (clock_count w + 20) r2 /\
    measured G w (clock_count w + 30) r3 /\
    stdout w'
    = stdout w ++ [VersionLine (sys_version w);
                   IterationsLine (NUM_ITERATIONS G); WarmupLine]
        ++ case_lines "current (random.getrandbits)" r0
        ++ case_lines "secrets.getrandbits" r1
        ++ case_lines "os.urandom" r2
        ++ case_lines "os.urandom_optimized" r3
        ++ [SummaryTitle; TableHeader; TableRule]
        ++ map table_line (table_rows (results_of r0 r1 r2 r3)) /\
    Permutation (map fst (table_rows (results_of r0 r1 r2 r3)))
                (map fst TEST_CASES).
Proof.
  intros H. apply run_benchmark_inv in H.
  destruct H as [[results [wm [Hm [_ ->]]]] | [e [_ H]]]; [| discriminate].
  destruct (measure_ok G w results wm Hm)
    as [_ [[r0 [r1 [r2 [r3 (M0 & M1 & M2 & M3 & E)]]]] _]].
  destruct (measure_stdout G w results wm Hm) as [q0 [q1 [q2 [q3 [E' O]]]]].
  assert (q0 = r0 /\ q1 = r1 /\ q2 = r2 /\ q3 = r3) as (-> & -> & -> & ->).
  { rewrite E in E'. unfold results_of in E'. repeat split; congruence. }
  subst results. exists r0, r1, r2, r3.
  repeat (split; [assumption |]). split.
  - cbn [stdout set_stdout]. rewrite O, <- !app_assoc. reflexivity.
  - apply Permutation_sym.
    apply (Permutation_map fst (l := results_of r0 r1 r2 r3)).
    unfold table_rows. apply sorted_perm.
Qed.

Lemma complete_run_output_witness :
  exists w' r0 r1 r2 r3,
    run_benchmark module_globals demo_world = (Ok tt, w') /\
    Permutation (map fst (table_rows (results_of r0 r1 r2 r3)))
                (map fst TEST_CASES).
Proof.
  destruct main_completes as [w' H].
  destruct (complete_run_output module_globals demo_world w' H)
    as [r0 [r1 [r2 [r3 (_ & _ & _ & _ & _ & P)]]]].
  exists w', r0, r1, r2, r3. split; assumption.
Defined.

(** X6. What a complete run consumes: one Mersenne Twister word and three
    entropy requests per warmup round, five times the iteration count of
    words and fifteen times of requests for the measurements, and forty
    timer readings; every one of these entropy requests was answered. *)
Theorem complete_run_consumption (G : globals) (w w' : world) :
  run_benchmark G w = (Ok tt, w') ->
  let calls := Z.max 0 (WARMUP_ROUNDS G) + 5 * Z.max 0 (NUM_ITERATIONS G) in
  mt_count w' = mt_count w + calls /\
  os_count w' = os_count w + 3 * calls /\
  clock_count w' = clock_count w + 40 /\
  forall k, os_count w <= k < os_count w + 3 * calls -> os_error w k = None.
Proof.
  intros H calls.
  destruct (sound_run_benchmark G _ _ _ H) as (_ & _ & F & _).
  apply run_benchmark_inv in H.
  destruct H as [[results [wm [Hm [_ ->]]]] | [e [_ H]]]; [| discriminate].
  destruct (measure_ok G w results wm Hm) as [_ [_ A]].
  destruct A as (_ & Cmt & Cos & Cclock & _).
  cbn [f_mt f_os f_clock] in Cmt, Cos, Cclock.
  cbn [mt_count os_count clock_count set_stdout] in *.
  subst calls. repeat split; try lia.
  intros k Hk. destruct (os_error w k) as [f |] eqn:E; [| reflexivity].
  assert (Ok tt = Raise (exn_of_os_failure f)) as X by (apply (F k f); [lia | exact E]).
  discriminate.
Qed.

Lemma complete_run_consumption_witness :
  exists w',
    run_benchmark module_globals demo_world = (Ok tt, w') /\
    os_count w' = os_count demo_world
                  + 3 * (Z.max 0 (WARMUP_ROUNDS module_globals)
                         + 5 * Z.max 0 (NUM_ITERATIONS module_globals)).
Proof.
  destruct main_completes as [w' H]. exists w'. split; [exact H |].
  exact (proj1 (proj2 (complete_run_consumption module_globals demo_world w' H))).
Defined.

(** A test case that completes has passed the two checks of its
    environment: the iteration count fits [itertools.repeat], and the
    standard output encodes line 65. *)
Lemma benchmark_case_ok_env (G : globals) (results : dict) (name stmt : string)
  (g : generator) (w : world) (results' : dict) (w' : world) :
  generator_of stmt = Some g ->
  benchmark_case G results (name, stmt) w = (Ok results', w') ->
  pyint.fits_ssize_t (NUM_ITERATIONS G) = true /\ stdout_unicode w = true.
Proof.
  intros Hg H.
  destruct (benchmark_case_ok G results name stmt g w results' w' Hg H)
    as [_ ((_ & _ & _ & _ & _ & U) & _)].
  unfold benchmark_case in H.
  apply bind_ok_inv in H. destruct H as [[] [w1 [Hp H]]].
  apply bind_ok_inv in H. destruct H as [times [w2 [Hr H]]].
  apply bind_ok_inv in H. destruct H as [r [w3 [Hs H]]].
  apply bind_ok_inv in H. destruct H as [[] [w4 [Hp1 H]]].
  apply bind_ok_inv in H. destruct H as [[] [w5 [Hp2 H]]].
  unfold ret in H. assert (w' = w5) as -> by congruence.
  unfold lift in Hs. assert (w3 = w2) as -> by congruence.
  split.
  - unfold timeit.repeat in Hr. cbn [Z.to_nat Pos.to_nat Pos.iter_op Nat.add
      timeit.repeat_from] in Hr.
    apply bind_ok_inv in Hr. destruct Hr as [t [wt [Ht _]]].
    exact (timeit_fits _ _ _ _ _ Ht).
  - rewrite <- U. apply print_ok_inv in Hp2. rewrite Hp2.
    cbn [stdout_unicode set_stdout].
    pose proof Hp1 as Hp1'. apply print_ok_inv in Hp1'. rewrite Hp1'.
    cbn [stdout_unicode set_stdout].
    unfold print in Hp1. cbn [non_ascii andb] in Hp1.
    destruct (stdout_unicode w2); [reflexivity | discriminate].
Qed.

Lemma measure_ok_env (G : globals) (w : world) (results : dict) (w' : world) :
  measure G w = (Ok results, w') ->
  pyint.fits_ssize_t (NUM_ITERATIONS G) = true /\ stdout_unicode w = true.
Proof.
  intros H. destruct (measure_ok G w results w' H)
    as [[w0 [w1 [_ [_ [A1 Hc]]]]] _].
  destruct A1 as ((_ & _ & _ & _ & _ & U) & _).
  unfold TEST_CASES in Hc. cbn [benchmark_cases] in Hc.
  apply bind_ok_inv in Hc. destruct Hc as [d0 [w2 [H0 _]]].
  destruct (benchmark_case_ok_env G _ _ "current_clock_sequence()"%string
              gen_current _ _ _ eq_refl H0) as [F U1].
  split; [exact F | congruence].
Qed.



(** ** Failures of the entropy source and the exceptions of a run *)




Lemma orderly_quiet {A} (m : M A) :
  (forall w, os_error (snd (m w)) = os_error w /\
             os_count (snd (m w)) = os_count w) ->
  orderly m.
Proof.
  intros Hm w r w' H. destruct (Hm w) as (O & C).
  rewrite H in O, C. cbn [snd] in O, C.
  split; [exact O | split; [lia |]].
  intros k f Hk. lia.
Qed.

Lemma orderly_entropy : orderly (os.urandom 2).
Proof.
  intros w r w' H. unfold os.urandom in H. cbn [Z.ltb Z.compare] in H.
  assert (w' = set_os_count (os_count w + 1) w /\
          r = match os_error w (os_count w) with
              | Some f => Raise (exn_of_os_failure f)
              | None => Ok (map (os_byte w (os_count w)) (seq 0 (Z.to_nat 2)))
              end) as [-> ->].
  { destruct (os_error w (os_count w)); split; congruence. }
  cbn [os_error os_count set_os_count].
  split; [reflexivity | split; [lia |]].
  intros k f Hk Hf. assert (k = os_count w) as -> by lia.
  rewrite Hf. split; [reflexivity | lia].
Qed.

Lemma orderly_bind {A B} (m : M A) (k : A -> M B) :
  orderly m -> (forall a, orderly (k a)) -> orderly (bind m k).
Proof.
  intros Hm Hk w r w' H. apply bind_inv in H.
  destruct H as [[a [w1 [H1 H2]]] | [e0 [H1 ->]]].
  - destruct (Hm _ _ _ H1) as (E1 & C1 & F1).
    destruct (Hk a _ _ _ H2) as (E2 & C2 & F2).
    split; [congruence | split; [lia |]].
    intros j f Hj Hf. destruct (Z_lt_le_dec j (os_count w1)) as [L | L].
    + destruct (F1 j f ltac:(lia) Hf) as [X _]. discriminate.
    + apply (F2 j f); [lia | congruence].
  - destruct (Hm _ _ _ H1) as (E1 & C1 & F1).
    split; [exact E1 | split; [exact C1 |]].
    intros j f Hj Hf. destruct (F1 j f Hj Hf) as [X Y].
    split; [congruence | exact Y].
Qed.

Lemma script_orderly (A : Type) (m : M A) : script A m -> orderly m.
Proof.
  induction 1 as [A a | l | | g | | times | | | times n | A B m k _ IHm _ IHk].
  - apply orderly_quiet. intros w. split; reflexivity.
  - apply orderly_quiet. intros w. unfold print.
    destruct (non_ascii l && negb (stdout_unicode w)); split; reflexivity.
  - apply orderly_quiet. intros w. split; reflexivity.
  - apply orderly_quiet. intros w. split; reflexivity.
  - apply orderly_quiet. intros w. split; reflexivity.
  - apply orderly_quiet. intros w. unfold itertools.repeat.
    destruct (pyint.fits_ssize_t times); split; reflexivity.
  - apply orderly_quiet. intros w. split; reflexivity.
  - apply orderly_entropy.
  - apply orderly_quiet. intros w. split; reflexivity.
  - apply orderly_bind; assumption.
Qed.

(** The script is made of these computations. *)
Lemma script_for_range (n : nat) (body : M unit) :
  script unit body -> script unit (for_range n body).
Proof.
  intros Hb. induction n as [| n IH]; cbn [for_range].
  - apply script_ret.
  - apply script_bind; [exact Hb | intros _; exact IH].
Qed.

Lemma script_generators :
  script Z current_clock_sequence /\ script Z clockseq_secrets /\
  script Z clockseq_urandom /\ script Z clockseq_urandom_optimized.
Proof.
  unfold current_clock_sequence, clockseq_secrets, clockseq_urandom,
    clockseq_urandom_optimized.
  change (random.getrandbits 14)
    with (bind random.genrand_uint32 (fun r => ret (Z.shiftr r (32 - 14)))).
  change (secrets.randbits 14)
    with (bind (os.urandom 2)
            (fun bs => ret (Z.shiftr (pyint.from_bytes bs pyint.big false)
                                     (2 * 8 - 14)))).
  split; [| split; [| split]];
    (apply script_bind; [apply script_invoked | intros _]);
    (apply script_bind;
     [first [apply script_word | apply script_entropy]
     | intros ?; apply script_ret]).
Qed.

Lemma script_repeat (stmt : M unit) (repeat number : Z) :
  script unit stmt -> script (list float) (timeit.repeat stmt repeat number).
Proof.
  intros Hs. unfold timeit.repeat. generalize (@nil float).
  induction (Z.to_nat repeat) as [| n IH]; intros r; cbn [timeit.repeat_from].
  - apply script_ret.
  - apply script_bind; [| intros t; apply IH].
    unfold timeit.timeit.
    apply script_bind; [apply script_iterator | intros it].
    apply script_bind; [apply script_timer | intros t0].
    apply script_bind; [apply script_for_range, Hs | intros _].
    apply script_bind; [apply script_timer | intros t1].
    apply script_ret.
Qed.

Lemma script_benchmark_case (G : globals) (results : dict)
  (name stmt : string) (g : generator) :
  generator_of stmt = Some g ->
  script dict (benchmark_case G results (name, stmt)).
Proof.
  intros Hg. destruct script_generators as (H1 & H2 & H3 & H4).
  unfold benchmark_case.
  apply script_bind; [apply script_print | intros _].
  apply script_bind.
  - apply script_repeat.
    destruct (generator_of_cases stmt)
      as [[_ ->] | [[_ ->] | [[_ ->] | [[_ ->] | [E _]]]]];
      try (apply script_bind; [assumption | intros _; apply script_ret]).
    congruence.
  - intros times. apply script_bind; [apply script_metrics | intros r].
    apply script_bind; [apply script_print | intros _].
    apply script_bind; [apply script_print | intros _].
    apply script_ret.
Qed.

Lemma script_run_benchmark (G : globals) : script unit (run_benchmark G).
Proof.
  destruct script_generators as (H1 & H2 & H3 & H4).
  unfold run_benchmark, measure.
  apply script_bind.
  - apply script_bind; [apply script_version | intros v].
    apply script_bind; [apply script_print | intros _].
    apply script_bind; [apply script_print | intros _].
    apply script_bind.
    + unfold warmup. apply script_bind; [apply script_print | intros _].
      apply script_for_range. unfold warmup_round.
      repeat (apply script_bind; [assumption | intros _]). apply script_ret.
    + intros _. unfold TEST_CASES. cbn [benchmark_cases].
      apply script_bind;
        [apply (script_benchmark_case G _ _ _ gen_current); reflexivity
        | intros d0].
      apply script_bind;
        [apply (script_benchmark_case G _ _ _ gen_secrets); reflexivity
        | intros d1].
      apply script_bind;
        [apply (script_benchmark_case G _ _ _ gen_urandom); reflexivity
        | intros d2].
      apply script_bind;
        [apply (script_benchmark_case G _ _ _ gen_urandom_optimized); reflexivity
        | intros d3].
      apply script_ret.
  - intros results. unfold print_summary.
    apply script_bind; [apply script_print | intros _].
    apply script_bind; [apply script_print | intros _].
    apply script_bind; [apply script_print | intros _].
    induction (table_rows results) as [| [name res] l IH]; cbn [for_each].
    + apply script_ret.
    + apply script_bind; [apply script_print | intros _; exact IH].
Qed.

(** X8. No retries: an entropy request that fails during a run is the
    last request the run makes, and its failure is the outcome of the
    run. *)
Theorem no_request_after_a_failed_one (G : globals) (w : world) (k : Z)
  (f : os_failure) :
  os_count w <= k < os_count (snd (run_benchmark G w)) ->
  os_error w k = Some f ->
  os_count (snd (run_benchmark G w)) = k + 1 /\
  fst (run_benchmark G w) = Raise (exn_of_os_failure f).
Proof.
  intros Hk Hf. destruct (run_benchmark G w) as [r w'] eqn:E.
  cbn [fst snd] in *.
  destruct (script_orderly _ _ (script_run_benchmark G) _ _ _ E)
    as (_ & _ & F).
  destruct (F k f Hk Hf). split; assumption.
Qed.

Lemma no_request_after_a_failed_one_witness :
  os_count (snd (run_benchmark demo_globals failing_world)) = 5 + 1 /\
  fst (run_benchmark demo_globals failing_world) = Raise OSError.
Proof.
  assert (os_count (snd (run_benchmark demo_globals failing_world)) = 6) as E
      by (vm_compute; reflexivity).
  apply (no_request_after_a_failed_one demo_globals failing_world 5
           source_unreadable).
  - rewrite E. cbn. lia.
  - reflexivity.
Defined.

(** ** Where the exception of a failed run comes from *)


















(** ** The report and the values drawn *)

(** X10. The report of a complete run is a function of the timer
    readings, never of the values the generators return: in a world with
    the same timer, interpreter version and text printed so far, whose
    entropy source never fails, the run completes as well and prints the
    same text, whatever the random words and the entropy bytes are. *)
Theorem report_ignores_the_values_drawn (G : globals) (w1 w2 w1' : world) :
  healthy w2 ->
  clock w2 = clock w1 ->
  clock_count w2 = clock_count w1 ->
  sys_version w2 = sys_version w1 ->
  stdout w2 = stdout w1 ->
  run_benchmark G w1 = (Ok tt, w1') ->
  exists w2', run_benchmark G w2 = (Ok tt, w2') /\ stdout w2' = stdout w1'.
Proof.
  intros H Ec En Ev Es H1. apply run_benchmark_inv in H1.
  destruct H1 as [[d1 [wm1 [Hm1 [_ ->]]]] | [e [_ X]]]; [| discriminate].
  destruct (measure_ok G w1 d1 wm1 Hm1)
    as [_ [[r0 [r1 [r2 [r3 (M0 & M1 & M2 & M3 & E1)]]]] _]].
  destruct (measure_stdout G w1 d1 wm1 Hm1) as [p0 [p1 [p2 [p3 [E1' O1]]]]].
  assert (p0 = r0 /\ p1 = r1 /\ p2 = r2 /\ p3 = r3) as (-> & -> & -> & ->).
  { rewrite E1 in E1'. unfold results_of in E1'. repeat split; congruence. }
  unfold measured in *.
  assert (forall c, samples w2 c = samples w1 c) as S
      by (intros c; apply samples_same_clock; exact Ec).
  assert (measurable G w2) as Hm.
  { intros start Hs. rewrite S, En. cbn in Hs.
    destruct Hs as [<- | [<- | [<- | [<- | []]]]]; eauto.
    rewrite Z.add_0_r. eauto. }
  destruct (measure_ok_env G w1 d1 wm1 Hm1) as [F _].
  destruct (run_benchmark_completes G w2 H F Hm) as [w2' H2].
  exists w2'. split; [exact H2 |].
  apply run_benchmark_inv in H2.
  destruct H2 as [[d2 [wm2 [Hm2 [_ ->]]]] | [e [_ X]]]; [| discriminate].
  destruct (measure_ok G w2 d2 wm2 Hm2)
    as [_ [[q0 [q1 [q2 [q3 (N0 & N1 & N2 & N3 & E2)]]]] _]].
  destruct (measure_stdout G w2 d2 wm2 Hm2) as [p0 [p1 [p2 [p3 [E2' O2]]]]].
  assert (p0 = q0 /\ p1 = q1 /\ p2 = q2 /\ p3 = q3) as (-> & -> & -> & ->).
  { rewrite E2 in E2'. unfold results_of in E2'. repeat split; congruence. }
  unfold measured in *. rewrite S, En in N0, N1, N2, N3.
  assert (q0 = r0) as -> by congruence.
  assert (q1 = r1) as -> by congruence.
  assert (q2 = r2) as -> by congruence.
  assert (q3 = r3) as -> by congruence.
  subst d1 d2. cbn [stdout set_stdout]. rewrite O1, O2, Ev, Es. reflexivity.
Qed.

Lemma report_ignores_the_values_drawn_witness :
  exists w1' w2',
    run_benchmark module_globals demo_world = (Ok tt, w1') /\
    run_benchmark module_globals other_world = (Ok tt, w2') /\
    stdout w2' = stdout w1'.
Proof.
  destruct main_completes as [w1' H1].
  destruct (report_ignores_the_values_drawn module_globals demo_world
              other_world w1' (conj (fun _ => eq_refl) eq_refl)
              eq_refl eq_refl eq_refl
              eq_refl H1) as [w2' [H2 E]].
  exists w1', w2'. split; [exact H1 | split; [exact H2 | exact E]].
Defined.

(** ** Rows with equal averages *)

Lemma float_leb_not_ltb (x y : float) :
  (x <=? y)%float = true -> (y <? x)%float = false.
Proof.
  rewrite ltb_spec, leb_spec. unfold SFltb, SFleb.
  rewrite (SFcompare_antisym (Prim2SF x) (Prim2SF y)).
  destruct (SFcompare (Prim2SF x) (Prim2SF y)) as [[] |]; cbn; congruence.
Qed.

Section Stability.
Variable A : Type.
Variable key : A -> float.

Lemma above_insert_old (a b x : A) (l : list A) :
  above a b l -> above a b (insert_by_key key x l).
Proof.
  induction 1 as [l Hb | y l H IH]; cbn [insert_by_key].
  - destruct (key a <? key x)%float.
    + apply above_here.
      apply (Permutation_in b (insert_by_key_perm A key x l)). right. exact Hb.
    + apply above_later, above_here, Hb.
  - destruct (key y <? key x)%float.
    + apply above_later, IH.
    + apply above_later, above_later, H.
Qed.

Lemma above_insert_new (x b : A) (l : list A) :
  In b l -> (key b <? key x)%float = false ->
  above x b (insert_by_key key x l).
Proof.
  intros Hb Hk. induction l as [| y l IH]; [destruct Hb |].
  cbn [insert_by_key]. destruct (key y <? key x)%float eqn:E.
  - apply above_later, IH. destruct Hb as [-> | Hb]; [congruence | exact Hb].
  - apply above_here, Hb.
Qed.

Lemma sorted_stable (a b : A) (l : list A) :
  above a b l -> (key b <? key a)%float = false ->
  above a b (sorted key l).
Proof.
  intros H Hk. induction H as [l Hb | y l H IH]; cbn [sorted].
  - apply above_insert_new; [| exact Hk].
    apply (Permutation_in b (sorted_perm A key l)), Hb.
  - apply above_insert_old, IH.
Qed.

Lemma above_sorted (R : A -> A -> Prop) (a b : A) (l : list A) :
  StronglySorted R l -> above a b l -> R a b.
Proof.
  intros Hs H. induction H as [l Hb | y l H IH].
  - apply StronglySorted_inv in Hs. destruct Hs as [_ Hs].
    rewrite Forall_forall in Hs. apply Hs, Hb.
  - apply StronglySorted_inv in Hs. apply IH, Hs.
Qed.

End Stability.

(** X11. The table is determined by the averages and the order of the
    dictionary, which is that of [TEST_CASES]: when the averages are
    numbers, an item that entered the dictionary before another one
    stands above it in the table exactly when its average is not the
    greater one.  Rows with equal averages keep the order of the test
    cases. *)
Theorem table_order_is_determined (results : dict) (a b : string * metrics) :
  averages_are_numbers results ->
  above a b results ->
  (above a b (table_rows results) <-> avg_le a b).
Proof.
  intros Hn Hab. unfold table_rows. split.
  - intros H.
    apply (above_sorted _ avg_le a b (sorted (fun item => avg_ns (snd item)) results));
      [| exact H].
    apply (sorted_sorted _ (fun item => avg_ns (snd item)) results Hn).
  - intros H. apply sorted_stable; [exact Hab |].
    apply float_leb_not_ltb, H.
Qed.

Lemma table_order_is_determined_witness :
  above ("A"%string, with_average 50) ("C"%string, with_average 80)
        (table_rows example_results).
Proof.
  apply (proj2 (table_order_is_determined example_results
                  ("A"%string, with_average 50) ("C"%string, with_average 80)
                  ltac:(repeat constructor)
                  ltac:(apply above_here; right; left; reflexivity))).
  reflexivity.
Defined.

(** ** What a failed run has printed *)







(** ** The configuration is not validated *)




